(** * Where2Work: layout and selection engine of [app.py]

    A shallow embedding of the parts of [app.py] that classify employee
    bands, filter and partition the company table, lay the bubbles out and
    react to a click, together with the properties stated about them.

    Conventions of the embedding:
    - a Python [str] is the list of its Unicode code points;
    - a pandas DataFrame is the list of its rows, in row order; a column that
      a frame may or may not carry is an [option] field of the row record, and
      a missing value (NaN) of a numeric column is [None];
    - a Python [float] is idealised as a real number;
    - [np.random] is a generator given by its state type, its seeding function
      and its [random_sample] step; the program's global generator state and
      Streamlit's session state are passed explicitly. *)

From Stdlib Require Import Ascii String.
From Stdlib Require Import Reals Lra Lia ZArith NArith List.
From stdpp Require Import base option list gmap sets.
Import ListNotations.

(** ** Python strings *)

Module PyStr.

Abbreviation pystr := (list N).

(** [str.isspace] on one code point, as used by [str.strip()] and
    [str.split()] without arguments. *)
Definition is_space (c : N) : bool :=
  ((9 <=? c) && (c <=? 13) || (28 <=? c) && (c <=? 32)
   || (c =? 133) || (c =? 160) || (c =? 5760)
   || (8192 <=? c) && (c <=? 8202)
   || (c =? 8232) || (c =? 8233) || (c =? 8239) || (c =? 8287)
   || (c =? 12288))%N.

Fixpoint lstrip (s : pystr) : pystr :=
  match s with
  | c :: t => if is_space c then lstrip t else s
  | [] => []
  end.

Definition rstrip (s : pystr) : pystr := rev (lstrip (rev s)).

(** [s.strip()] *)
Definition strip (s : pystr) : pystr := rstrip (lstrip s).

(** [s.split()]: the maximal runs of non-space code points; [cur] holds the
    run being read, last code point first. *)
Fixpoint split_from (cur s : pystr) : list pystr :=
  match s with
  | [] => match cur with [] => [] | _ => [rev cur] end
  | c :: t =>
      if is_space c
      then match cur with
           | [] => split_from [] t
           | _ => rev cur :: split_from [] t
           end
      else split_from (c :: cur) t
  end.

Definition split (s : pystr) : list pystr := split_from [] s.

Fixpoint startswith (p s : pystr) : bool :=
  match p, s with
  | [], _ => true
  | _ :: _, [] => false
  | a :: p', b :: s' => (a =? b)%N && startswith p' s'
  end.

(** [needle in hay] *)
Fixpoint contains (needle hay : pystr) : bool :=
  startswith needle hay
  || match hay with
     | [] => false
     | _ :: t => contains needle t
     end.

(** A literal made of ASCII characters only. *)
Fixpoint lit (s : string) : pystr :=
  match s with
  | String.EmptyString => []
  | String.String a t => Ascii.N_of_ascii a :: lit t
  end.
Arguments lit s%_string.

End PyStr.
Import PyStr.

(** ** [create_employee_band_order] *)

(** The three code points that stand between the two numbers of a band in
    the source literals: U+00E2, U+20AC, U+201C. *)
Definition band_dash : pystr := [226; 8364; 8220]%N.

Definition band_1_5 : pystr := lit "1" ++ band_dash ++ lit "5 Employees".
Definition band_6_19 : pystr := lit "6" ++ band_dash ++ lit "19 Employees".
Definition band_20_49 : pystr := lit "20" ++ band_dash ++ lit "49 Employees".

Definition create_employee_band_order : list pystr :=
  [band_1_5; band_6_19; band_20_49].

(** ** The band classifier (lines 97-107 and 290-300) *)

(** The inner loop over [band_order]: [None] is the [IndexError] of
    [standard_band.split()[0]] on a band without any token;
    [Some None] is a loop that ends without a [break]. *)
Fixpoint first_matching_band (band_order : list pystr) (unique_band : pystr)
  : option (option pystr) :=
  match band_order with
  | [] => Some None
  | standard_band :: rest =>
      token ← split standard_band !! 0%nat;
      if contains token unique_band
      then Some (Some standard_band)
      else first_matching_band rest unique_band
  end.

(** [Series.unique()]: the distinct values in order of first appearance. *)
Fixpoint unique_from (seen l : list pystr) : list pystr :=
  match l with
  | [] => []
  | x :: t =>
      if bool_decide (x ∈ seen) then unique_from seen t
      else x :: unique_from (x :: seen) t
  end.

Definition unique (l : list pystr) : list pystr := unique_from [] l.

(** The outer loop, which fills the dictionary [band_mapping]. *)
Fixpoint build_band_mapping (band_order unique_bands : list pystr)
    (band_mapping : gmap pystr pystr) : option (gmap pystr pystr) :=
  match unique_bands with
  | [] => Some band_mapping
  | unique_band :: rest =>
      found ← first_matching_band band_order unique_band;
      let band_mapping :=
        match found with
        | Some standard_band => <[unique_band := standard_band]> band_mapping
        | None => band_mapping
        end in
      let band_mapping :=
        if bool_decide (is_Some (band_mapping !! unique_band)) then band_mapping
        else <[unique_band := unique_band]> band_mapping in
      build_band_mapping band_order rest band_mapping
  end.

(** ** The company table *)

(** One row of a DataFrame.  The first six columns are the ones that
    [load_company_data] requires; the two band columns are added by
    [apply_filters] and by [create_bubble_chart], and are [None] in a frame
    that does not carry them. *)
Record Row := {
  Entity_Legal_Name : pystr;
  Entity_Type : pystr;
  Headquarters_Location : pystr;
  Estimated_Employee_Band : pystr;
  Estimated_Employee_Band_Code : pystr;
  Primary_ANZSIC_Code : pystr;
  Employee_Band_Clean : option pystr;
  Employee_Band_Standard : option pystr
}.

Abbreviation DataFrame := (list Row).

Definition set_Employee_Band_Clean (v : option pystr) (r : Row) : Row :=
  {| Entity_Legal_Name := Entity_Legal_Name r;
     Entity_Type := Entity_Type r;
     Headquarters_Location := Headquarters_Location r;
     Estimated_Employee_Band := Estimated_Employee_Band r;
     Estimated_Employee_Band_Code := Estimated_Employee_Band_Code r;
     Primary_ANZSIC_Code := Primary_ANZSIC_Code r;
     Employee_Band_Clean := v;
     Employee_Band_Standard := Employee_Band_Standard r |}.

Definition set_Employee_Band_Standard (v : option pystr) (r : Row) : Row :=
  {| Entity_Legal_Name := Entity_Legal_Name r;
     Entity_Type := Entity_Type r;
     Headquarters_Location := Headquarters_Location r;
     Estimated_Employee_Band := Estimated_Employee_Band r;
     Estimated_Employee_Band_Code := Estimated_Employee_Band_Code r;
     Primary_ANZSIC_Code := Primary_ANZSIC_Code r;
     Employee_Band_Clean := Employee_Band_Clean r;
     Employee_Band_Standard := v |}.

(** The six source columns of a row. *)
Definition source_columns (r : Row) : list pystr :=
  [ Entity_Legal_Name r; Entity_Type r; Headquarters_Location r;
    Estimated_Employee_Band r; Estimated_Employee_Band_Code r;
    Primary_ANZSIC_Code r ].

(** [df['Employee_Band_Clean'] = df['Estimated_Employee_Band'].str.strip()] *)
Definition assign_Employee_Band_Clean (df : DataFrame) : DataFrame :=
  map (fun r => set_Employee_Band_Clean (Some (strip (Estimated_Employee_Band r))) r) df.

(** [df['Employee_Band_Standard'] = df['Employee_Band_Clean'].map(band_mapping)];
    a label that is not a key of the dictionary maps to a missing value. *)
Definition assign_Employee_Band_Standard (band_mapping : gmap pystr pystr)
    (df : DataFrame) : DataFrame :=
  map (fun r => set_Employee_Band_Standard
                  (c ← Employee_Band_Clean r; band_mapping !! c) r) df.

(** Lines 95-107 and 288-300, the same text in both functions: the two band
    columns are written into the frame.  [None] is an exception raised on
    the way. *)
Definition assign_band_columns (band_order : list pystr) (df : DataFrame)
  : option DataFrame :=
  let df := assign_Employee_Band_Clean df in
  let unique_bands := unique (omap Employee_Band_Clean df) in
  band_mapping ← build_band_mapping band_order unique_bands ∅;
  Some (assign_Employee_Band_Standard band_mapping df).

(** ** [apply_filters] *)

(** [Series.isin(values)] on one cell. *)
Definition isin (v : option pystr) (values : list pystr) : bool :=
  match v with
  | Some s => bool_decide (s ∈ values)
  | None => false
  end.

(** Truth value of a Python list. *)
Definition truthy {A} (l : list A) : bool :=
  match l with [] => false | _ => true end.

(** DataFrames are objects: the store maps the address of a frame to its
    rows.  [df.copy()] and boolean indexing [df[mask]] build a new frame,
    a column assignment writes into an existing one. *)
Abbreviation Store := (gmap nat DataFrame).

Definition new_frame (rows : DataFrame) (σ : Store) : nat * Store :=
  let l := fresh (dom σ) in (l, <[l := rows]> σ).

Definition copy (df : nat) (σ : Store) : option (nat * Store) :=
  rows ← σ !! df; Some (new_frame rows σ).

Definition boolean_index (mask : Row -> bool) (df : nat) (σ : Store)
  : option (nat * Store) :=
  rows ← σ !! df; Some (new_frame (List.filter mask rows) σ).

Definition update_frame (f : DataFrame -> option DataFrame) (df : nat)
    (σ : Store) : option Store :=
  rows ← σ !! df; rows' ← f rows; Some (<[df := rows']> σ).

Definition apply_filters (df : nat)
    (locations employee_bands anzsic_codes : list pystr) (σ : Store)
  : option (nat * Store) :=
  '(filtered_df, σ) ← copy df σ;
  let band_order := create_employee_band_order in
  σ ← update_frame (assign_band_columns band_order) filtered_df σ;
  '(filtered_df, σ) ←
    (if truthy locations
     then boolean_index
            (fun r => isin (Some (Headquarters_Location r)) locations)
            filtered_df σ
     else Some (filtered_df, σ));
  '(filtered_df, σ) ←
    (if truthy employee_bands
     then boolean_index
            (fun r => isin (Employee_Band_Standard r) employee_bands)
            filtered_df σ
     else Some (filtered_df, σ));
  '(filtered_df, σ) ←
    (if truthy anzsic_codes
     then boolean_index
            (fun r => isin (Some (Primary_ANZSIC_Code r)) anzsic_codes)
            filtered_df σ
     else Some (filtered_df, σ));
  Some (filtered_df, σ).

(** The rows of the frame that [apply_filters] returns, as a function of the
    rows of its argument (proved equal to it in [apply_filters_rows_spec]). *)
Definition keep_if (selection : list pystr) (column : Row -> option pystr)
    (df : DataFrame) : DataFrame :=
  if truthy selection
  then List.filter (fun r => isin (column r) selection) df
  else df.

Definition filtered_rows (locations employee_bands anzsic_codes : list pystr)
    (df : DataFrame) : option DataFrame :=
  banded ← assign_band_columns create_employee_band_order df;
  Some (keep_if anzsic_codes (fun r => Some (Primary_ANZSIC_Code r))
          (keep_if employee_bands Employee_Band_Standard
             (keep_if locations (fun r => Some (Headquarters_Location r))
                banded))).

(** ** The partition in [main] (lines 393-399) *)

(** [st.session_state]: the only key the program uses is
    ['shortlisted_companies'], absent until first written. *)
Abbreviation Session := (option (gset pystr)).

Definition init_session (s : Session) : gset pystr :=
  match s with
  | Some shortlisted => shortlisted
  | None => ∅
  end.

Definition in_shortlist (shortlisted : gset pystr) (r : Row) : bool :=
  bool_decide (Entity_Legal_Name r ∈ shortlisted).

Definition shortlist_df (filtered_df : DataFrame) (s : Session) : DataFrame :=
  List.filter (in_shortlist (init_session s)) filtered_df.

Definition all_companies_df (filtered_df : DataFrame) (s : Session)
  : DataFrame :=
  List.filter (fun r => negb (in_shortlist (init_session s) r)) filtered_df.

(** ** [np.random] *)

(** The legacy global generator of numpy: [seed] is [np.random.seed],
    [random_sample] draws one number of the half-open unit interval and
    steps the state. *)
Class RandomState := {
  rng : Type;
  seed : Z -> rng;
  random_sample : rng -> R * rng
}.

(** What numpy documents of [random_sample]: the draw lies in [0, 1). *)
Class UnitInterval (G : RandomState) : Prop :=
  random_sample_range : forall g : rng, (0 <= (random_sample g).1 < 1)%R.

(** A quotient of two integers. *)
Definition rational (x : R) : Prop :=
  exists p q : Z, q <> 0%Z /\ x = (IZR p / IZR q)%R.

(** The draw is a [float], and a float is a rational number. *)
Class RationalDraws (G : RandomState) : Prop :=
  random_sample_rational : forall g : rng, rational (random_sample g).1.

Section Numpy.
Context {G : RandomState}.
Local Open Scope R_scope.

(** [np.random.uniform(low, high)]: [low + (high - low) * random_sample()] *)
Definition uniform (low high : R) (g : rng) : R * rng :=
  let (u, g) := random_sample g in (low + (high - low) * u, g).

(** [np.random.uniform(low, high, size)] *)
Fixpoint uniform_array (low high : R) (size : nat) (g : rng)
  : list R * rng :=
  match size with
  | O => ([], g)
  | S size =>
      let (v, g) := uniform low high g in
      let (vs, g) := uniform_array low high size g in
      (v :: vs, g)
  end.
End Numpy.

(** ** The jitter layout of [create_bubble_chart] (lines 116-159) *)

(** A row of [df_plot] while the jitter loop runs.  The two hover-only
    columns [Industry_Description] and [Entity_Type_Clean] are left out: no
    later line of the function reads them. *)
Record LayoutRow := {
  row : Row;
  count : option nat;
  x_jitter : R;
  y_jitter : R
}.

(** A row of [df_plot] as it is handed to [px.scatter]. *)
Record PlotRow := {
  layout_row : LayoutRow;
  x_numeric : option nat;
  x_position : option R
}.

Definition band_mask (band : pystr) (r : LayoutRow) : bool :=
  bool_decide (Employee_Band_Standard (row r) = Some band).

(** [groupby('Employee_Band_Standard').size()] merged back on the band:
    the number of rows of the same band; rows without a band get none.  The
    merge leaves the rows in their order and numbers them [0 .. n-1]. *)
Definition band_count (df : DataFrame) (r : Row) : option nat :=
  match Employee_Band_Standard r with
  | Some band =>
      Some (length (List.filter
                      (fun r' => bool_decide (Employee_Band_Standard r' = Some band))
                      df))
  | None => None
  end.

Definition init_layout (df : DataFrame) : list LayoutRow :=
  map (fun r => {| row := r; count := band_count df r;
                   x_jitter := 0; y_jitter := 0 |}) df.

Definition set_jitter (j : R * R) (r : LayoutRow) : LayoutRow :=
  {| row := row r; count := count r; x_jitter := j.1; y_jitter := j.2 |}.

(** [df_plot.loc[band_indices, 'x_jitter'] = x_jitter] and the same for
    [y_jitter]: the rows of the band take the values in row order.  The lists
    have one value per row of the band, so the second case is never met. *)
Fixpoint assign_jitter (band : pystr) (jitter : list (R * R))
    (df_plot : list LayoutRow) : list LayoutRow :=
  match df_plot with
  | [] => []
  | r :: rest =>
      if band_mask band r
      then match jitter with
           | j :: jitter => set_jitter j r :: assign_jitter band jitter rest
           | [] => r :: assign_jitter band [] rest
           end
      else r :: assign_jitter band jitter rest
  end.

Definition jitter_strength_x : R := 0.45.
Definition jitter_strength_y : R := 2.5.

(** [{band: idx for idx, band in enumerate(band_order)}] *)
Definition band_to_numeric (band_order : list pystr) : gmap pystr nat :=
  foldl (fun m (p : nat * pystr) => <[p.2 := p.1]> m) ∅
        (imap (fun idx band => (idx, band)) band_order).

(** Lines 158-159: [x_numeric] is the rank of the band, missing for a label
    that is not a key of [band_to_numeric]; the sum with a missing value is
    missing. *)
Definition position (ranks : gmap pystr nat) (r : LayoutRow) : PlotRow :=
  let x_numeric := band ← Employee_Band_Standard (row r); ranks !! band in
  {| layout_row := r;
     x_numeric := x_numeric;
     x_position := (fun k => (INR k + x_jitter r)%R) <$> x_numeric |}.

Section Layout.
Context {G : RandomState}.
Local Open Scope R_scope.

(** The inner loop, lines 144-152, at index [i] with the radii that are
    left to use. *)
Fixpoint jitter_points (angle_step : R) (i : nat) (radius_variation : list R)
    (g : rng) : list (R * R) * rng :=
  match radius_variation with
  | [] => ([], g)
  | radius :: radius_variation =>
      let (perturbation, g) := uniform (-0.3) 0.3 g in
      let angle := INR i * angle_step + perturbation in
      let x_offset := radius * cos angle * jitter_strength_x in
      let y_offset := radius * sin angle * jitter_strength_y in
      let (rest, g) := jitter_points angle_step (S i) radius_variation g in
      ((x_offset, y_offset) :: rest, g)
  end.

(** Lines 135-152 for a band of [n_companies] rows, [n_companies > 0]. *)
Definition band_jitter (n_companies : nat) (g : rng) : list (R * R) * rng :=
  if (n_companies =? 1)%nat then ([(0, 0)], g)
  else
    let angle_step := 2 * PI / INR n_companies in
    let (radius_variation, g) := uniform_array 0.3 1.0 n_companies g in
    jitter_points angle_step 0 radius_variation g.

(** The loop over [band_order], lines 124-155. *)
Fixpoint jitter_bands (band_order : list pystr) (df_plot : list LayoutRow)
    (g : rng) : list LayoutRow * rng :=
  match band_order with
  | [] => (df_plot, g)
  | band :: band_order =>
      let n_companies := length (List.filter (band_mask band) df_plot) in
      if (n_companies =? 0)%nat then jitter_bands band_order df_plot g
      else
        let (jitter, g) := band_jitter n_companies g in
        jitter_bands band_order (assign_jitter band jitter df_plot) g
  end.

(** Lines 116-159: the frame handed to [px.scatter], from the frame with
    its band columns; the generator is reseeded first. *)
Definition layout (band_order : list pystr) (df : DataFrame)
  : list PlotRow * rng :=
  let g := seed 42 in
  let (df_plot, g) := jitter_bands band_order (init_layout df) g in
  (map (position (band_to_numeric band_order)) df_plot, g).
End Layout.

(** ** The click handler of [create_bubble_chart] (lines 245-268) *)

(** What [st.plotly_chart] returns, as far as the handler reads it: either
    nothing that passes the guards of line 248, or the [point_index] of each
    selected point. *)
Inductive Event :=
| NoSelection
| Selection (point_indexes : list Z).

(** [df.iloc[i]]: a negative index counts from the end; [None] is the
    [IndexError] of an index out of bounds. *)
Definition iloc {A} (df : list A) (i : Z) : option A :=
  let n := Z.of_nat (length df) in
  if (0 <=? i)%Z then df !! Z.to_nat i
  else if (- n <=? i)%Z then df !! Z.to_nat (n + i)
  else None.

(** How a call of [create_bubble_chart] ends: it returns, it asks Streamlit
    for a rerun, or an exception leaves it. *)
Inductive Outcome :=
| Returned
| Rerun
| Raised.

Definition handle_click (df_plot : list PlotRow) (is_rejected : bool)
    (event : Event) (s : Session) : Outcome * Session :=
  match event with
  | Selection (clicked_idx :: _) =>
      match iloc df_plot clicked_idx with
      | None => (Raised, s)
      | Some r =>
          let clicked_company := Entity_Legal_Name (row (layout_row r)) in
          let shortlisted := init_session s in
          if is_rejected
          then (Rerun, Some (shortlisted ∪ {[clicked_company]}))
          else if bool_decide (clicked_company ∈ shortlisted)
               then (Rerun, Some (shortlisted ∖ {[clicked_company]}))
               else (Rerun, Some shortlisted)
      end
  | _ => (Returned, s)
  end.

(** ** [create_bubble_chart] *)

(** The two pieces of global state the function touches. *)
Record World {G : RandomState} := {
  generator : rng;
  session : Session
}.

Record Chart {G : RandomState} := {
  df_plot : list PlotRow;
  outcome : Outcome;
  world : World
}.

Section Chart.
Context {G : RandomState}.

(** [df_plot] of the result is the frame that was plotted, empty when the
    function returned before plotting. *)
Definition create_bubble_chart (df : DataFrame) (is_rejected : bool)
    (event : Event) (w : World) : Chart :=
  match df with
  | [] => {| df_plot := []; outcome := Returned; world := w |}
  | _ =>
      let band_order := create_employee_band_order in
      match assign_band_columns band_order df with
      | None => {| df_plot := []; outcome := Raised; world := w |}
      | Some banded =>
          let (df_plot, g) := layout band_order banded in
          let (o, s) := handle_click df_plot is_rejected event (session w) in
          {| df_plot := df_plot; outcome := o;
             world := {| generator := g; session := s |} |}
      end
  end.

(** The end of [main], lines 393-409: the session key is created, the
    filtered frame is split, and the two charts are drawn one after the
    other; a rerun or an exception in the first ends the script. *)
Definition draw_charts (filtered_df : DataFrame)
    (shortlist_event all_companies_event : Event) (w : World)
  : Chart * option Chart :=
  let w := {| generator := generator w;
              session := Some (init_session (session w)) |} in
  let shortlist := shortlist_df filtered_df (session w) in
  let all_companies := all_companies_df filtered_df (session w) in
  let c1 := create_bubble_chart shortlist false shortlist_event w in
  match outcome c1 with
  | Returned =>
      (c1, Some (create_bubble_chart all_companies true all_companies_event
                   (world c1)))
  | _ => (c1, None)
  end.
End Chart.

(** ** The axes of the chart (lines 220-231) *)

(** [tickvals=[band_to_numeric[band] for band in band_order]]; [None] is the
    [KeyError] of a band that is not a key. *)
Definition tickvals (band_order : list pystr) : option (list nat) :=
  mapM (fun band => band_to_numeric band_order !! band) band_order.

(** [range=[-0.5, len(band_order) - 0.5]] *)
Definition xaxis_range (band_order : list pystr) : R * R :=
  (-0.5, INR (length band_order) - 0.5)%R.

(** [range=[-3.5, 3.5]] *)
Definition yaxis_range : R * R := (-3.5, 3.5)%R.

(** ** The hover columns of [create_bubble_chart] (lines 109-114) *)

(** [(.*?)\)] read at [s]: the shortest run of code points other than the
    new line that a closing parenthesis follows. *)
Fixpoint lazy_until_close (s : pystr) : option pystr :=
  match s with
  | [] => None
  | c :: t =>
      if (c =? 41)%N then Some []
      else if (c =? 10)%N then None
      else (fun d => c :: d) <$> lazy_until_close t
  end.

(** [str.extract(r'\((.*?)\)')[0]] on one cell: the group of the leftmost
    match, [None] (a missing value) when the pattern matches nowhere. *)
Fixpoint extract_parenthetical (s : pystr) : option pystr :=
  match s with
  | [] => None
  | c :: t =>
      if (c =? 40)%N
      then match lazy_until_close t with
           | Some d => Some d
           | None => extract_parenthetical t
           end
      else extract_parenthetical t
  end.

(** Lines 110-111: the extracted description, and the code itself where
    nothing was extracted ([fillna]). *)
Definition Industry_Description (Primary_ANZSIC_Code : pystr) : pystr :=
  default Primary_ANZSIC_Code (extract_parenthetical Primary_ANZSIC_Code).

Section EntityType.
(** The decimal digits of Unicode beyond ASCII, which [\d] matches as well:
    a table of Python, not of the program. *)
Context (unicode_decimal : N -> bool).

Definition is_decimal (c : N) : bool :=
  ((48 <=? c) && (c <=? 57) || (128 <=? c) && unicode_decimal c)%N.

(** [\d+\]] read at [s], [seen] telling whether a digit was read: what
    follows the match. *)
Fixpoint digits_close (seen : bool) (s : pystr) : option pystr :=
  match s with
  | [] => None
  | c :: t =>
      if is_decimal c then digits_close true t
      else if seen && (c =? 93)%N then Some t
      else None
  end.

(** [\s*\[\d+\]] read at [s]: what follows the match. *)
Fixpoint bracket_tag (s : pystr) : option pystr :=
  match s with
  | [] => None
  | c :: t =>
      if is_space c then bracket_tag t
      else if (c =? 91)%N then digits_close false t
      else None
  end.

(** [re.sub] with the empty replacement: the text is read from the left; a
    match is dropped and reading goes on behind it, a code point at which the
    pattern does not match is kept.  [skip] counts the code points of a match
    that are still to be dropped. *)
Fixpoint remove_tags (skip : nat) (s : pystr) : pystr :=
  match s with
  | [] => []
  | c :: t =>
      match skip with
      | S skip => remove_tags skip t
      | O =>
          match bracket_tag s with
          | Some rest => remove_tags (length t - length rest) t
          | None => c :: remove_tags 0 t
          end
      end
  end.

(** Line 114: [str.replace(r'\s*\[\d+\]', '', regex=True)] on one cell. *)
Definition Entity_Type_Clean (Entity_Type : pystr) : pystr :=
  remove_tags 0 Entity_Type.
End EntityType.

(** ** [load_company_data] *)

(** A column as [pd.read_csv] infers it: of strings and missing values, or
    of numbers.  [None] is a missing value. *)
Inductive Column :=
| Texts (cells : list (option pystr))
| Numbers (cells : list (option R)).

(** The frame read from the file: its columns in order, each with its name;
    [read_csv] never gives two columns one name. *)
Abbreviation CsvFrame := (list (pystr * Column)).

(** How [pd.read_csv] ends. *)
Inductive ReadCsv :=
| FileNotFoundError
| EmptyDataError
| OtherException
| Parsed (df : CsvFrame).

(** The four messages of [st.error]; [load_company_data] returns [None]
    after each. *)
Inductive LoadError :=
| FileNotFound
| EmptyFile
| MissingColumns (missing_columns : list pystr)
| ErrorLoadingData.

Definition required_columns : list pystr :=
  [ lit "Entity_Legal_Name"; lit "Entity_Type"; lit "Headquarters_Location";
    lit "Estimated_Employee_Band"; lit "Estimated_Employee_Band_Code";
    lit "Primary_ANZSIC_Code" ].

(** The columns that lines 42-44 strip. *)
Definition stripped_columns : list pystr :=
  [ lit "Estimated_Employee_Band"; lit "Entity_Type";
    lit "Headquarters_Location" ].

(** [df.columns] *)
Definition columns (df : CsvFrame) : list pystr := map fst df.

(** [df[name]]; [None] is the [KeyError] of a name that is no column. *)
Fixpoint get_column (name : pystr) (df : CsvFrame) : option Column :=
  match df with
  | [] => None
  | (n, c) :: rest =>
      if bool_decide (n = name) then Some c else get_column name rest
  end.

(** [df[name] = column] for a name that is a column: the column is replaced
    where it stands. *)
Fixpoint set_column (name : pystr) (column : Column) (df : CsvFrame)
  : CsvFrame :=
  match df with
  | [] => []
  | (n, c) :: rest =>
      if bool_decide (n = name) then (n, column) :: rest
      else (n, c) :: set_column name column rest
  end.

(** [series.str.strip()]: the strings are stripped and the missing values
    stay; [None] is the [AttributeError] of the [.str] accessor on a column
    that is not of strings. *)
Definition str_strip (c : Column) : option Column :=
  match c with
  | Texts cells => Some (Texts (map (fmap strip) cells))
  | Numbers _ => None
  end.

(** [df[name] = df[name].str.strip()] *)
Definition strip_column (name : pystr) (df : CsvFrame) : option CsvFrame :=
  c ← get_column name df;
  c' ← str_strip c;
  Some (set_column name c' df).

(** [read] is what [pd.read_csv(file_path)] did.  Every exception is caught
    and reported: the result is the frame or the error shown. *)
Definition load_company_data (read : ReadCsv) : LoadError + CsvFrame :=
  match read with
  | FileNotFoundError => inl FileNotFound
  | EmptyDataError => inl EmptyFile
  | OtherException => inl ErrorLoadingData
  | Parsed df =>
      let missing_columns :=
        List.filter (fun col => negb (bool_decide (col ∈ columns df)))
                    required_columns in
      if truthy missing_columns then inl (MissingColumns missing_columns)
      else
        match
          df ← strip_column (lit "Estimated_Employee_Band") df;
          df ← strip_column (lit "Entity_Type") df;
          strip_column (lit "Headquarters_Location") df
        with
        | Some df => inr df
        | None => inl ErrorLoadingData
        end
  end.

(** ** [main] *)

(** What the widgets of the sidebar and the two charts return in one run of
    the script. *)
Record Inputs := {
  selected_locations : list pystr;
  selected_employee_bands : list pystr;
  selected_anzsic_codes : list pystr;
  clear_filters : bool;
  clear_shortlist : bool;
  shortlist_event : Event;
  all_companies_event : Event
}.

(** One run of the script: the store and the world it leaves, how it ends,
    and the two charts when the run reaches them. *)
Record Run {G : RandomState} := {
  run_store : Store;
  run_charts : option (Chart * option Chart);
  run_outcome : Outcome;
  run_world : World
}.

Section Main.
Context {G : RandomState}.

(** [main] from line 350 on, [df] being the frame that [load_company_data]
    returned.  [None] is an exception on the way to the charts. *)
Definition main (df : nat) (inputs : Inputs) (σ : Store) (w : World)
  : option Run :=
  if clear_filters inputs
  then Some {| run_store := σ; run_charts := None; run_outcome := Rerun;
               run_world := w |}
  else if clear_shortlist inputs
  then Some {| run_store := σ; run_charts := None; run_outcome := Rerun;
               run_world := {| generator := generator w;
                               session := Some ∅ |} |}
  else
    '(filtered_df, σ) ← apply_filters df (selected_locations inputs)
                          (selected_employee_bands inputs)
                          (selected_anzsic_codes inputs) σ;
    rows ← σ !! filtered_df;
    let charts := draw_charts rows (shortlist_event inputs)
                    (all_companies_event inputs) w in
    let last := match charts.2 with
                | Some pool_chart => pool_chart
                | None => charts.1
                end in
    Some {| run_store := σ; run_charts := Some charts;
            run_outcome := outcome last; run_world := world last |}.
End Main.

(** * Vocabulary of the properties *)

(** ** Strings and the classifier *)

(** [t] occurs in [s] as a contiguous run of code points. *)
Definition substring (t s : pystr) : Prop :=
  exists pre post : pystr, s = pre ++ t ++ post.

(** A token: not empty, and free of white space. *)
Definition spaceless (t : pystr) : Prop :=
  t <> [] /\ Forall (fun c => is_space c = false) t.

(** [token] is [band.split()[0]]. *)
Definition leading_token (band token : pystr) : Prop :=
  split band !! 0%nat = Some token.

(** A band order on which [split()[0]] never fails and gives tokens free of
    white space; the three bands of the program are checked by evaluation in
    [tokenised_create_employee_band_order]. *)
Definition tokenised (band_order : list pystr) : Prop :=
  Forall (fun band => exists token, leading_token band token /\ spaceless token)
         band_order.

(** The contract of the classifier in the words of its description: the
    first band, in order, whose leading token occurs in the raw label, and
    the trimmed raw label when there is none. *)
Inductive classifies (band_order : list pystr) (raw : pystr) : pystr -> Prop :=
| classifies_first_match (k : nat) (band token : pystr) :
    band_order !! k = Some band ->
    leading_token band token ->
    substring token raw ->
    (forall (k' : nat) (band' token' : pystr),
        (k' < k)%nat -> band_order !! k' = Some band' ->
        leading_token band' token' -> ~ substring token' raw) ->
    classifies band_order raw band
| classifies_pass_through :
    (forall band token : pystr,
        band ∈ band_order -> leading_token band token ->
        ~ substring token raw) ->
    classifies band_order raw (strip raw).

(** The value the dictionary [band_mapping] holds for a trimmed label. *)
Definition standard_of (band_order : list pystr) (unique_band : pystr) : pystr :=
  match first_matching_band band_order unique_band with
  | Some (Some standard_band) => standard_band
  | _ => unique_band
  end.

(** A row with its two band columns written. *)
Definition banded (band_order : list pystr) (r : Row) : Row :=
  let clean := strip (Estimated_Employee_Band r) in
  set_Employee_Band_Standard (Some (standard_of band_order clean))
    (set_Employee_Band_Clean (Some clean) r).

(** The band that the classifier gives a row. *)
Definition standard_band (r : Row) : pystr :=
  standard_of create_employee_band_order (strip (Estimated_Employee_Band r)).

(** The leading numeral of a band, in the words of the description of the
    classifier: the decimal digits the band starts with, ["20"] for the third
    band of the program. *)
Fixpoint leading_numeral (band : pystr) : pystr :=
  match band with
  | c :: t =>
      if ((48 <=? c) && (c <=? 57))%N then c :: leading_numeral t else []
  | [] => []
  end.

(** ** Bands of a frame *)

(** The number of rows of [band] in the jittered frame, and before its row
    [i]. *)
Definition count_band (band : pystr) (df_plot : list LayoutRow) : nat :=
  length (List.filter (band_mask band) df_plot).

Definition rank_in_band (band : pystr) (df_plot : list LayoutRow) (i : nat)
  : nat :=
  length (List.filter (band_mask band) (take i df_plot)).

(** The jittered frame at the start of the loop, for the frame [df] the
    chart is called with. *)
Definition start_layout (df : DataFrame) : list LayoutRow :=
  init_layout (map (banded create_employee_band_order) df).

(** The number of rows of [df] that the classifier puts in [band], and the
    number of those before row [i]. *)
Definition band_size (band : pystr) (df : DataFrame) : nat :=
  length (List.filter (fun r => bool_decide (standard_band r = band)) df).

Definition band_rank (band : pystr) (df : DataFrame) (i : nat) : nat :=
  band_size band (take i df).

(** The marker of a plotted row: [px.scatter] is called with
    [x='x_position'] and [y='y_jitter']. *)
Definition marker (p : PlotRow) : option R * R :=
  (x_position p, y_jitter (layout_row p)).

(** ** Example data *)

(** A row as [load_company_data] returns it, without band columns. *)
Definition company (name band : pystr) : Row :=
  {| Entity_Legal_Name := name;
     Entity_Type := lit "NZ Limited Company";
     Headquarters_Location := lit "Auckland";
     Estimated_Employee_Band := band;
     Estimated_Employee_Band_Code := lit "B";
     Primary_ANZSIC_Code := lit "K6411 (Financial Services)";
     Employee_Band_Clean := None;
     Employee_Band_Standard := None |}.

Definition acme : Row := company (lit "Acme") band_1_5.
Definition birch : Row := company (lit "Birch") band_6_19.
Definition cedar : Row := company (lit "Cedar") band_6_19.
Definition dune : Row := company (lit "Dune") (lit "50+ Employees").
Definition elm : Row := company (lit "Elm") (lit "50+ Employees").

(** A generator for the examples: the state counts the draws since the
    seed, and every draw is one half. *)
Definition halves : RandomState :=
  {| rng := nat;
     seed := fun s => Z.to_nat s;
     random_sample := fun g => ((1 / 2)%R, S g) |}.

(** A world in which no company was shortlisted yet. *)
Definition no_session : World (G := halves) :=
  @Build_World halves (seed 0) None.

(** A world in which Acme is the one company of the shortlist. *)
Definition acme_shortlisted : World (G := halves) :=
  @Build_World halves (seed 0) (Some {[lit "Acme"]}).

(** ** Further vocabulary *)

(** A string that neither starts nor ends with white space. *)
Definition trimmed (s : pystr) : Prop :=
  (forall c t, s = c :: t -> is_space c = false)
  /\ (forall c t, s = t ++ [c] -> is_space c = false).

(** The cells of a column of strings are all trimmed. *)
Definition trimmed_column (c : Column) : Prop :=
  match c with
  | Texts cells => Forall (fun cell => forall s, cell = Some s -> trimmed s) cells
  | Numbers _ => False
  end.

(** The number of cells of a column. *)
Definition column_length (c : Column) : nat :=
  match c with
  | Texts cells => length cells
  | Numbers cells => length cells
  end.

(** A row passes the three selections of [apply_filters]: in each dimension
    the selection is empty or holds the value of the row. *)
Definition passes (locations employee_bands anzsic_codes : list pystr)
    (r : Row) : bool :=
  (negb (truthy locations) || isin (Some (Headquarters_Location r)) locations)
  && (negb (truthy employee_bands)
      || isin (Employee_Band_Standard r) employee_bands)
  && (negb (truthy anzsic_codes)
      || isin (Some (Primary_ANZSIC_Code r)) anzsic_codes).

(** Example frames as [pd.read_csv] gives them. *)
Definition csv_text_column (name : string) (cells : list string)
  : pystr * Column :=
  (lit name, Texts (map (fun s => Some (lit s)) cells)).
Arguments csv_text_column name%_string cells%_list.

Definition csv_example : CsvFrame :=
  [ csv_text_column "Entity_Legal_Name" ["Acme "%string; "Birch"%string];
    csv_text_column "Entity_Type" [" Company [1]"%string; "Trust"%string];
    csv_text_column "Headquarters_Location"
      ["Auckland  "%string; " Wellington"%string];
    csv_text_column "Estimated_Employee_Band"
      [" 1-5 Employees "%string; "6-19 Employees"%string];
    (lit "Estimated_Employee_Band_Code", Numbers [Some 1%R; Some 2%R]);
    csv_text_column "Primary_ANZSIC_Code"
      ["K6411 (Financial Services)"%string; "M6962"%string] ].

(** The example frame without its column of locations. *)
Definition csv_without_location : CsvFrame :=
  List.filter
    (fun col => negb (bool_decide (col.1 = lit "Headquarters_Location")))
    csv_example.

(** The example frame as [load_company_data] returns it. *)
Definition csv_loaded : CsvFrame :=
  [ csv_text_column "Entity_Legal_Name" ["Acme "%string; "Birch"%string];
    csv_text_column "Entity_Type" ["Company [1]"%string; "Trust"%string];
    csv_text_column "Headquarters_Location"
      ["Auckland"%string; "Wellington"%string];
    csv_text_column "Estimated_Employee_Band"
      ["1-5 Employees"%string; "6-19 Employees"%string];
    (lit "Estimated_Employee_Band_Code", Numbers [Some 1%R; Some 2%R]);
    csv_text_column "Primary_ANZSIC_Code"
      ["K6411 (Financial Services)"%string; "M6962"%string] ].

(** A plotted row that has a place on the x axis: its band is a band of the
    band order and one of [bands], and its rank and x position are not
    missing. *)
Definition positioned (bands : list pystr) (p : PlotRow) : Prop :=
  exists (k : nat) (band : pystr),
    create_employee_band_order !! k = Some band
    /\ band ∈ bands
    /\ Employee_Band_Standard (row (layout_row p)) = Some band
    /\ x_numeric p = Some k
    /\ x_position p = Some (INR k + x_jitter (layout_row p))%R.

(** Inputs of a run in which no button is pressed and no bubble is clicked. *)
Definition quiet_inputs (locations employee_bands anzsic_codes : list pystr)
  : Inputs :=
  {| selected_locations := locations;
     selected_employee_bands := employee_bands;
     selected_anzsic_codes := anzsic_codes;
     clear_filters := false;
     clear_shortlist := false;
     shortlist_event := NoSelection;
     all_companies_event := NoSelection |}.

(** Inputs of a run in which the bubble of index [idx] of the chart of all
    companies is clicked. *)
Definition pool_click (locations employee_bands anzsic_codes : list pystr)
    (idx : Z) : Inputs :=
  {| selected_locations := locations;
     selected_employee_bands := employee_bands;
     selected_anzsic_codes := anzsic_codes;
     clear_filters := false;
     clear_shortlist := false;
     shortlist_event := NoSelection;
     all_companies_event := Selection [idx] |}.

(** Two rows of the jittered frame of the same band and the same jitter. *)
Definition same_place (l l' : LayoutRow) : Prop :=
  Employee_Band_Standard (row l) = Employee_Band_Standard (row l')
  /\ x_jitter l = x_jitter l'
  /\ y_jitter l = y_jitter l'.

(** Two companies of other names in the bands of [acme] and [birch]. *)
Definition fern : Row := company (lit "Fern") band_1_5.
Definition gorse : Row := company (lit "Gorse") (lit "about 6" ++ band_dash ++ lit "19").

(** ** Polynomials with integer coefficients *)

(** The vocabulary of the proof that [PI] is irrational, on which the
    markers of a large band rest. *)

(** A polynomial is the list of its coefficients, the constant first. *)
Fixpoint peval (p : list Z) (x : R) : R :=
  match p with
  | [] => 0
  | c :: p => IZR c + x * peval p x
  end.

Fixpoint padd (p q : list Z) : list Z :=
  match p, q with
  | [], _ => q
  | _, [] => p
  | c :: p, d :: q => (c + d)%Z :: padd p q
  end.

Definition pscal (c : Z) (p : list Z) : list Z := map (Z.mul c) p.

Fixpoint pmul (p q : list Z) : list Z :=
  match p with
  | [] => []
  | c :: p => padd (pscal c q) (0%Z :: pmul p q)
  end.

Fixpoint ppow (p : list Z) (n : nat) : list Z :=
  match n with
  | O => [1%Z]
  | S n => pmul p (ppow p n)
  end.

(** The derivative of [c + x * p] is [p + x * p']. *)
Fixpoint pderiv (p : list Z) : list Z :=
  match p with
  | [] => []
  | _ :: p => padd p (0%Z :: pderiv p)
  end.

(** The value at [x] of the derivative of order [k]. *)
Definition pderivs (p : list Z) (k : nat) (x : R) : R :=
  peval (Nat.iter k pderiv p) x.

(** [x^n * (a - b * x)^n] *)
Definition niven (a b n : nat) : list Z :=
  repeat 0%Z n ++ ppow [Z.of_nat a; (- Z.of_nat b)%Z] n.

(** The alternating sum of the derivatives of orders [j], [j + 2], ...,
    [j + 2 * m]. *)
Fixpoint alternating (p : list Z) (m j : nat) (x : R) : R :=
  match m with
  | O => pderivs p j x
  | S m' => alternating p m' j x + (-1) ^ m * pderivs p (2 * m + j) x
  end.

(** Twelve companies of one band. *)
Definition dozen : DataFrame :=
  map (fun c => company (lit "Company " ++ [c]) band_6_19)
      (lit "ABCDEFGHIJKL").

(** * Properties *)

(** ** Strings *)

Lemma startswith_spec (p s : pystr) :
  startswith p s = true <-> exists post, s = p ++ post.
Proof.
  revert s; induction p as [|a p IH]; intros s; simpl.
  - split; eauto.
  - destruct s as [|b s].
    + split; [discriminate | intros [post H]; discriminate].
    + rewrite andb_true_iff, N.eqb_eq, IH. split.
      * intros [-> [post ->]]. eauto.
      * intros [post H]. injection H as -> ->. eauto.
Qed.

Lemma contains_spec (t s : pystr) : contains t s = true <-> substring t s.
Proof.
  induction s as [|c s IH]; simpl.
  - rewrite orb_false_r, startswith_spec. split.
    + intros [post H]. exists [], post. exact H.
    + intros [pre [post H]]. destruct pre; simpl in H.
      * eauto.
      * discriminate.
  - rewrite orb_true_iff, startswith_spec, IH. split.
    + intros [[post H] | [pre [post H]]].
      * exists [], post. exact H.
      * exists (c :: pre), post. simpl. by rewrite H.
    + intros [pre [post H]]. destruct pre as [|c' pre]; simpl in H.
      * left. eauto.
      * right. injection H as _ H. exists pre, post. exact H.
Qed.

Lemma substring_rev (t s : pystr) : substring t s -> substring (rev t) (rev s).
Proof.
  intros [pre [post ->]]. exists (rev post), (rev pre).
  by rewrite !rev_app_distr, app_assoc.
Qed.

Lemma substring_rev_iff (t s : pystr) :
  substring (rev t) (rev s) <-> substring t s.
Proof.
  split; [|apply substring_rev].
  intros H. apply substring_rev in H. by rewrite !rev_involutive in H.
Qed.

Lemma spaceless_rev (t : pystr) : spaceless t -> spaceless (rev t).
Proof.
  intros [Hne Hall]. split.
  - intros H. apply Hne. rewrite <- (rev_involutive t), H. reflexivity.
  - by apply List.Forall_rev.
Qed.

Lemma substring_skip_space (t s : pystr) (c : N) :
  spaceless t -> is_space c = true ->
  (substring t (c :: s) <-> substring t s).
Proof.
  intros [Hne Hall] Hc. split.
  - intros [pre [post H]]. destruct pre as [|c' pre]; simpl in H.
    + destruct t as [|a t]; [done|].
      injection H as <- _. apply Forall_cons in Hall as [Ha _]. congruence.
    + injection H as _ ->. by exists pre, post.
  - intros [pre [post ->]]. by exists (c :: pre), post.
Qed.

Lemma substring_lstrip (t s : pystr) :
  spaceless t -> (substring t (lstrip s) <-> substring t s).
Proof.
  intros Ht. induction s as [|c s IH]; simpl; [done|].
  destruct (is_space c) eqn:Hc; [|done].
  by rewrite IH, substring_skip_space.
Qed.

(** A token without white space occurs in the stripped label exactly when it
    occurs in the label. *)
Lemma substring_strip (t s : pystr) :
  spaceless t -> (substring t (strip s) <-> substring t s).
Proof.
  intros Ht. unfold strip, rstrip.
  rewrite <- (substring_rev_iff t (rev _)), rev_involutive.
  rewrite (substring_lstrip _ _ (spaceless_rev _ Ht)), substring_rev_iff.
  by apply substring_lstrip.
Qed.

(** ** The band classifier *)

Lemma tokenised_create_employee_band_order :
  tokenised create_employee_band_order.
Proof.
  unfold tokenised, create_employee_band_order.
  unfold band_1_5, band_6_19, band_20_49.
  repeat apply Forall_cons_2; try apply Forall_nil_2;
    (eexists; split; [reflexivity|]; split; [discriminate|]);
    repeat (apply Forall_cons_2; [reflexivity|]); apply Forall_nil_2.
Qed.

Lemma first_matching_band_total (band_order : list pystr) (u : pystr) :
  tokenised band_order -> is_Some (first_matching_band band_order u).
Proof.
  induction 1 as [|band rest [token [Htok _]] _ IH]; simpl; [eauto|].
  unfold leading_token in Htok. rewrite Htok. simpl.
  destruct (contains token u); eauto.
Qed.

Lemma classifies_cons (band token : pystr) (rest : list pystr)
    (raw b : pystr) :
  leading_token band token -> ~ substring token raw ->
  classifies rest raw b -> classifies (band :: rest) raw b.
Proof.
  intros Htok Hno H. unfold leading_token in Htok.
  destruct H as [k sb t Hk Hsb Hs Hbefore | Hnone].
  - apply (classifies_first_match _ _ (S k) sb t); [done..|].
    intros [|k'] band' token' Hlt Hk' Htok'; simpl in Hk'.
    + injection Hk' as <-. unfold leading_token in Htok'.
      rewrite Htok in Htok'. by injection Htok' as <-.
    + apply (Hbefore k' band' token'); [lia|done..].
  - apply classifies_pass_through. intros band0 token0 Hin Ht0.
    apply elem_of_cons in Hin as [-> | Hin].
    + unfold leading_token in Ht0. rewrite Htok in Ht0.
      by injection Ht0 as <-.
    + by apply (Hnone band0 token0).
Qed.

Lemma standard_of_classifies (band_order : list pystr) (raw : pystr) :
  tokenised band_order ->
  classifies band_order raw (standard_of band_order (strip raw)).
Proof.
  unfold standard_of.
  induction 1 as [|band rest [token [Htok Hsp]] Hrest IH]; simpl.
  - apply classifies_pass_through. intros band token Hin.
    by apply elem_of_nil in Hin.
  - pose proof Htok as Htok'. unfold leading_token in Htok'.
    rewrite Htok'. simpl.
    destruct (contains token (strip raw)) eqn:Hc.
    + apply contains_spec in Hc.
      apply (proj1 (substring_strip _ _ Hsp)) in Hc.
      apply (classifies_first_match _ _ 0%nat band token); [done..|].
      intros k' ? ? Hlt. lia.
    + apply (classifies_cons band token); [done| |done].
      intros Hs. apply (proj2 (substring_strip _ _ Hsp)) in Hs.
      apply contains_spec in Hs. congruence.
Qed.

Lemma elem_of_unique_from (seen l : list pystr) (x : pystr) :
  x ∈ l -> x ∈ seen \/ x ∈ unique_from seen l.
Proof.
  revert seen; induction l as [|y l IH]; intros seen Hx; simpl.
  - by apply elem_of_nil in Hx.
  - apply elem_of_cons in Hx as [-> | Hx].
    + case_bool_decide; [by left|]. right. apply elem_of_cons. by left.
    + case_bool_decide; [by apply IH|].
      destruct (IH (y :: seen) Hx) as [Hs | Hu].
      * apply elem_of_cons in Hs as [-> | Hs]; [|by left].
        right. apply elem_of_cons. by left.
      * right. apply elem_of_cons. by right.
Qed.

Lemma elem_of_unique (l : list pystr) (x : pystr) : x ∈ l -> x ∈ unique l.
Proof.
  intros Hx. destruct (elem_of_unique_from [] l x Hx) as [H | H]; [|done].
  by apply elem_of_nil in H.
Qed.

(** The dictionary built by the two loops holds, for every label it was
    built from, the band that [standard_of] names. *)
Lemma build_band_mapping_spec (band_order us : list pystr)
    (m : gmap pystr pystr) :
  tokenised band_order ->
  (forall u v, m !! u = Some v -> v = standard_of band_order u) ->
  exists m',
    build_band_mapping band_order us m = Some m'
    /\ (forall u v, m' !! u = Some v -> v = standard_of band_order u)
    /\ (forall u, u ∈ us \/ is_Some (m !! u) -> is_Some (m' !! u)).
Proof.
  intros Hbo. revert m. induction us as [|u0 us IH]; intros m Hm; simpl.
  - exists m. split_and!; [done|done|].
    intros u [Hu | Hu]; [by apply elem_of_nil in Hu | done].
  - destruct (first_matching_band_total band_order u0 Hbo) as [found Hf].
    rewrite Hf. simpl.
    set (m1 := match found with
               | Some standard_band => <[u0 := standard_band]> m
               | None => m
               end).
    set (m2 := if bool_decide (is_Some (m1 !! u0)) then m1
               else <[u0 := u0]> m1).
    assert (Hm1 : forall u v, m1 !! u = Some v -> v = standard_of band_order u).
    { intros u v. subst m1. destruct found as [sb|]; [|apply Hm].
      destruct (decide (u = u0)) as [-> | Hne].
      - rewrite lookup_insert_eq. intros [= <-].
        unfold standard_of. by rewrite Hf.
      - rewrite lookup_insert_ne by done. apply Hm. }
    assert (Hm2 : forall u v, m2 !! u = Some v -> v = standard_of band_order u).
    { intros u v. subst m2. case_bool_decide as Hin; [apply Hm1|].
      destruct (decide (u = u0)) as [-> | Hne].
      - rewrite lookup_insert_eq. intros [= <-].
        unfold standard_of. rewrite Hf.
        destruct found as [sb|]; [|done].
        exfalso. apply Hin. subst m1. rewrite lookup_insert_eq. eauto.
      - rewrite lookup_insert_ne by done. apply Hm1. }
    assert (Hkeys : forall u, u = u0 \/ is_Some (m !! u) -> is_Some (m2 !! u)).
    { intros u Hu. subst m2. case_bool_decide as Hin.
      - destruct Hu as [-> | Hu]; [done|]. subst m1.
        destruct found as [sb|]; [|done].
        destruct (decide (u = u0)) as [-> | Hne].
        + rewrite lookup_insert_eq. eauto.
        + by rewrite lookup_insert_ne.
      - destruct (decide (u = u0)) as [-> | Hne].
        + rewrite lookup_insert_eq. eauto.
        + rewrite lookup_insert_ne by done.
          destruct Hu as [-> | Hu]; [done|]. subst m1.
          destruct found as [sb|]; [|done]. by rewrite lookup_insert_ne. }
    destruct (IH m2 Hm2) as [m' [Hb [Hv Hk]]].
    exists m'. split_and!; [done|done|].
    intros u [Hu | Hu].
    + apply elem_of_cons in Hu as [-> | Hu].
      * apply Hk. right. apply Hkeys. by left.
      * apply Hk. by left.
    + apply Hk. right. apply Hkeys. by right.
Qed.

(** The two band columns in closed form: the frame keeps its rows, each with
    its trimmed label and the band that [standard_of] names. *)
Lemma assign_band_columns_eq (band_order : list pystr) (df : DataFrame) :
  tokenised band_order ->
  assign_band_columns band_order df = Some (map (banded band_order) df).
Proof.
  intros Hbo. unfold assign_band_columns.
  destruct (build_band_mapping_spec band_order
              (unique (omap Employee_Band_Clean (assign_Employee_Band_Clean df)))
              ∅ Hbo) as [m' [Hb [Hv Hk]]].
  { intros u v. by rewrite lookup_empty. }
  rewrite Hb. simpl. f_equal.
  unfold assign_Employee_Band_Standard, assign_Employee_Band_Clean.
  rewrite List.map_map. apply List.map_ext_in. intros r Hr.
  unfold banded. simpl. f_equal.
  destruct (Hk (strip (Estimated_Employee_Band r))) as [v Hlk].
  { left. apply elem_of_unique, list_elem_of_omap.
    exists (set_Employee_Band_Clean (Some (strip (Estimated_Employee_Band r))) r).
    split; [|done]. apply list_elem_of_In, List.in_map_iff.
    exists r. by split. }
  rewrite Hlk. f_equal. by apply Hv.
Qed.

Lemma classifies_canonical (band_order : list pystr) (raw b : pystr) :
  classifies band_order raw b ->
  (exists band token, band ∈ band_order /\ leading_token band token
                      /\ substring token raw) ->
  b ∈ band_order.
Proof.
  intros H [band [token [Hin [Htok Hsub]]]].
  destruct H as [k sb t Hk _ _ _ | Hnone].
  - apply list_elem_of_lookup. eauto.
  - exfalso. by apply (Hnone band token).
Qed.

Lemma source_columns_banded (band_order : list pystr) (r : Row) :
  source_columns (banded band_order r) = source_columns r.
Proof. reflexivity. Qed.

(** ** [apply_filters] *)

Lemma new_frame_spec (rows : DataFrame) (σ : Store) :
  exists l σ',
    new_frame rows σ = (l, σ')
    /\ σ !! l = None
    /\ σ' !! l = Some rows
    /\ forall l0, is_Some (σ !! l0) -> σ' !! l0 = σ !! l0.
Proof.
  exists (fresh (dom σ)), (<[fresh (dom σ) := rows]> σ).
  assert (Hfresh : σ !! fresh (dom σ) = None).
  { apply not_elem_of_dom, is_fresh. }
  split_and!; [done|done|apply lookup_insert_eq|].
  intros l0 [v Hl0]. apply lookup_insert_ne. intros <-. congruence.
Qed.

(** One of the three guarded selections of lines 302-309. *)
Lemma boolean_index_step (selection : list pystr)
    (column : Row -> option pystr) (cur : nat) (σ : Store) (rows : DataFrame) :
  σ !! cur = Some rows ->
  exists l' σ',
    (if truthy selection
     then boolean_index (fun r => isin (column r) selection) cur σ
     else Some (cur, σ)) = Some (l', σ')
    /\ σ' !! l' = Some (keep_if selection column rows)
    /\ forall l0, is_Some (σ !! l0) -> σ' !! l0 = σ !! l0.
Proof.
  intros Hcur. unfold keep_if. destruct (truthy selection).
  - unfold boolean_index. rewrite Hcur. simpl.
    destruct (new_frame_spec
                (List.filter (fun r => isin (column r) selection) rows) σ)
      as (l' & σ' & -> & _ & H1 & H2).
    eauto.
  - exists cur, σ. eauto.
Qed.

(** [apply_filters] on the store: it returns a frame that holds
    [filtered_rows] of the rows of its argument, and leaves every frame that
    existed before the call as it was. *)
Lemma apply_filters_rows_spec (df : nat)
    (locations employee_bands anzsic_codes : list pystr) (σ : Store)
    (rows : DataFrame) :
  σ !! df = Some rows ->
  exists l σ' out,
    apply_filters df locations employee_bands anzsic_codes σ = Some (l, σ')
    /\ filtered_rows locations employee_bands anzsic_codes rows = Some out
    /\ σ' !! l = Some out
    /\ forall l0, is_Some (σ !! l0) -> σ' !! l0 = σ !! l0.
Proof.
  intros Hdf. unfold apply_filters, filtered_rows, copy, update_frame.
  rewrite Hdf. cbn -[new_frame boolean_index isin keep_if assign_band_columns].
  destruct (new_frame_spec rows σ) as (l1 & σ1 & -> & Hfresh & H1 & K1).
  cbn -[new_frame boolean_index isin keep_if assign_band_columns].
  rewrite H1.
  cbn -[new_frame boolean_index isin keep_if assign_band_columns].
  rewrite (assign_band_columns_eq _ _ tokenised_create_employee_band_order).
  cbn -[new_frame boolean_index isin keep_if assign_band_columns].
  set (b := map (banded create_employee_band_order) rows).
  set (σ2 := <[l1 := b]> σ1).
  assert (H2 : σ2 !! l1 = Some b) by apply lookup_insert_eq.
  assert (K2 : forall l0, is_Some (σ !! l0) -> σ2 !! l0 = σ !! l0).
  { intros l0 Hl0. rewrite <- (K1 l0 Hl0). apply lookup_insert_ne.
    intros <-. destruct Hl0 as [v Hv]. congruence. }
  destruct (boolean_index_step locations
              (fun r => Some (Headquarters_Location r)) l1 σ2 b H2)
    as (l3 & σ3 & -> & H3 & K3).
  cbn -[new_frame boolean_index isin keep_if assign_band_columns].
  destruct (boolean_index_step employee_bands Employee_Band_Standard
              l3 σ3 _ H3) as (l4 & σ4 & -> & H4 & K4).
  cbn -[new_frame boolean_index isin keep_if assign_band_columns].
  destruct (boolean_index_step anzsic_codes
              (fun r => Some (Primary_ANZSIC_Code r)) l4 σ4 _ H4)
    as (l5 & σ5 & -> & H5 & K5).
  cbn -[new_frame boolean_index isin keep_if assign_band_columns].
  eexists l5, σ5, _. split_and!; [done|done|done|].
  intros l0 Hl0.
  assert (is_Some (σ2 !! l0)) by (by rewrite K2).
  assert (is_Some (σ3 !! l0)) by (by rewrite K3).
  assert (is_Some (σ4 !! l0)) by (by rewrite K4).
  by rewrite K5, K4, K3, K2.
Qed.

Lemma filter_sublist {A} (f : A -> bool) (l : list A) :
  List.filter f l `sublist_of` l.
Proof.
  induction l as [|a l IH]; simpl; [constructor|].
  destruct (f a); by constructor.
Qed.

Lemma keep_if_sublist (selection : list pystr) (column : Row -> option pystr)
    (df : DataFrame) :
  keep_if selection column df `sublist_of` df.
Proof.
  unfold keep_if. destruct (truthy selection); [apply filter_sublist|done].
Qed.

Lemma elem_of_filter {A} (f : A -> bool) (l : list A) (x : A) :
  x ∈ List.filter f l <-> x ∈ l /\ f x = true.
Proof. rewrite !list_elem_of_In. apply List.filter_In. Qed.

Lemma filter_negb_Permutation {A} (f : A -> bool) (l : list A) :
  List.filter f l ++ List.filter (fun x => negb (f x)) l ≡ₚ l.
Proof.
  induction l as [|a l IH]; simpl; [done|].
  destruct (f a); simpl.
  - by constructor.
  - rewrite <- Permutation_middle. by constructor.
Qed.


(** The classifier tests the whole leading token of a band, the text up to
    its first white space, and not its leading numeral: the label
    ["20 staff"] holds the leading numeral ["20"] of the third band, and is
    passed through as a band of its own. *)
Lemma leading_numeral_not_matched :
  let raw := lit "20 staff" in
  band_20_49 ∈ create_employee_band_order
  /\ leading_numeral band_20_49 = lit "20"
  /\ leading_token band_20_49 (lit "20" ++ band_dash ++ lit "49")
  /\ substring (leading_numeral band_20_49) raw
  /\ exists r' : Row,
       assign_band_columns create_employee_band_order
         [company (lit "Zinc") raw] = Some [r']
       /\ Employee_Band_Clean r' = Some raw
       /\ Employee_Band_Standard r' = Some raw
       /\ (raw ∉ create_employee_band_order).
Proof.
  cbv zeta. split_and!.
  - apply (bool_decide_unpack _). vm_compute. exact I.
  - reflexivity.
  - reflexivity.
  - exists [], (lit " staff"). reflexivity.
  - rewrite (assign_band_columns_eq _ _ tokenised_create_employee_band_order).
    eexists. split_and!; [reflexivity|reflexivity|reflexivity|].
    apply (bool_decide_unpack _). vm_compute. exact I.
Qed.

(** C6.  The shortlist frame holds the filtered rows whose legal name is in
    the selection set and the frame of all other companies those whose name
    is not; no row is in both, every filtered row is in one of them, and the
    two together are the filtered frame up to the order of rows. *)
Theorem partition_bipartition (filtered_df : DataFrame) (s : Session) :
  let shortlist := shortlist_df filtered_df s in
  let pool := all_companies_df filtered_df s in
  (forall r, r ∈ shortlist <->
             r ∈ filtered_df /\ Entity_Legal_Name r ∈ init_session s)
  /\ (forall r, r ∈ pool <->
                r ∈ filtered_df /\ Entity_Legal_Name r ∉ init_session s)
  /\ (forall r, ~ (r ∈ shortlist /\ r ∈ pool))
  /\ (forall r, r ∈ filtered_df <-> r ∈ shortlist \/ r ∈ pool)
  /\ shortlist `sublist_of` filtered_df
  /\ pool `sublist_of` filtered_df
  /\ shortlist ++ pool ≡ₚ filtered_df.
Proof.
  intros shortlist pool. subst shortlist pool.
  unfold shortlist_df, all_companies_df.
  assert (H1 : forall r,
             r ∈ List.filter (in_shortlist (init_session s)) filtered_df <->
             r ∈ filtered_df /\ Entity_Legal_Name r ∈ init_session s).
  { intros r. rewrite elem_of_filter. unfold in_shortlist.
    by rewrite bool_decide_eq_true. }
  assert (H2 : forall r,
             r ∈ List.filter (fun r => negb (in_shortlist (init_session s) r))
                   filtered_df <->
             r ∈ filtered_df /\ Entity_Legal_Name r ∉ init_session s).
  { intros r. rewrite elem_of_filter. unfold in_shortlist.
    by rewrite negb_true_iff, bool_decide_eq_false. }
  split_and!; [done|done| | |apply filter_sublist|apply filter_sublist|].
  - intros r [Ha Hb]. apply H1 in Ha. apply H2 in Hb. tauto.
  - intros r. rewrite H1, H2.
    destruct (decide (Entity_Legal_Name r ∈ init_session s)); tauto.
  - apply filter_negb_Permutation.
Qed.

(** C8.  [apply_filters] returns a new frame and leaves its argument as it
    was; the rows of the result are, in order, rows of the argument with the
    two band columns written, and their source columns are an order-preserving
    subsequence of those of the argument; with the three selections empty
    every row is returned, in order, with its source columns unchanged and
    the two band columns added. *)
Theorem apply_filters_subsequence (df : nat)
    (locations employee_bands anzsic_codes : list pystr) (σ : Store)
    (rows : DataFrame) :
  σ !! df = Some rows ->
  exists (l : nat) (σ' : Store) (out : DataFrame),
    apply_filters df locations employee_bands anzsic_codes σ = Some (l, σ')
    /\ σ' !! l = Some out
    /\ σ' !! df = Some rows
    /\ out `sublist_of` map (banded create_employee_band_order) rows
    /\ map source_columns out `sublist_of` map source_columns rows
    /\ (locations = [] -> employee_bands = [] -> anzsic_codes = [] ->
        out = map (banded create_employee_band_order) rows
        /\ map source_columns out = map source_columns rows).
Proof.
  intros Hdf.
  destruct (apply_filters_rows_spec df locations employee_bands anzsic_codes
              σ rows Hdf) as (l & σ' & out & Ha & Hout & Hl & Hkeep).
  exists l, σ', out.
  unfold filtered_rows in Hout.
  rewrite (assign_band_columns_eq _ _ tokenised_create_employee_band_order)
    in Hout.
  simpl in Hout. injection Hout as <-.
  assert (Hsub :
    keep_if anzsic_codes (fun r => Some (Primary_ANZSIC_Code r))
      (keep_if employee_bands Employee_Band_Standard
         (keep_if locations (fun r => Some (Headquarters_Location r))
            (map (banded create_employee_band_order) rows)))
    `sublist_of` map (banded create_employee_band_order) rows).
  { etrans; [apply keep_if_sublist|].
    etrans; [apply keep_if_sublist|]. apply keep_if_sublist. }
  assert (Hsrc : map source_columns
                   (map (banded create_employee_band_order) rows)
                 = map source_columns rows).
  { rewrite List.map_map. apply List.map_ext. intros r.
    apply source_columns_banded. }
  split_and!; [done|done| |done| |].
  - rewrite Hkeep by eauto. done.
  - rewrite <- Hsrc. by apply (fmap_sublist source_columns).
  - intros -> -> ->. by split.
Qed.

Lemma apply_filters_subsequence_witness :
  exists (l : nat) (σ' : Store),
    apply_filters 0 [] [lit "none"] [] {[0%nat := [acme; dune]]} = Some (l, σ')
    /\ σ' !! l = Some []
    /\ σ' !! 0%nat = Some [acme; dune].
Proof.
  destruct (apply_filters_subsequence 0 [] [lit "none"] [] {[0%nat := [acme; dune]]}
              [acme; dune])
    as (l & σ' & out & Ha & Hl & Hdf & Hsub & _).
  { apply lookup_singleton_eq. }
  exists l, σ'. split_and!; [done| |done].
  destruct (apply_filters_rows_spec 0 [] [lit "none"] [] {[0%nat := [acme; dune]]}
              [acme; dune]) as (l2 & σ2 & out2 & Ha2 & Hout2 & Hl2 & _).
  { apply lookup_singleton_eq. }
  rewrite Ha in Ha2. injection Ha2 as <- <-.
  rewrite Hl2. f_equal.
  unfold filtered_rows in Hout2.
  rewrite (assign_band_columns_eq _ _ tokenised_create_employee_band_order)
    in Hout2.
  simpl in Hout2. injection Hout2 as <-. vm_compute. reflexivity.
Defined.

(** With the three selections empty the returned frame is not the frame
    that was passed: it carries the two band columns. *)
Lemma apply_filters_empty_selections_adds_columns :
  exists (l : nat) (σ' : Store) (out : DataFrame),
    apply_filters 0 [] [] [] {[0%nat := [acme]]} = Some (l, σ')
    /\ σ' !! l = Some out
    /\ out = [banded create_employee_band_order acme]
    /\ out <> [acme].
Proof.
  destruct (apply_filters_rows_spec 0 [] [] [] {[0%nat := [acme]]} [acme])
    as (l & σ' & out & Ha & Hout & Hl & _).
  { apply lookup_singleton_eq. }
  exists l, σ', out.
  unfold filtered_rows in Hout.
  rewrite (assign_band_columns_eq _ _ tokenised_create_employee_band_order)
    in Hout.
  simpl in Hout. injection Hout as <-.
  split_and!; [done|done|done|]. discriminate.
Qed.

(** ** The jitter loop *)

Lemma assign_jitter_rows (band : pystr) (jitter : list (R * R))
    (df : list LayoutRow) :
  map row (assign_jitter band jitter df) = map row df.
Proof.
  revert jitter; induction df as [|r df IH]; intros jitter; simpl; [done|].
  destruct (band_mask band r); [destruct jitter|]; simpl; by rewrite IH.
Qed.

Lemma assign_jitter_lookup (band : pystr) (jitter : list (R * R))
    (df : list LayoutRow) (i : nat) :
  assign_jitter band jitter df !! i
  = (fun r => if band_mask band r
              then match jitter !! rank_in_band band df i with
                   | Some j => set_jitter j r
                   | None => r
                   end
              else r) <$> (df !! i).
Proof.
  unfold rank_in_band.
  revert jitter i; induction df as [|r df IH]; intros jitter [|i]; simpl;
    try done.
  - destruct (band_mask band r); [destruct jitter|]; done.
  - destruct (band_mask band r) eqn:Hm; [destruct jitter as [|j jitter]|];
      simpl; rewrite IH; done.
Qed.

Lemma filter_band_mask_rows (band : pystr) (df df' : list LayoutRow) :
  map row df = map row df' ->
  length (List.filter (band_mask band) df)
  = length (List.filter (band_mask band) df').
Proof.
  revert df'; induction df as [|r df IH]; intros [|r' df'] H; simpl in *;
    try done.
  injection H as Hr H.
  assert (Hm : band_mask band r = band_mask band r').
  { unfold band_mask. by rewrite Hr. }
  rewrite Hm. destruct (band_mask band r'); simpl; by rewrite (IH df').
Qed.

Lemma count_band_rows (band : pystr) (df df' : list LayoutRow) :
  map row df = map row df' -> count_band band df = count_band band df'.
Proof. apply filter_band_mask_rows. Qed.

Lemma rank_in_band_rows (band : pystr) (df df' : list LayoutRow) (i : nat) :
  map row df = map row df' ->
  rank_in_band band df i = rank_in_band band df' i.
Proof.
  intros H. apply filter_band_mask_rows.
  change (map row ?l) with (row <$> l). rewrite !fmap_take.
  change (row <$> ?l) with (map row l). by rewrite H.
Qed.

Section JitterLoop.
Context {G : RandomState}.

Lemma jitter_bands_rows (band_order : list pystr) (df : list LayoutRow)
    (g : rng) :
  map row (jitter_bands band_order df g).1 = map row df.
Proof.
  revert df g; induction band_order as [|band bs IH]; intros df g; simpl;
    [done|].
  destruct (_ =? 0)%nat; [apply IH|].
  destruct (band_jitter _ g) as [jitter g']. rewrite IH.
  apply assign_jitter_rows.
Qed.

(** The loop leaves alone the rows of a band it does not visit. *)
Lemma jitter_bands_other (band_order : list pystr) (df : list LayoutRow)
    (g : rng) (i : nat) (r : LayoutRow) :
  df !! i = Some r ->
  (forall band, band ∈ band_order -> band_mask band r = false) ->
  (jitter_bands band_order df g).1 !! i = Some r.
Proof.
  revert df g; induction band_order as [|band bs IH]; intros df g Hi Hm;
    simpl; [done|].
  assert (Hbs : forall b, b ∈ bs -> band_mask b r = false).
  { intros b Hb. apply Hm. by apply elem_of_cons; right. }
  destruct (_ =? 0)%nat; [by apply IH|].
  destruct (band_jitter _ g) as [jitter g']. apply IH; [|done].
  rewrite assign_jitter_lookup, Hi. simpl.
  rewrite (Hm band); [done|]. by apply elem_of_cons; left.
Qed.

(** A property of rows that every assignment of a jitter pair keeps holds
    after the loop when it held before. *)
Lemma jitter_bands_Forall (Q : LayoutRow -> Prop) (band_order : list pystr)
    (df : list LayoutRow) (g : rng) :
  (forall n g' j r, n <> 0%nat -> j ∈ (band_jitter n g').1 -> Q r ->
                    Q (set_jitter j r)) ->
  Forall Q df -> Forall Q (jitter_bands band_order df g).1.
Proof.
  intros Hset.
  revert df g; induction band_order as [|band bs IH]; intros df g Hdf;
    simpl; [done|].
  destruct (_ =? 0)%nat eqn:Hn; [by apply IH|].
  apply Nat.eqb_neq in Hn.
  destruct (band_jitter _ g) as [jitter g'] eqn:Hj. apply IH.
  assert (Hin : forall j, j ∈ jitter -> forall r, Q r -> Q (set_jitter j r)).
  { intros j Hjin r Hr. eapply Hset; [exact Hn| |done]. by rewrite Hj. }
  clear Hj Hn. revert jitter Hin.
  induction Hdf as [|r df Hr Hdf IHdf]; intros jitter Hin; simpl;
    [constructor|].
  destruct (band_mask band r); [destruct jitter as [|j jitter]|].
  - constructor; [done|]. apply IHdf. intros j Hj. by apply elem_of_nil in Hj.
  - constructor.
    + apply Hin; [|done]. by apply elem_of_cons; left.
    + apply IHdf. intros j' Hj'. apply Hin. by apply elem_of_cons; right.
  - constructor; [done|]. by apply IHdf.
Qed.
End JitterLoop.

(** ** [PI] is irrational *)

(** Niven's proof, with the mean value theorem in the place of the
    integral. *)

Section Polynomials.
Local Open Scope R_scope.

Lemma peval_padd (p q : list Z) (x : R) :
  peval (padd p q) x = peval p x + peval q x.
Proof.
  revert q. induction p as [|c p IH]; intros [|d q]; simpl; try lra.
  rewrite IH, plus_IZR. ring.
Qed.

Lemma peval_pscal (c : Z) (p : list Z) (x : R) :
  peval (pscal c p) x = IZR c * peval p x.
Proof.
  induction p as [|d p IH]; [simpl; ring|].
  change (pscal c (d :: p)) with ((c * d)%Z :: pscal c p).
  cbn [peval]. rewrite IH, mult_IZR. ring.
Qed.

Lemma peval_pmul (p q : list Z) (x : R) :
  peval (pmul p q) x = peval p x * peval q x.
Proof.
  induction p as [|c p IH]; simpl; [ring|].
  rewrite peval_padd, peval_pscal. simpl. rewrite IH. ring.
Qed.

Lemma peval_ppow (p : list Z) (n : nat) (x : R) :
  peval (ppow p n) x = peval p x ^ n.
Proof.
  induction n as [|n IH]; simpl; [ring|].
  by rewrite peval_pmul, IH.
Qed.

Lemma peval_shift (n : nat) (q : list Z) (x : R) :
  peval (repeat 0%Z n ++ q) x = x ^ n * peval q x.
Proof. induction n as [|n IH]; simpl; [ring|]. rewrite IH. ring. Qed.

Lemma peval_niven (a b n : nat) (x : R) :
  peval (niven a b n) x = x ^ n * (INR a - INR b * x) ^ n.
Proof.
  unfold niven. rewrite peval_shift, peval_ppow. simpl.
  rewrite opp_IZR, <- !INR_IZR_INZ. f_equal. f_equal. ring.
Qed.

Lemma peval_0 (p : list Z) : peval p 0 = IZR (nth 0 p 0%Z).
Proof. destruct p; simpl; ring. Qed.

Lemma peval_zero (p : list Z) (x : R) :
  (forall i, nth i p 0%Z = 0%Z) -> peval p x = 0.
Proof.
  induction p as [|c p IH]; intros H; simpl; [done|].
  rewrite (H 0%nat : c = 0%Z), IH; [ring|].
  intros i. apply (H (S i)).
Qed.

Lemma nth_padd (p q : list Z) (i : nat) :
  nth i (padd p q) 0%Z = (nth i p 0 + nth i q 0)%Z.
Proof.
  revert q i. induction p as [|c p IH]; intros [|d q] [|i]; simpl; try lia.
  apply IH.
Qed.

Lemma nth_pderiv (p : list Z) (i : nat) :
  nth i (pderiv p) 0%Z = (Z.of_nat (S i) * nth (S i) p 0)%Z.
Proof.
  revert i. induction p as [|c p IH]; intros i.
  - destruct i; simpl; lia.
  - cbn [pderiv]. rewrite nth_padd. destruct i as [|i].
    + simpl. lia.
    + cbn [nth]. rewrite IH. cbn [nth]. lia.
Qed.

Lemma nth_pderivs (p : list Z) (k i : nat) :
  (Z.of_nat (fact i) * nth i (Nat.iter k pderiv p) 0
   = Z.of_nat (fact (i + k)) * nth (i + k) p 0)%Z.
Proof.
  revert i. induction k as [|k IH]; intros i.
  - by rewrite Nat.add_0_r.
  - change (Nat.iter (S k) pderiv p) with (pderiv (Nat.iter k pderiv p)).
    rewrite nth_pderiv.
    replace (i + S k)%nat with (S i + k)%nat by lia.
    rewrite <- IH. change (fact (S i)) with (S i * fact i)%nat.
    rewrite Nat2Z.inj_mul. ring.
Qed.

(** The derivative of order [k] at 0 is [k!] times the coefficient of
    [x^k]. *)
Lemma pderivs_0 (p : list Z) (k : nat) :
  pderivs p k 0 = IZR (Z.of_nat (fact k) * nth k p 0%Z).
Proof.
  unfold pderivs. rewrite peval_0. f_equal.
  pose proof (nth_pderivs p k 0) as H. simpl in H. lia.
Qed.

(** Derivatives beyond the degree vanish. *)
Lemma pderivs_overflow (p : list Z) (k : nat) (x : R) :
  (length p <= k)%nat -> pderivs p k x = 0.
Proof.
  intros Hk. apply peval_zero. intros i.
  pose proof (nth_pderivs p k i) as H.
  rewrite (nth_overflow p) in H by lia.
  pose proof (lt_O_fact i). lia.
Qed.

Lemma derivable_pt_lim_peval (p : list Z) (x : R) :
  derivable_pt_lim (peval p) x (peval (pderiv p) x).
Proof.
  induction p as [|c p IH].
  - apply (derivable_pt_lim_const 0).
  - cbn [pderiv]. rewrite peval_padd. cbn [peval].
    replace (peval p x + (IZR 0 + x * peval (pderiv p) x))
      with (0 + (1 * peval p x + x * peval (pderiv p) x)) by ring.
    apply (derivable_pt_lim_plus (fct_cte (IZR c)) (id * peval p)%F).
    + apply derivable_pt_lim_const.
    + apply derivable_pt_lim_mult; [apply derivable_pt_lim_id|done].
Qed.

Lemma derivable_pt_lim_pderivs (p : list Z) (k : nat) (x : R) :
  derivable_pt_lim (pderivs p k) x (pderivs p (S k) x).
Proof. apply derivable_pt_lim_peval. Qed.

Lemma derivable_pt_lim_ext (f g : R -> R) (x l : R) :
  (forall y, f y = g y) -> derivable_pt_lim f x l -> derivable_pt_lim g x l.
Proof.
  intros E H eps Heps. destruct (H eps Heps) as [delta Hd].
  exists delta. intros h Hh Hlt. rewrite <- !E. by apply Hd.
Qed.

Lemma derivable_pt_lim_alternating (p : list Z) (m j : nat) (x : R) :
  derivable_pt_lim (alternating p m j) x (alternating p m (S j) x).
Proof.
  induction m as [|m IH].
  - apply derivable_pt_lim_pderivs.
  - cbn [alternating].
    apply (derivable_pt_lim_plus (alternating p m j)
             (mult_real_fct ((-1) ^ S m) (pderivs p (2 * S m + j))));
      [done|].
    replace (2 * S m + S j)%nat with (S (2 * S m + j)) by lia.
    apply derivable_pt_lim_scal, derivable_pt_lim_pderivs.
Qed.

(** The sum telescopes: [F'' + F = p] up to the last derivative. *)
Lemma alternating_telescope (p : list Z) (m : nat) (x : R) :
  alternating p m 2 x + alternating p m 0 x
  = peval p x + (-1) ^ m * pderivs p (2 * m + 2) x.
Proof.
  induction m as [|m IH].
  - cbn [alternating]. unfold pderivs at 2. simpl. ring.
  - cbn [alternating].
    replace (2 * S m + 0)%nat with (2 * m + 2)%nat by lia.
    transitivity (alternating p m 2 x + alternating p m 0 x
                  + (-1) ^ S m * pderivs p (2 * S m + 2) x
                  + (-1) ^ S m * pderivs p (2 * m + 2) x); [ring|].
    rewrite IH. simpl pow. ring.
Qed.

Lemma fact_divide (n m : nat) :
  (n <= m)%nat -> exists q : nat, fact m = (q * fact n)%nat.
Proof.
  induction 1 as [|m _ [q Hq]].
  - exists 1%nat. lia.
  - exists (S m * q)%nat. cbn [fact]. rewrite Hq. lia.
Qed.
End Polynomials.

Section Niven.
Local Open Scope R_scope.
Context (a b : nat) (Hb : (0 < b)%nat) (Hpi : PI = INR a / INR b).

Lemma niven_b_pos : 0 < INR b.
Proof. by apply lt_0_INR. Qed.

Lemma niven_a : INR a = INR b * PI.
Proof. pose proof niven_b_pos. rewrite Hpi. field. lra. Qed.

Lemma niven_symmetric (n : nat) (x : R) :
  peval (niven a b n) (PI - x) = peval (niven a b n) x.
Proof.
  rewrite !peval_niven, <- !Rpow_mult_distr. f_equal.
  rewrite niven_a. ring.
Qed.

Lemma niven_derivs_symmetric (n k : nat) (x : R) :
  pderivs (niven a b n) k (PI - x) = (-1) ^ k * pderivs (niven a b n) k x.
Proof.
  revert x. induction k as [|k IH]; intros x.
  - unfold pderivs. simpl. rewrite niven_symmetric. ring.
  - set (P := niven a b n) in *.
    assert (H1 : derivable_pt_lim (fun y => pderivs P k (PI - y)) x
                   (pderivs P (S k) (PI - x) * (0 - 1))).
    { apply (derivable_pt_lim_comp (fun y => PI - y) (pderivs P k)).
      - apply (derivable_pt_lim_minus (fct_cte PI) id).
        + apply derivable_pt_lim_const.
        + apply derivable_pt_lim_id.
      - apply derivable_pt_lim_pderivs. }
    assert (H2 : derivable_pt_lim (fun y => pderivs P k (PI - y)) x
                   ((-1) ^ k * pderivs P (S k) x)).
    { apply (derivable_pt_lim_ext (mult_real_fct ((-1) ^ k) (pderivs P k))).
      - intros y. by rewrite IH.
      - apply derivable_pt_lim_scal, derivable_pt_lim_pderivs. }
    pose proof (uniqueness_limite _ _ _ _ H1 H2) as E.
    simpl pow. lra.
Qed.

Lemma niven_alternating_PI (n m : nat) :
  alternating (niven a b n) m 0 PI = alternating (niven a b n) m 0 0.
Proof.
  induction m as [|m IH]; cbn [alternating].
  - pose proof (niven_derivs_symmetric n 0 0) as H.
    rewrite Rminus_0_r in H. rewrite H. simpl. ring.
  - rewrite IH. f_equal. f_equal.
    pose proof (niven_derivs_symmetric n (2 * S m + 0) 0) as H.
    rewrite Rminus_0_r in H. rewrite H.
    replace (2 * S m + 0)%nat with (2 * S m)%nat by lia.
    rewrite pow_1_even. ring.
Qed.

Lemma niven_coefficient (n k : nat) :
  (k < n)%nat -> nth k (niven a b n) 0%Z = 0%Z.
Proof.
  intros Hk. unfold niven.
  rewrite app_nth1 by (by rewrite repeat_length).
  apply nth_repeat.
Qed.

Lemma niven_derivs_integer (n k : nat) :
  exists z : Z, pderivs (niven a b n) k 0 = IZR (Z.of_nat (fact n) * z).
Proof.
  rewrite pderivs_0. destruct (Nat.lt_ge_cases k n) as [Hlt | Hge].
  - exists 0%Z. rewrite niven_coefficient by done. f_equal. lia.
  - destruct (fact_divide n k Hge) as [q Hq].
    exists (Z.of_nat q * nth k (niven a b n) 0)%Z. f_equal. rewrite Hq. lia.
Qed.

Lemma niven_alternating_integer (n m : nat) :
  exists z : Z,
    alternating (niven a b n) m 0 0 = IZR (Z.of_nat (fact n) * z).
Proof.
  induction m as [|m [z Hz]]; cbn [alternating].
  - apply niven_derivs_integer.
  - destruct (niven_derivs_integer n (2 * S m + 0)) as [z' Hz'].
    exists (z + (-1) ^ Z.of_nat (S m) * z')%Z.
    rewrite Hz, Hz', pow_IZR, <- mult_IZR, <- plus_IZR. f_equal. lia.
Qed.

(** Niven's integral, by the mean value theorem: twice the alternating sum
    at 0 is [PI * p c * sin c] at a point [c] between 0 and [PI]. *)
Lemma niven_mean_value (n : nat) :
  exists c : R,
    0 < c < PI
    /\ 2 * alternating (niven a b n) (length (niven a b n)) 0 0
       = PI * (peval (niven a b n) c * sin c).
Proof.
  set (P := niven a b n). set (m := length P).
  destruct (MVT_cor2
              (fun x => alternating P m 1 x * sin x
                        - alternating P m 0 x * cos x)
              (fun x => peval P x * sin x) 0 PI PI_RGT_0) as (c & Hc & Hin).
  { intros c _.
    assert (E : peval P c * sin c
                = alternating P m 2 c * sin c + alternating P m 1 c * cos c
                  - (alternating P m 1 c * cos c
                     + alternating P m 0 c * - sin c)).
    { pose proof (alternating_telescope P m c) as H.
      rewrite (pderivs_overflow P (2 * m + 2)) in H by (unfold m; lia).
      transitivity ((alternating P m 2 c + alternating P m 0 c) * sin c);
        [|ring].
      rewrite H. ring. }
    rewrite E.
    apply (derivable_pt_lim_minus (alternating P m 1 * sin)%F
             (alternating P m 0 * cos)%F).
    - apply derivable_pt_lim_mult;
        [apply derivable_pt_lim_alternating|apply derivable_pt_lim_sin].
    - apply derivable_pt_lim_mult;
        [apply derivable_pt_lim_alternating|apply derivable_pt_lim_cos]. }
  exists c. split; [done|].
  rewrite sin_PI, cos_PI, sin_0, cos_0 in Hc.
  fold P in Hc. unfold P, m in *. rewrite niven_alternating_PI in Hc. lra.
Qed.

Lemma niven_bound (n : nat) (c : R) :
  0 < c < PI ->
  0 < peval (niven a b n) c <= (PI * INR a) ^ n.
Proof.
  intros Hc. pose proof niven_b_pos as HB. pose proof niven_a as HA.
  rewrite peval_niven, <- Rpow_mult_distr.
  assert (H1 : 0 < INR a - INR b * c) by nra.
  assert (H2 : INR a - INR b * c <= INR a) by nra.
  split.
  - apply pow_lt. nra.
  - apply pow_incr. split; nra.
Qed.

Lemma PI_irrational_nat : False.
Proof.
  destruct (cv_speed_pow_fact (PI * INR a) (1 / 4) ltac:(lra)) as [N HN].
  specialize (HN N (Nat.le_refl N)).
  unfold Rdist in HN. rewrite Rminus_0_r in HN.
  apply Rabs_def2 in HN as [HN _].
  pose proof (INR_fact_lt_0 N) as HF.
  assert (Hpow : (PI * INR a) ^ N < INR (fact N) / 4).
  { apply (Rmult_lt_compat_r (INR (fact N))) in HN; [|done].
    unfold Rdiv in HN. rewrite Rmult_assoc, Rinv_l in HN by lra. lra. }
  destruct (niven_mean_value N) as (c & Hc & E).
  destruct (niven_alternating_integer N (length (niven a b N))) as [z Hz].
  rewrite Hz, mult_IZR, <- INR_IZR_INZ in E.
  destruct (niven_bound N c Hc) as [Hp0 Hp1].
  pose proof (sin_gt_0 c (proj1 Hc) (proj2 Hc)) as Hs0.
  pose proof (SIN_bound c) as [_ Hs1].
  pose proof PI_4 as H4. pose proof PI_RGT_0 as H0.
  assert (Hprod : 0 < peval (niven a b N) c * sin c <= (PI * INR a) ^ N).
  { split; [by apply Rmult_lt_0_compat|]. nra. }
  assert (Hz0 : (0 < z)%Z).
  { apply lt_IZR. nra. }
  assert (Hz1 : 1 <= IZR z) by (apply IZR_le; lia).
  nra.
Qed.
End Niven.

(** [PI] is no quotient of integers. *)
Lemma PI_irrational (p q : Z) : q <> 0%Z -> PI <> (IZR p / IZR q)%R.
Proof.
  intros Hq E. pose proof PI_RGT_0 as H0.
  assert (Hq' : IZR q <> 0%R) by (by apply not_0_IZR).
  apply (PI_irrational_nat (Z.abs_nat p) (Z.abs_nat q)); [lia|].
  rewrite !INR_IZR_INZ, !Zabs2Nat.id_abs, !abs_IZR.
  assert (Hp : (0 < IZR p / IZR q)%R) by lra.
  rewrite E. unfold Rdiv.
  rewrite <- (Rabs_inv (IZR q)), <- Rabs_mult.
  symmetry. apply Rabs_pos_eq. unfold Rdiv in Hp. lra.
Qed.

(** ** Rational numbers *)

Lemma rational_IZR (z : Z) : rational (IZR z).
Proof. exists z, 1%Z. split; [done|]. field. Qed.

Lemma rational_plus (x y : R) : rational x -> rational y -> rational (x + y).
Proof.
  intros (p & q & Hq & ->) (p' & q' & Hq' & ->).
  exists (p * q' + p' * q)%Z, (q * q')%Z. split; [lia|].
  rewrite plus_IZR, !mult_IZR. field. split; by apply not_0_IZR.
Qed.

Lemma rational_mult (x y : R) : rational x -> rational y -> rational (x * y).
Proof.
  intros (p & q & Hq & ->) (p' & q' & Hq' & ->).
  exists (p * p')%Z, (q * q')%Z. split; [lia|].
  rewrite !mult_IZR. field. split; by apply not_0_IZR.
Qed.

Lemma rational_minus (x y : R) : rational x -> rational y -> rational (x - y).
Proof.
  intros Hx Hy. replace (x - y)%R with (x + IZR (-1) * y)%R by (simpl; ring).
  by repeat first [apply rational_plus|apply rational_mult|apply rational_IZR].
Qed.

Lemma rational_decimal (p q : Z) (x : R) :
  q <> 0%Z -> x = (IZR p / IZR q)%R -> rational x.
Proof. intros Hq ->. by exists p, q. Qed.

(** No rational number is a positive multiple of a fraction of the full
    turn. *)
Lemma turn_fraction_irrational (m n : nat) (x : R) :
  rational x -> (0 < m)%nat -> (0 < n)%nat ->
  x <> (INR m * (2 * PI / INR n))%R.
Proof.
  intros (p & q & Hq & ->) Hm Hn E.
  assert (HQ : IZR q <> 0%R) by (by apply not_0_IZR).
  assert (HM : (0 < INR m)%R) by (by apply lt_0_INR).
  assert (HN : (0 < INR n)%R) by (by apply lt_0_INR).
  apply (PI_irrational (p * Z.of_nat n) (2 * q * Z.of_nat m)); [lia|].
  rewrite !mult_IZR, <- !INR_IZR_INZ.
  transitivity (IZR p / IZR q * INR n / (2 * INR m))%R.
  - rewrite E. field. split; lra.
  - field. split_and!; lra.
Qed.

(** ** The jitter of one band *)

Lemma PI_gt_3 : (3 < PI)%R.
Proof. pose proof PI2_3_2. lra. Qed.

(** Two points given in polar form with positive radii and angles less than
    a full turn apart are different points. *)
Lemma polar_injective (r1 r2 a1 a2 : R) :
  (0 < r1 -> 0 < r2 -> 0 < a2 - a1 < 2 * PI ->
   r1 * cos a1 = r2 * cos a2 -> r1 * sin a1 = r2 * sin a2 -> False)%R.
Proof.
  intros H1 H2 [Hd0 Hd2] Hc Hs.
  pose proof (sin2_cos2 a1) as E1. pose proof (sin2_cos2 a2) as E2.
  unfold Rsqr in E1, E2.
  assert (Hr : (r1 * r1 = r2 * r2)%R).
  { transitivity ((r1 * cos a1) * (r1 * cos a1)
                  + (r1 * sin a1) * (r1 * sin a1))%R.
    - transitivity (r1 * r1 * (sin a1 * sin a1 + cos a1 * cos a1))%R.
      + rewrite E1. ring.
      + ring.
    - rewrite Hc, Hs.
      transitivity (r2 * r2 * (sin a2 * sin a2 + cos a2 * cos a2))%R.
      + ring.
      + rewrite E2. ring. }
  assert (Heq : r1 = r2) by nra. subst r2.
  assert (Hc' : cos a1 = cos a2) by nra.
  assert (Hs' : sin a1 = sin a2) by nra.
  assert (Hsd : sin (a2 - a1) = 0%R).
  { rewrite sin_minus, Hc', Hs'. ring. }
  assert (Hcd : cos (a2 - a1) = 1%R).
  { rewrite cos_minus, Hc', Hs', <- E2. ring. }
  destruct (sin_eq_O_2PI_0 (a2 - a1)) as [E | [E | E]]; try lra.
  rewrite E, cos_PI in Hcd. lra.
Qed.

Section BandJitter.
Context {G : RandomState} {HG : UnitInterval G}.
Local Open Scope R_scope.

Lemma uniform_range (low high : R) (g : rng) :
  low < high ->
  low <= (uniform low high g).1 < high.
Proof.
  intros Hlt. unfold uniform. pose proof (random_sample_range g) as Hu.
  destruct (random_sample g) as [u g']. simpl in *. nra.
Qed.

Lemma uniform_array_spec (low high : R) (size : nat) (g : rng) :
  low < high ->
  length (uniform_array low high size g).1 = size
  /\ Forall (fun v => low <= v < high) (uniform_array low high size g).1.
Proof.
  intros Hlt. revert g; induction size as [|size IH]; intros g; simpl.
  - by split.
  - pose proof (uniform_range low high g Hlt) as Hv.
    destruct (uniform low high g) as [v g1]. simpl in Hv.
    destruct (IH g1) as [Hlen Hall].
    destruct (uniform_array low high size g1) as [vs g2]. simpl in *.
    split; [by rewrite Hlen|by constructor].
Qed.

Lemma jitter_points_length (angle_step : R) (i : nat) (rv : list R)
    (g : rng) :
  length (jitter_points angle_step i rv g).1 = length rv.
Proof.
  revert i g; induction rv as [|radius rv IH]; intros i g; simpl; [done|].
  destruct (uniform _ _ g) as [p g1].
  specialize (IH (S i) g1).
  destruct (jitter_points angle_step (S i) rv g1) as [rest g2].
  simpl in *. by rewrite IH.
Qed.

(** The point of index [k]: the radius of that index, and the angle
    [(i + k) * angle_step] moved by less than 0.3 radian. *)
Lemma jitter_points_lookup (angle_step : R) (i : nat) (rv : list R)
    (g : rng) (k : nat) (radius : R) :
  rv !! k = Some radius ->
  exists perturbation : R,
    -0.3 <= perturbation < 0.3
    /\ (jitter_points angle_step i rv g).1 !! k
       = Some (radius * cos (INR (i + k) * angle_step + perturbation)
                 * jitter_strength_x,
               radius * sin (INR (i + k) * angle_step + perturbation)
                 * jitter_strength_y).
Proof.
  revert i g k; induction rv as [|r0 rv IH]; intros i g k Hk; [done|].
  simpl.
  pose proof (uniform_range (-0.3) 0.3 g ltac:(lra)) as Hp.
  destruct (uniform _ _ g) as [p g1]. simpl in Hp.
  specialize (IH (S i) g1).
  destruct (jitter_points angle_step (S i) rv g1) as [rest g2].
  destruct k as [|k]; simpl in *.
  - injection Hk as <-. exists p. split; [done|].
    by rewrite Nat.add_0_r.
  - destruct (IH k Hk) as [p' [Hp' Hl]]. exists p'. split; [done|].
    rewrite Hl. by rewrite Nat.add_succ_r.
Qed.

Lemma band_jitter_length (n : nat) (g : rng) :
  n <> 0%nat -> length (band_jitter n g).1 = n.
Proof.
  intros Hn. unfold band_jitter.
  destruct (n =? 1)%nat eqn:E; [by apply Nat.eqb_eq in E|].
  destruct (uniform_array_spec 0.3 1.0 n g ltac:(lra)) as [Hlen _].
  destruct (uniform_array 0.3 1.0 n g) as [rv g1]. simpl in *.
  by rewrite jitter_points_length.
Qed.

(** Every jitter pair lies in the box of half-width 0.45 and half-height
    2.5. *)
Lemma band_jitter_bounds (n : nat) (g : rng) (j : R * R) :
  j ∈ (band_jitter n g).1 ->
  Rabs j.1 <= 0.45 /\ Rabs j.2 <= 2.5.
Proof.
  unfold band_jitter. destruct (n =? 1)%nat.
  - simpl. intros Hj. apply list_elem_of_singleton in Hj as ->. simpl.
    rewrite Rabs_R0. lra.
  - destruct (uniform_array_spec 0.3 1.0 n g ltac:(lra)) as [_ Hall].
    destruct (uniform_array 0.3 1.0 n g) as [rv g1]. simpl in *.
    intros Hj. apply list_elem_of_lookup in Hj as [k Hk].
    assert (Hlt : (k < length rv)%nat).
    { rewrite <- (jitter_points_length (2 * PI / INR n) 0 rv g1).
      apply lookup_lt_is_Some. eauto. }
    apply lookup_lt_is_Some in Hlt as [radius Hr].
    destruct (jitter_points_lookup (2 * PI / INR n) 0 rv g1 k radius Hr)
      as [p [_ Hl]].
    rewrite Hk in Hl. injection Hl as ->. simpl.
    pose proof (proj1 (Forall_lookup _ _) Hall k radius Hr) as Hrad.
    simpl in Hrad.
    set (a := INR k * (2 * PI / INR n) + p).
    pose proof (COS_bound a) as Hc. pose proof (SIN_bound a) as Hs.
    assert (Hrc : -1 <= radius * cos a <= 1) by nra.
    assert (Hrs : -1 <= radius * sin a <= 1) by nra.
    unfold jitter_strength_x, jitter_strength_y.
    split; apply Rabs_le; lra.
Qed.

(** In a band of two to ten rows no two jitter pairs are equal. *)
Lemma band_jitter_distinct (n : nat) (g : rng) (k1 k2 : nat)
    (j1 j2 : R * R) :
  (2 <= n <= 10)%nat -> (k1 < k2)%nat ->
  (band_jitter n g).1 !! k1 = Some j1 ->
  (band_jitter n g).1 !! k2 = Some j2 ->
  j1 <> j2.
Proof.
  intros [Hn2 Hn10] Hk. unfold band_jitter.
  destruct (n =? 1)%nat eqn:E; [apply Nat.eqb_eq in E; lia|].
  destruct (uniform_array_spec 0.3 1.0 n g ltac:(lra)) as [Hlen Hall].
  destruct (uniform_array 0.3 1.0 n g) as [rv g1]. simpl in *.
  intros H1 H2.
  assert (Hlt2 : (k2 < n)%nat).
  { rewrite <- Hlen,
      <- (jitter_points_length (2 * PI / INR n) 0 rv g1).
    apply lookup_lt_is_Some. eauto. }
  assert (Hr1 : is_Some (rv !! k1)) by (apply lookup_lt_is_Some; lia).
  assert (Hr2 : is_Some (rv !! k2)) by (apply lookup_lt_is_Some; lia).
  destruct Hr1 as [r1 Hr1]. destruct Hr2 as [r2 Hr2].
  destruct (jitter_points_lookup (2 * PI / INR n) 0 rv g1 k1 r1 Hr1)
    as [p1 [Hp1 Hl1]].
  destruct (jitter_points_lookup (2 * PI / INR n) 0 rv g1 k2 r2 Hr2)
    as [p2 [Hp2 Hl2]].
  rewrite H1 in Hl1. rewrite H2 in Hl2.
  injection Hl1 as ->. injection Hl2 as ->.
  pose proof (proj1 (Forall_lookup _ _) Hall k1 r1 Hr1) as Hrad1.
  pose proof (proj1 (Forall_lookup _ _) Hall k2 r2 Hr2) as Hrad2.
  simpl in Hrad1, Hrad2. simpl (0 + _)%nat.
  intros Heq. injection Heq as Hx Hy.
  unfold jitter_strength_x in Hx. unfold jitter_strength_y in Hy.
  set (s := 2 * PI / INR n) in *.
  assert (HN2 : 2 <= INR n) by (apply (le_INR 2); lia).
  assert (HN10 : INR n <= 10).
  { pose proof (le_INR n 10 Hn10) as H. simpl in H. lra. }
  assert (Hs : s * INR n = 2 * PI) by (unfold s; field; lra).
  assert (HK : INR k1 + 1 <= INR k2).
  { rewrite <- S_INR. apply le_INR. lia. }
  assert (HK2 : INR k2 + 1 <= INR n).
  { rewrite <- S_INR. apply le_INR. lia. }
  assert (HK1 : 0 <= INR k1) by apply pos_INR.
  pose proof PI_gt_3 as Hpi.
  assert (Hs6 : 0.6 < s) by nra.
  apply (polar_injective r1 r2 (INR k1 * s + p1) (INR k2 * s + p2));
    [lra|lra| |lra|lra].
  split; nra.
Qed.
End BandJitter.

(** Two points given in polar form with positive radii that are the same
    point have angles a whole number of turns apart. *)
Lemma polar_same (r1 r2 a1 a2 : R) :
  (0 < r1 -> 0 < r2 ->
   r1 * cos a1 = r2 * cos a2 -> r1 * sin a1 = r2 * sin a2 ->
   sin (a2 - a1) = 0 /\ cos (a2 - a1) = 1)%R.
Proof.
  intros H1 H2 Hc Hs.
  pose proof (sin2_cos2 a1) as E1. pose proof (sin2_cos2 a2) as E2.
  unfold Rsqr in E1, E2.
  assert (Hr : (r1 * r1 = r2 * r2)%R).
  { transitivity ((r1 * cos a1) * (r1 * cos a1)
                  + (r1 * sin a1) * (r1 * sin a1))%R.
    - transitivity (r1 * r1 * (sin a1 * sin a1 + cos a1 * cos a1))%R.
      + rewrite E1. ring.
      + ring.
    - rewrite Hc, Hs.
      transitivity (r2 * r2 * (sin a2 * sin a2 + cos a2 * cos a2))%R.
      + ring.
      + rewrite E2. ring. }
  assert (Heq : r1 = r2) by nra. subst r2.
  assert (Hc' : cos a1 = cos a2) by nra.
  assert (Hs' : sin a1 = sin a2) by nra.
  split.
  - rewrite sin_minus, Hc', Hs'. ring.
  - rewrite cos_minus, Hc', Hs', <- E2. ring.
Qed.

(** Between half a turn back and a turn and a half forth, the whole turns
    are 0 and the full turn. *)
Lemma whole_turn (d : R) :
  (- PI < d < 3 * PI -> sin d = 0 -> cos d = 1 -> d = 0 \/ d = 2 * PI)%R.
Proof.
  intros [Hlo Hhi] Hs Hc. pose proof PI_RGT_0 as Hpi.
  destruct (Rlt_le_dec d 0) as [Hneg | Hpos].
  - exfalso.
    assert (E : sin (- d) = 0%R) by (rewrite sin_neg, Hs; ring).
    destruct (sin_eq_O_2PI_0 (- d)) as [E' | [E' | E']]; lra.
  - destruct (Rle_lt_dec d (2 * PI)) as [Hle | Hgt].
    + destruct (sin_eq_O_2PI_0 d) as [E | [E | E]]; try lra; auto.
      rewrite E, cos_PI in Hc. lra.
    + exfalso.
      assert (E : sin (d - 2 * PI) = 0%R).
      { rewrite sin_minus, Hs, Hc, sin_2PI, cos_2PI. ring. }
      destruct (sin_eq_O_2PI_0 (d - 2 * PI)) as [E' | [E' | E']]; lra.
Qed.

Section BandJitterRational.
Context {G : RandomState} {HG : UnitInterval G} {HQ : RationalDraws G}.
Local Open Scope R_scope.

Lemma uniform_rational (low high : R) (g : rng) :
  rational low -> rational high -> rational (uniform low high g).1.
Proof.
  intros Hl Hh. unfold uniform. pose proof (random_sample_rational g) as Hu.
  destruct (random_sample g) as [u g']. simpl in *.
  apply rational_plus; [done|].
  apply rational_mult; [|done]. by apply rational_minus.
Qed.

(** The point of index [k], with a rational perturbation of its angle. *)
Lemma jitter_points_lookup_rational (angle_step : R) (i : nat)
    (rv : list R) (g : rng) (k : nat) (radius : R) :
  rv !! k = Some radius ->
  exists perturbation : R,
    -0.3 <= perturbation < 0.3
    /\ rational perturbation
    /\ (jitter_points angle_step i rv g).1 !! k
       = Some (radius * cos (INR (i + k) * angle_step + perturbation)
                 * jitter_strength_x,
               radius * sin (INR (i + k) * angle_step + perturbation)
                 * jitter_strength_y).
Proof.
  revert i g k; induction rv as [|r0 rv IH]; intros i g k Hk; [done|].
  simpl.
  pose proof (uniform_range (-0.3) 0.3 g ltac:(lra)) as Hp.
  assert (Hq : rational (uniform (-0.3) 0.3 g).1).
  { apply uniform_rational.
    - apply (rational_decimal (-3) 10); [done|lra].
    - apply (rational_decimal 3 10); [done|lra]. }
  destruct (uniform _ _ g) as [p g1]. simpl in Hp, Hq.
  specialize (IH (S i) g1).
  destruct (jitter_points angle_step (S i) rv g1) as [rest g2].
  destruct k as [|k]; simpl in *.
  - injection Hk as <-. exists p. split_and!; [lra|lra|done|].
    by rewrite Nat.add_0_r.
  - destruct (IH k Hk) as (p' & Hp' & Hq' & Hl). exists p'.
    split_and!; [lra|lra|done|].
    rewrite Hl. by rewrite Nat.add_succ_r.
Qed.

(** In a band of any size no two jitter pairs are equal: the perturbations
    are rational, and no rational number makes up for a fraction of the full
    turn. *)
Lemma band_jitter_distinct_rational (n : nat) (g : rng) (k1 k2 : nat)
    (j1 j2 : R * R) :
  (k1 < k2)%nat ->
  (band_jitter n g).1 !! k1 = Some j1 ->
  (band_jitter n g).1 !! k2 = Some j2 ->
  j1 <> j2.
Proof.
  intros Hk. unfold band_jitter.
  destruct (n =? 1)%nat eqn:E.
  { intros _ H2. by destruct k2 as [|[|k2]]; [lia| |]. }
  destruct (uniform_array_spec 0.3 1.0 n g ltac:(lra)) as [Hlen Hall].
  destruct (uniform_array 0.3 1.0 n g) as [rv g1]. simpl in *.
  intros H1 H2.
  assert (Hlt2 : (k2 < n)%nat).
  { rewrite <- Hlen,
      <- (jitter_points_length (2 * PI / INR n) 0 rv g1).
    apply lookup_lt_is_Some. eauto. }
  assert (Hr1 : is_Some (rv !! k1)) by (apply lookup_lt_is_Some; lia).
  assert (Hr2 : is_Some (rv !! k2)) by (apply lookup_lt_is_Some; lia).
  destruct Hr1 as [r1 Hr1]. destruct Hr2 as [r2 Hr2].
  destruct (jitter_points_lookup_rational (2 * PI / INR n) 0 rv g1 k1 r1 Hr1)
    as (p1 & Hp1 & Hq1 & Hl1).
  destruct (jitter_points_lookup_rational (2 * PI / INR n) 0 rv g1 k2 r2 Hr2)
    as (p2 & Hp2 & Hq2 & Hl2).
  rewrite H1 in Hl1. rewrite H2 in Hl2.
  injection Hl1 as ->. injection Hl2 as ->.
  pose proof (proj1 (Forall_lookup _ _) Hall k1 r1 Hr1) as Hrad1.
  pose proof (proj1 (Forall_lookup _ _) Hall k2 r2 Hr2) as Hrad2.
  simpl in Hrad1, Hrad2. simpl (0 + _)%nat.
  intros Heq. injection Heq as Hx Hy.
  unfold jitter_strength_x in Hx. unfold jitter_strength_y in Hy.
  set (s := 2 * PI / INR n) in *.
  assert (HN2 : 2 <= INR n) by (apply (le_INR 2); lia).
  assert (Hs : s * INR n = 2 * PI) by (unfold s; field; lra).
  assert (HK : INR k1 + 1 <= INR k2).
  { rewrite <- S_INR. apply le_INR. lia. }
  assert (HK2 : INR k2 + 1 <= INR n).
  { rewrite <- S_INR. apply le_INR. lia. }
  assert (HK1 : 0 <= INR k1) by apply pos_INR.
  pose proof PI_RGT_0 as Hpi.
  assert (Hs0 : 0 < s) by nra.
  assert (Hspi : s <= PI) by nra.
  destruct (polar_same r1 r2 (INR k1 * s + p1) (INR k2 * s + p2))
    as [Hsin Hcos]; [lra|lra|lra|lra|].
  assert (Hlo : 0 <= (INR k2 - INR k1 - 1) * s) by (apply Rmult_le_pos; lra).
  assert (Hhi : 0 <= (INR n - 1 - (INR k2 - INR k1)) * s)
    by (apply Rmult_le_pos; lra).
  pose proof PI_gt_3 as Hpi3.
  assert (Hturn : - PI < INR k2 * s + p2 - (INR k1 * s + p1) < 3 * PI)
    by (split; lra).
  destruct (whole_turn _ Hturn Hsin Hcos) as [Hd | Hd].
  - apply (turn_fraction_irrational (k2 - k1) n (p1 - p2));
      [by apply rational_minus|lia|lia|].
    rewrite minus_INR by lia. fold s. lra.
  - apply (turn_fraction_irrational (n - k2 + k1) n (p2 - p1));
      [by apply rational_minus|lia|lia|].
    rewrite plus_INR, minus_INR by lia. fold s. nra.
Qed.
End BandJitterRational.

Lemma band_mask_true (band : pystr) (r : LayoutRow) :
  band_mask band r = true <-> Employee_Band_Standard (row r) = Some band.
Proof. unfold band_mask. apply bool_decide_eq_true. Qed.

Lemma band_mask_other (band band' : pystr) (r : LayoutRow) :
  band_mask band r = true -> band' <> band -> band_mask band' r = false.
Proof.
  rewrite band_mask_true. intros H Hne. unfold band_mask.
  apply bool_decide_eq_false. congruence.
Qed.

Lemma rank_in_band_lt (band : pystr) (df : list LayoutRow) (i : nat)
    (r : LayoutRow) :
  df !! i = Some r -> band_mask band r = true ->
  (rank_in_band band df i < count_band band df)%nat.
Proof.
  intros Hi Hm. unfold rank_in_band, count_band.
  rewrite <- (take_drop_middle df i r Hi) at 2.
  rewrite List.filter_app, length_app. simpl. rewrite Hm. simpl. lia.
Qed.

(** Rows of one band that come later in the frame have a larger rank. *)
Lemma rank_in_band_mono (band : pystr) (df : list LayoutRow) (i1 i2 : nat)
    (r1 : LayoutRow) :
  (i1 < i2)%nat -> df !! i1 = Some r1 -> band_mask band r1 = true ->
  (rank_in_band band df i1 < rank_in_band band df i2)%nat.
Proof.
  intros Hlt Hi Hm. unfold rank_in_band.
  assert (Hi' : take i2 df !! i1 = Some r1) by (by rewrite lookup_take_lt).
  pose proof (rank_in_band_lt band (take i2 df) i1 r1 Hi' Hm) as H.
  unfold rank_in_band, count_band in H.
  rewrite take_take in H. by rewrite Nat.min_l in H by lia.
Qed.

Section JitterBand.
Context {G : RandomState} {HG : UnitInterval G}.

(** What the loop does to the rows of a band it visits: they take, in row
    order, the jitter pairs drawn for a band of that size. *)
Lemma jitter_bands_band (band_order : list pystr) (df : list LayoutRow)
    (g : rng) (band : pystr) :
  NoDup band_order -> band ∈ band_order ->
  exists g' : rng,
    forall (i : nat) (r : LayoutRow),
      df !! i = Some r -> band_mask band r = true ->
      exists j : R * R,
        (band_jitter (count_band band df) g').1 !! rank_in_band band df i
        = Some j
        /\ (jitter_bands band_order df g).1 !! i = Some (set_jitter j r).
Proof.
  intros Hnd. revert df g.
  induction Hnd as [|h bs Hh Hnd IH]; intros df g Hin.
  { by apply elem_of_nil in Hin. }
  apply elem_of_cons in Hin as [-> | Hin]; simpl.
  - fold (count_band h df). exists g. intros i r Hi Hm.
    pose proof (rank_in_band_lt h df i r Hi Hm) as Hlt.
    destruct (count_band h df =? 0)%nat eqn:Hn.
    { apply Nat.eqb_eq in Hn. lia. }
    apply Nat.eqb_neq in Hn.
    pose proof (band_jitter_length (count_band h df) g Hn) as Hlen.
    destruct (band_jitter (count_band h df) g) as [jitter g1]. simpl in *.
    rewrite <- Hlen in Hlt. apply lookup_lt_is_Some in Hlt as [j Hj].
    exists j. split; [done|].
    apply jitter_bands_other.
    + by rewrite assign_jitter_lookup, Hi; simpl; rewrite Hm, Hj.
    + intros b Hb. apply (band_mask_other h); [done|]. by intros ->.
  - fold (count_band h df).
    assert (Hne : band <> h) by (by intros ->).
    destruct (count_band h df =? 0)%nat; [by apply IH|].
    destruct (band_jitter (count_band h df) g) as [jitter g1].
    destruct (IH (assign_jitter h jitter df) g1 Hin) as [g' Hg'].
    exists g'. intros i r Hi Hm.
    rewrite <- (count_band_rows band _ _ (assign_jitter_rows h jitter df)).
    rewrite <- (rank_in_band_rows band _ _ i
                  (assign_jitter_rows h jitter df)).
    apply Hg'; [|done].
    rewrite assign_jitter_lookup, Hi. simpl.
    by rewrite (band_mask_other band h r Hm).
Qed.
End JitterBand.

(** ** The plotted frame *)

Lemma halves_unit_interval : UnitInterval halves.
Proof. intros g. simpl. lra. Defined.

Lemma halves_rational : RationalDraws halves.
Proof. intros g. exists 1%Z, 2%Z. split; [done|]. simpl. lra. Defined.

Lemma band_to_numeric_lookup (band : pystr) (k : nat) :
  band_to_numeric create_employee_band_order !! band = Some k
  <-> create_employee_band_order !! k = Some band.
Proof.
  assert (H12 : band_1_5 <> band_6_19) by discriminate.
  assert (H13 : band_1_5 <> band_20_49) by discriminate.
  assert (H23 : band_6_19 <> band_20_49) by discriminate.
  unfold band_to_numeric, create_employee_band_order. simpl. split.
  - destruct (decide (band = band_20_49)) as [-> | N3].
    { rewrite lookup_insert_eq. by intros [= <-]. }
    rewrite lookup_insert_ne by done.
    destruct (decide (band = band_6_19)) as [-> | N2].
    { rewrite lookup_insert_eq. by intros [= <-]. }
    rewrite lookup_insert_ne by done.
    destruct (decide (band = band_1_5)) as [-> | N1].
    { rewrite lookup_insert_eq. by intros [= <-]. }
    rewrite lookup_insert_ne by done. by rewrite lookup_empty.
  - destruct k as [|[|[|k]]]; simpl; intros [= <-].
    + rewrite !lookup_insert_ne by done. by rewrite lookup_insert_eq.
    + rewrite lookup_insert_ne by done. by rewrite lookup_insert_eq.
    + by rewrite lookup_insert_eq.
Qed.

Lemma band_to_numeric_None (band : pystr) :
  band ∉ create_employee_band_order ->
  band_to_numeric create_employee_band_order !! band = None.
Proof.
  intros Hn. destruct (band_to_numeric _ !! band) as [k|] eqn:E; [|done].
  exfalso. apply Hn. apply band_to_numeric_lookup in E.
  apply list_elem_of_lookup. eauto.
Qed.

Lemma NoDup_create_employee_band_order : NoDup create_employee_band_order.
Proof.
  unfold create_employee_band_order.
  repeat (apply NoDup_cons; split;
          [rewrite ?elem_of_cons, elem_of_nil;
           intros H; repeat (destruct H as [H | H]; [discriminate H|]); done|]).
  apply NoDup_nil_2.
Qed.

Lemma iloc_fmap {A B} (f : A -> B) (l : list A) (i : Z) :
  iloc (f <$> l) i = f <$> iloc l i.
Proof.
  unfold iloc. rewrite length_fmap.
  destruct (0 <=? i)%Z; [apply list_lookup_fmap|].
  destruct (_ <=? i)%Z; [apply list_lookup_fmap|done].
Qed.

Lemma iloc_out_of_range {A} (l : list A) (i : Z) :
  (Z.of_nat (length l) <= i)%Z -> iloc l i = None.
Proof.
  intros H. unfold iloc.
  destruct (0 <=? i)%Z eqn:E; [|apply Z.leb_gt in E; lia].
  apply lookup_ge_None. lia.
Qed.

Section PlottedFrame.
Context {G : RandomState}.

Lemma layout_rows (band_order : list pystr) (df : DataFrame) :
  (fun p => row (layout_row p)) <$> (layout band_order df).1 = df.
Proof.
  unfold layout.
  pose proof (jitter_bands_rows band_order (init_layout df) (seed 42)) as H.
  destruct (jitter_bands band_order (init_layout df) (seed 42))
    as [dfp g]. simpl in *.
  change (map ?f ?l) with (f <$> l). rewrite <- list_fmap_compose.
  change (row <$> dfp = row <$> init_layout df) in H.
  etrans; [exact H|]. unfold init_layout.
  change (map ?f ?l) with (f <$> l). rewrite <- list_fmap_compose.
  apply list_fmap_id.
Qed.

Lemma layout_plotted (band_order : list pystr) (df : DataFrame) :
  (layout band_order df).1
  = map (position (band_to_numeric band_order))
      (jitter_bands band_order (init_layout df) (seed 42)).1.
Proof. unfold layout. by destruct (jitter_bands _ _ _). Qed.

Lemma layout_generator (band_order : list pystr) (df : DataFrame) :
  (layout band_order df).2
  = (jitter_bands band_order (init_layout df) (seed 42)).2.
Proof. unfold layout. by destruct (jitter_bands _ _ _). Qed.

(** Row [i] of the plotted frame is row [i] of the jittered frame with its
    position. *)
Lemma layout_lookup (band_order : list pystr) (df : DataFrame) (i : nat)
    (r : Row) :
  df !! i = Some r ->
  exists l : LayoutRow,
    (jitter_bands band_order (init_layout df) (seed 42)).1 !! i = Some l
    /\ row l = r
    /\ (layout band_order df).1 !! i
       = Some (position (band_to_numeric band_order) l).
Proof.
  intros Hi. unfold layout.
  pose proof (jitter_bands_rows band_order (init_layout df) (seed 42)) as H.
  destruct (jitter_bands band_order (init_layout df) (seed 42))
    as [dfp g]. simpl in *.
  assert (Hr : (row <$> dfp) !! i = Some r).
  { change (row <$> dfp) with (map row dfp). rewrite H. unfold init_layout.
    rewrite List.map_map. simpl. by rewrite List.map_id. }
  rewrite list_lookup_fmap in Hr.
  destruct (dfp !! i) as [l|] eqn:El; [|done].
  simpl in Hr. injection Hr as Hr.
  exists l. split_and!; [done|done|].
  change (map ?f ?l) with (f <$> l). by rewrite list_lookup_fmap, El.
Qed.

Lemma init_layout_lookup (df : DataFrame) (i : nat) (r : Row) :
  df !! i = Some r ->
  init_layout df !! i
  = Some {| row := r; count := band_count df r;
            x_jitter := 0; y_jitter := 0 |}.
Proof.
  intros Hi. unfold init_layout. change (map ?f ?l) with (f <$> l).
  by rewrite list_lookup_fmap, Hi.
Qed.

(** [create_bubble_chart] on a frame that is not empty. *)
Lemma create_bubble_chart_plot (df : DataFrame) (is_rejected : bool)
    (event : Event) (w : World) :
  df <> [] ->
  let plotted := layout create_employee_band_order
                   (map (banded create_employee_band_order) df) in
  let handled := handle_click plotted.1 is_rejected event (session w) in
  create_bubble_chart df is_rejected event w
  = {| df_plot := plotted.1; outcome := handled.1;
       world := {| generator := plotted.2; session := handled.2 |} |}.
Proof.
  intros Hne. destruct df as [|r df]; [done|].
  unfold create_bubble_chart.
  rewrite (assign_band_columns_eq _ _ tokenised_create_employee_band_order).
  destruct (layout _ _) as [pl g]. simpl.
  by destruct (handle_click pl is_rejected event (session w)).
Qed.

Lemma create_bubble_chart_df_plot (df : DataFrame) (is_rejected : bool)
    (event : Event) (w : World) :
  df_plot (create_bubble_chart df is_rejected event w)
  = match df with
    | [] => []
    | _ => (layout create_employee_band_order
              (map (banded create_employee_band_order) df)).1
    end.
Proof.
  destruct df as [|r df]; [done|].
  by rewrite create_bubble_chart_plot.
Qed.

(** The name behind a point index is the name of that row of the frame
    the chart was called with. *)
Lemma clicked_company_name (df : DataFrame) (idx : Z) :
  (fun p => Entity_Legal_Name (row (layout_row p)))
    <$> iloc (layout create_employee_band_order
                (map (banded create_employee_band_order) df)).1 idx
  = Entity_Legal_Name <$> iloc df idx.
Proof.
  rewrite <- !iloc_fmap.
  rewrite (list_fmap_compose (fun p => row (layout_row p)) Entity_Legal_Name).
  rewrite layout_rows. change (map ?f ?l) with (f <$> l).
  by rewrite <- list_fmap_compose.
Qed.
End PlottedFrame.

Lemma filter_band_mask_banded (band : pystr) (all df : DataFrame) :
  length (List.filter (band_mask band)
            (map (fun r => {| row := r; count := band_count all r;
                              x_jitter := 0; y_jitter := 0 |})
                 (map (banded create_employee_band_order) df)))
  = band_size band df.
Proof.
  unfold band_size.
  induction df as [|r df IH]; simpl; [done|].
  unfold band_mask at 1. simpl. fold (standard_band r).
  destruct (decide (standard_band r = band)) as [E | E].
  - rewrite !bool_decide_eq_true_2 by congruence. simpl. by rewrite IH.
  - rewrite !bool_decide_eq_false_2 by congruence. by rewrite IH.
Qed.

Lemma count_band_start_layout (band : pystr) (df : DataFrame) :
  count_band band (start_layout df) = band_size band df.
Proof. apply filter_band_mask_banded. Qed.

Lemma rank_in_band_start_layout (band : pystr) (df : DataFrame) (i : nat) :
  rank_in_band band (start_layout df) i = band_rank band df i.
Proof.
  unfold rank_in_band, band_rank, start_layout, init_layout.
  rewrite !List.firstn_map. apply filter_band_mask_banded.
Qed.

Section ChartRows.
Context {G : RandomState}.

(** A row whose band is not one of the band order is plotted with the
    jitter it started with and without a position. *)
Lemma chart_fallback_row (df : DataFrame) (is_rejected : bool)
    (event : Event) (w : World) (i : nat) (r : Row) :
  df !! i = Some r ->
  standard_band r ∉ create_employee_band_order ->
  df_plot (create_bubble_chart df is_rejected event w) !! i
  = Some {| layout_row :=
              {| row := banded create_employee_band_order r;
                 count := band_count
                            (map (banded create_employee_band_order) df)
                            (banded create_employee_band_order r);
                 x_jitter := 0; y_jitter := 0 |};
            x_numeric := None; x_position := None |}.
Proof.
  intros Hi Hfb.
  assert (Hne : df <> []) by (by intros ->).
  rewrite create_bubble_chart_plot by done. simpl.
  assert (Hb : map (banded create_employee_band_order) df !! i
               = Some (banded create_employee_band_order r)).
  { change (map ?f ?l) with (f <$> l). by rewrite list_lookup_fmap, Hi. }
  destruct (layout_lookup create_employee_band_order _ i _ Hb)
    as (l & Hl & _ & ->).
  rewrite (jitter_bands_other _ _ _ i _ (init_layout_lookup _ i _ Hb))
    in Hl.
  - injection Hl as <-. unfold position. simpl. fold (standard_band r).
    by rewrite band_to_numeric_None.
  - intros band Hband. unfold band_mask. simpl. fold (standard_band r).
    apply bool_decide_eq_false. intros [= E]. by rewrite E in Hfb.
Qed.

Context {HG : UnitInterval G}.

(** The rows of a band of the band order are plotted, in row order, with
    the jitter pairs drawn for a band of that size, at the rank of the
    band. *)
Lemma chart_band_rows (df : DataFrame) (band : pystr) (k : nat) :
  create_employee_band_order !! k = Some band ->
  exists g' : rng,
    forall (i : nat) (r : Row) (is_rejected : bool) (event : Event)
           (w : World),
      df !! i = Some r -> standard_band r = band ->
      exists j : R * R,
        (band_jitter (band_size band df) g').1 !! band_rank band df i
        = Some j
        /\ df_plot (create_bubble_chart df is_rejected event w) !! i
           = Some {| layout_row :=
                       {| row := banded create_employee_band_order r;
                          count := band_count
                                     (map (banded create_employee_band_order) df)
                                     (banded create_employee_band_order r);
                          x_jitter := j.1; y_jitter := j.2 |};
                     x_numeric := Some k;
                     x_position := Some (INR k + j.1)%R |}.
Proof.
  intros Hk.
  assert (Hin : band ∈ create_employee_band_order).
  { apply list_elem_of_lookup. eauto. }
  destruct (jitter_bands_band create_employee_band_order (start_layout df)
              (seed 42) band NoDup_create_employee_band_order Hin)
    as [g' Hg'].
  exists g'. intros i r is_rejected event w Hi Hband.
  assert (Hne : df <> []) by (by intros ->).
  rewrite create_bubble_chart_plot by done. simpl.
  assert (Hb : map (banded create_employee_band_order) df !! i
               = Some (banded create_employee_band_order r)).
  { change (map ?f ?l) with (f <$> l). by rewrite list_lookup_fmap, Hi. }
  destruct (layout_lookup create_employee_band_order _ i _ Hb)
    as (l & Hl & _ & ->).
  destruct (Hg' i _ (init_layout_lookup _ i _ Hb)) as (j & Hj & Hrow).
  { unfold band_mask. simpl. fold (standard_band r).
    apply bool_decide_eq_true. by rewrite Hband. }
  rewrite count_band_start_layout, rank_in_band_start_layout in Hj.
  exists j. split; [done|].
  unfold start_layout in Hrow. rewrite Hrow in Hl. injection Hl as <-.
  unfold position. simpl. fold (standard_band r). rewrite Hband.
  by rewrite (proj2 (band_to_numeric_lookup band k) Hk).
Qed.
End ChartRows.

(** ** The selection state machine *)

Section Selection.
Context {G : RandomState}.

Lemma click_resolves (df : DataFrame) (idx : Z) (E : pystr) :
  Entity_Legal_Name <$> iloc df idx = Some E ->
  df <> []
  /\ exists p : PlotRow,
       iloc (layout create_employee_band_order
               (map (banded create_employee_band_order) df)).1 idx = Some p
       /\ Entity_Legal_Name (row (layout_row p)) = E.
Proof.
  intros H. split.
  - intros ->. unfold iloc in H. rewrite !lookup_nil in H.
    by repeat case_match.
  - rewrite <- clicked_company_name in H.
    destruct (iloc _ idx) as [p|]; [|done].
    simpl in H. injection H as H. eauto.
Qed.

(** The plotted frame has the rows of the frame the chart was called
    with. *)
Lemma plotted_length (df : DataFrame) :
  length (layout create_employee_band_order
            (map (banded create_employee_band_order) df)).1
  = length df.
Proof.
  rewrite <- (length_fmap (fun p => row (layout_row p))), layout_rows.
  apply length_map.
Qed.
End Selection.

Lemma add_present (shortlisted : gset pystr) (E : pystr) :
  E ∈ shortlisted -> shortlisted ∪ {[E]} = shortlisted.
Proof.
  intros Hin. apply set_eq. intros x.
  rewrite elem_of_union, elem_of_singleton. split.
  - by intros [Hx | ->].
  - by left.
Qed.

Lemma remove_absent (shortlisted : gset pystr) (E : pystr) :
  E ∉ shortlisted -> shortlisted ∖ {[E]} = shortlisted.
Proof.
  intros Hnin. apply set_eq. intros x.
  rewrite elem_of_difference, elem_of_singleton. split.
  - by intros [Hx _].
  - intros Hx. split; [done|]. by intros ->.
Qed.

(** C1.  Whatever selection set the session holds (a session without the
    key counting as the empty set), a click on the marker of [E] in the chart
    of all companies ([is_rejected] true) stores that set with [E] added, a
    set that holds [E], and stores the set as it was when [E] was in it; a
    click on the marker of [E] in the shortlist chart stores that set with
    [E] removed, a set without [E], and stores the set as it was when [E] was
    not in it. *)
Theorem selection_toggle {G : RandomState} (df : DataFrame) (w : World)
    (idx : Z) (rest : list Z) (E : pystr) (shortlisted : gset pystr) :
  Entity_Legal_Name <$> iloc df idx = Some E ->
  session w = Some shortlisted \/ (session w = None /\ shortlisted = ∅) ->
  let click is_rejected :=
    create_bubble_chart df is_rejected (Selection (idx :: rest)) w in
  session (world (click true)) = Some (shortlisted ∪ {[E]})
  /\ E ∈ shortlisted ∪ {[E]}
  /\ (E ∈ shortlisted -> session (world (click true)) = Some shortlisted)
  /\ session (world (click false)) = Some (shortlisted ∖ {[E]})
  /\ (E ∉ shortlisted ∖ {[E]})
  /\ (E ∉ shortlisted -> session (world (click false)) = Some shortlisted)
  /\ outcome (click true) = Rerun
  /\ outcome (click false) = Rerun.
Proof.
  intros H Hs click. subst click.
  destruct (click_resolves df idx E H) as (Hne & p & Hp & Hname).
  rewrite !create_bubble_chart_plot by done. simpl.
  rewrite Hp, Hname.
  assert (Hinit : init_session (session w) = shortlisted).
  { by destruct Hs as [-> | [-> ->]]. }
  rewrite Hinit. clear.
  split_and!.
  - done.
  - apply elem_of_union. right. by apply elem_of_singleton.
  - intros Hin. simpl. by rewrite add_present.
  - case_bool_decide as Hin; simpl; [done|]. by rewrite remove_absent.
  - rewrite elem_of_difference, elem_of_singleton. by intros [_ Hn].
  - intros Hnin. by rewrite bool_decide_eq_false_2.
  - done.
  - by case_bool_decide.
Qed.

Lemma selection_toggle_witness :
  session (world (create_bubble_chart [birch; cedar] true (Selection [1%Z])
                    acme_shortlisted))
  = Some ({[lit "Acme"]} ∪ {[lit "Cedar"]}).
Proof.
  apply (selection_toggle (G := halves) [birch; cedar] acme_shortlisted 1 []
           (lit "Cedar") {[lit "Acme"]}).
  - reflexivity.
  - left. reflexivity.
Defined.

(** C7.  A click whose point index is at or beyond the number of rows of the
    plotted frame leaves the selection set as it was, and the call ends with
    the index error of the row lookup. *)
Theorem stale_click_raises {G : RandomState} (df : DataFrame)
    (is_rejected : bool) (idx : Z) (rest : list Z) (w : World) :
  df <> [] -> (Z.of_nat (length df) <= idx)%Z ->
  session (world (create_bubble_chart df is_rejected
                    (Selection (idx :: rest)) w))
  = session w
  /\ outcome (create_bubble_chart df is_rejected (Selection (idx :: rest)) w)
     = Raised.
Proof.
  intros Hne Hidx. rewrite create_bubble_chart_plot by done.
  cbv zeta. cbn [outcome world session]. unfold handle_click.
  rewrite iloc_out_of_range; [by split|].
  rewrite plotted_length. exact Hidx.
Qed.

Lemma stale_click_raises_witness :
  session (world (create_bubble_chart [acme; birch] false (Selection [2%Z])
                    no_session))
  = None
  /\ outcome (create_bubble_chart [acme; birch] false (Selection [2%Z])
                no_session)
     = Raised.
Proof.
  apply (stale_click_raises (G := halves) [acme; birch] false 2 []
           no_session).
  - discriminate.
  - simpl. lia.
Defined.

(** A click with the index 1 on a chart of one row is not a silent no-op:
    the call does not return. *)
Lemma stale_click_not_ignored :
  outcome (create_bubble_chart [acme] true (Selection [1%Z]) no_session)
  = Raised
  /\ outcome (create_bubble_chart [acme] true (Selection [1%Z]) no_session)
     <> Returned.
Proof.
  rewrite (create_bubble_chart_plot (G := halves) [acme]) by discriminate.
  cbv zeta. cbn [outcome]. unfold handle_click.
  rewrite iloc_out_of_range; [by split|].
  rewrite plotted_length. simpl. lia.
Qed.

(** ** Determinism of the layout *)

(** C2.  The generator is reseeded with 42 before the jitter loop, so the
    plotted frame of a call depends on the frame the chart is called with and
    on nothing else: not on the state of the generator at the call, nor on
    the session or the event.  Two calls on the same frame plot the same
    rows, and the chart of all companies is laid out the same whatever
    shortlist chart was drawn before it. *)
Theorem layout_deterministic {G : RandomState} (df : DataFrame)
    (r1 r2 : bool) (e1 e2 : Event) (w1 w2 : World) :
  df_plot (create_bubble_chart df r1 e1 w1)
  = df_plot (create_bubble_chart df r2 e2 w2)
  /\ (forall (shortlist shortlist' : DataFrame) (e e' : Event) (w w' : World),
        df_plot (create_bubble_chart df true e1
                   (world (create_bubble_chart shortlist false e w)))
        = df_plot (create_bubble_chart df true e1
                     (world (create_bubble_chart shortlist' false e' w'))))
  /\ (forall (filtered_df : DataFrame) (w : World),
        match (draw_charts filtered_df e1 e2 w).2 with
        | Some pool_chart =>
            df_plot pool_chart
            = df_plot (create_bubble_chart
                         (all_companies_df filtered_df (session w)) true e2 w)
        | None => True
        end)
  /\ df_plot (create_bubble_chart df r1 e1 w1)
     = match df with
       | [] => []
       | _ => map (position (band_to_numeric create_employee_band_order))
                (jitter_bands create_employee_band_order
                   (start_layout df) (seed 42)).1
       end
  /\ generator (world (create_bubble_chart df r1 e1 w1))
     = match df with
       | [] => generator w1
       | _ => (jitter_bands create_employee_band_order
                 (start_layout df) (seed 42)).2
       end.
Proof.
  split_and!.
  - by rewrite !create_bubble_chart_df_plot.
  - intros. by rewrite !create_bubble_chart_df_plot.
  - intros filtered_df w. unfold draw_charts. simpl.
    destruct (outcome _); simpl; [|done..].
    rewrite !create_bubble_chart_df_plot. unfold all_companies_df. simpl.
    reflexivity.
  - rewrite create_bubble_chart_df_plot. destruct df as [|r df]; [done|].
    apply layout_plotted.
  - destruct df as [|r df]; [done|].
    rewrite create_bubble_chart_plot by done. cbv zeta.
    cbn [world generator]. apply layout_generator.
Qed.

(** ** Rows outside the band order *)

(** C9.  A row whose band is its own trimmed label, not a band of the band
    order, is plotted with the jitter (0, 0) and with neither a band rank nor
    an x position; so all rows of one such band have the same marker. *)
Theorem fallback_band_layout {G : RandomState} (df : DataFrame)
    (is_rejected : bool) (event : Event) (w : World) (i : nat) (r : Row) :
  df !! i = Some r ->
  standard_band r ∉ create_employee_band_order ->
  exists p : PlotRow,
    df_plot (create_bubble_chart df is_rejected event w) !! i = Some p
    /\ Employee_Band_Standard (row (layout_row p)) = Some (standard_band r)
    /\ x_jitter (layout_row p) = 0%R
    /\ y_jitter (layout_row p) = 0%R
    /\ x_numeric p = None
    /\ x_position p = None
    /\ forall (i' : nat) (r' : Row),
         df !! i' = Some r' -> standard_band r' = standard_band r ->
         exists p' : PlotRow,
           df_plot (create_bubble_chart df is_rejected event w) !! i' = Some p'
           /\ marker p' = marker p.
Proof.
  intros Hi Hfb. eexists. split_and!.
  - by apply chart_fallback_row.
  - done.
  - done.
  - done.
  - done.
  - done.
  - intros i' r' Hi' Hsame. eexists. split.
    + apply chart_fallback_row; [done|]. by rewrite Hsame.
    + done.
Qed.

Lemma fallback_band_layout_witness :
  exists p : PlotRow,
    df_plot (create_bubble_chart [acme; dune; elm] true NoSelection no_session)
      !! 1%nat = Some p
    /\ marker p = (None, 0%R).
Proof.
  destruct (fallback_band_layout (G := halves) [acme; dune; elm] true
              NoSelection no_session 1 dune)
    as (p & Hp & _ & _ & Hy & _ & Hx & _).
  - reflexivity.
  - apply (bool_decide_unpack _). vm_compute. exact I.
  - exists p. split; [done|]. unfold marker. by rewrite Hx, Hy.
Defined.

(** ** Bounds of the jitter *)

Lemma Rabs_bound (a b : R) : (Rabs a <= b -> - b <= a <= b)%R.
Proof. unfold Rabs. destruct (Rcase_abs a); lra. Qed.

(** C10.  In the plotted frame every horizontal offset has magnitude at
    most 0.45 and every vertical offset magnitude at most 2.5; a row of the
    band of rank [k] has the x position [k] plus its horizontal offset, so
    within 0.45 of [k] and less than half a unit from it. *)
Theorem plotted_jitter_bounds {G : RandomState} {HG : UnitInterval G}
    (df : DataFrame) (is_rejected : bool) (event : Event) (w : World) :
  Forall
    (fun p : PlotRow =>
       (Rabs (x_jitter (layout_row p)) <= 0.45)%R
       /\ (Rabs (y_jitter (layout_row p)) <= 2.5)%R
       /\ (-2.5 <= y_jitter (layout_row p) <= 2.5)%R
       /\ forall (k : nat) (band : pystr),
            create_employee_band_order !! k = Some band ->
            Employee_Band_Standard (row (layout_row p)) = Some band ->
            x_numeric p = Some k
            /\ exists x : R,
                 x_position p = Some x
                 /\ x = (INR k + x_jitter (layout_row p))%R
                 /\ (Rabs (x - INR k) <= 0.45)%R
                 /\ (Rabs (x - INR k) < 0.5)%R)
    (df_plot (create_bubble_chart df is_rejected event w)).
Proof.
  rewrite create_bubble_chart_df_plot. destruct df as [|r0 df]; [constructor|].
  set (banded_df := map (banded create_employee_band_order) (r0 :: df)).
  unfold layout.
  pose proof (jitter_bands_Forall
                (fun l => (Rabs (x_jitter l) <= 0.45)%R
                          /\ (Rabs (y_jitter l) <= 2.5)%R)
                create_employee_band_order (init_layout banded_df) (seed 42))
    as Hloop.
  destruct (jitter_bands create_employee_band_order (init_layout banded_df)
              (seed 42)) as [dfp g]. simpl in *.
  change (map ?f ?l) with (f <$> l). apply Forall_fmap.
  eapply Forall_impl; [apply Hloop|].
  - intros n g' j l _ Hj _. simpl. by apply (band_jitter_bounds n g').
  - unfold init_layout. change (map ?f ?l) with (f <$> l).
    apply Forall_fmap, Forall_forall. intros r _. simpl.
    rewrite Rabs_R0. lra.
  - intros l [Hx Hy]. simpl. split_and!; [done|done| | |].
    + apply Rabs_bound in Hy. lra.
    + apply Rabs_bound in Hy. lra.
    + intros k band Hk Hband. rewrite Hband. simpl.
      rewrite (proj2 (band_to_numeric_lookup band k) Hk). simpl.
      split; [done|]. eexists. split_and!; [done|done| |].
      * by replace (INR k + x_jitter l - INR k)%R with (x_jitter l) by ring.
      * replace (INR k + x_jitter l - INR k)%R with (x_jitter l) by ring.
        lra.
Qed.

Lemma plotted_jitter_bounds_witness :
  Forall
    (fun p : PlotRow =>
       (Rabs (x_jitter (layout_row p)) <= 0.45)%R
       /\ (Rabs (y_jitter (layout_row p)) <= 2.5)%R)
    (df_plot (create_bubble_chart [acme; birch; cedar] true NoSelection
                no_session)).
Proof.
  eapply Forall_impl.
  - apply (plotted_jitter_bounds (G := halves) (HG := halves_unit_interval)
             [acme; birch; cedar] true NoSelection no_session).
  - intros p (Hx & Hy & _). by split.
Defined.

(** ** Markers of one band *)

Section Markers.
Context {G : RandomState} {HG : UnitInterval G}.

(** The rank of a row among the rows of its band grows with the row. *)
Lemma band_rank_mono (df : DataFrame) (i1 i2 : nat) (r1 : Row) :
  (i1 < i2)%nat -> df !! i1 = Some r1 ->
  (band_rank (standard_band r1) df i1 < band_rank (standard_band r1) df i2)%nat.
Proof.
  intros Hlt Hi.
  rewrite <- !rank_in_band_start_layout.
  assert (Hb : map (banded create_employee_band_order) df !! i1
               = Some (banded create_employee_band_order r1)).
  { change (map ?f ?l) with (f <$> l). by rewrite list_lookup_fmap, Hi. }
  eapply rank_in_band_mono; [done|by apply init_layout_lookup|].
  unfold band_mask. simpl. by apply bool_decide_eq_true.
Qed.

Lemma band_rank_lt (df : DataFrame) (i : nat) (r : Row) :
  df !! i = Some r ->
  (band_rank (standard_band r) df i < band_size (standard_band r) df)%nat.
Proof.
  intros Hi.
  rewrite <- rank_in_band_start_layout, <- count_band_start_layout.
  assert (Hb : map (banded create_employee_band_order) df !! i
               = Some (banded create_employee_band_order r)).
  { change (map ?f ?l) with (f <$> l). by rewrite list_lookup_fmap, Hi. }
  eapply rank_in_band_lt; [by apply init_layout_lookup|].
  unfold band_mask. simpl. by apply bool_decide_eq_true.
Qed.

(** Two rows of one band of the band order have different markers: in a
    band of at most ten rows for every generator, in a larger band when the
    draws are rational. *)
Lemma band_markers_distinct (df : DataFrame) (is_rejected : bool)
    (event : Event) (w : World) (k i1 i2 : nat) (r1 r2 : Row) :
  create_employee_band_order !! k = Some (standard_band r1) ->
  (band_size (standard_band r1) df <= 10)%nat \/ RationalDraws G ->
  (i1 < i2)%nat ->
  df !! i1 = Some r1 -> df !! i2 = Some r2 ->
  standard_band r2 = standard_band r1 ->
  exists p1 p2 : PlotRow,
    df_plot (create_bubble_chart df is_rejected event w) !! i1 = Some p1
    /\ df_plot (create_bubble_chart df is_rejected event w) !! i2 = Some p2
    /\ marker p1 <> marker p2.
Proof.
  intros Hk Hsize Hlt H1 H2 Hsame.
  destruct (chart_band_rows df (standard_band r1) k Hk) as [g' Hg'].
  destruct (Hg' i1 r1 is_rejected event w H1 eq_refl) as (j1 & Hj1 & Hp1).
  destruct (Hg' i2 r2 is_rejected event w H2 Hsame) as (j2 & Hj2 & Hp2).
  eexists _, _. split_and!; [exact Hp1|exact Hp2|].
  pose proof (band_rank_mono df i1 i2 r1 Hlt H1) as Hrank.
  pose proof (band_rank_lt df i2 r2 H2) as Hrank2. rewrite Hsame in Hrank2.
  assert (Hne : j1 <> j2).
  { destruct Hsize as [Hsize | HQ].
    - eapply (band_jitter_distinct (band_size (standard_band r1) df) g');
        [lia|exact Hrank|done|done].
    - eapply (band_jitter_distinct_rational
                (band_size (standard_band r1) df) g');
        [exact Hrank|done|done]. }
  unfold marker. simpl. intros [= Hx Hy]. apply Hne.
  destruct j1, j2. simpl in *. f_equal; lra.
Qed.

(** A band of one row: no jitter. *)
Lemma band_jitter_single (g : rng) (j : R * R) :
  (band_jitter 1 g).1 !! 0%nat = Some j -> j = (0, 0)%R.
Proof. unfold band_jitter. simpl. by intros [= <-]. Qed.

(** A band of two rows: the second row is placed left of the band rank. *)
Lemma band_jitter_second_of_two (g : rng) (j : R * R) :
  (band_jitter 2 g).1 !! 1%nat = Some j -> (-0.45 <= j.1 < 0)%R.
Proof.
  unfold band_jitter. simpl (2 =? 1)%nat. cbv iota.
  destruct (uniform_array_spec 0.3 1.0 2 g ltac:(lra)) as [Hlen Hall].
  destruct (uniform_array 0.3 1.0 2 g) as [rv g1]. simpl in Hlen, Hall.
  assert (Hr : is_Some (rv !! 1%nat)) by (apply lookup_lt_is_Some; lia).
  destruct Hr as [radius Hr].
  destruct (jitter_points_lookup (2 * PI / INR 2) 0 rv g1 1 radius Hr)
    as [p [Hp Hl]].
  intros Hj. simpl in Hj. simpl in Hl. rewrite Hj in Hl.
  injection Hl as ->. simpl.
  pose proof (proj1 (Forall_lookup _ _) Hall 1%nat radius Hr) as Hrad.
  simpl in Hrad.
  replace (1 * (2 * PI / (1 + 1)) + p)%R with (p + PI)%R by field.
  rewrite neg_cos.
  pose proof PI_gt_3 as Hpi.
  assert (Hc : (0 < cos p)%R) by (apply cos_gt_0; lra).
  pose proof (COS_bound p) as Hb.
  unfold jitter_strength_x. nra.
Qed.
End Markers.

Lemma Int_part_nearest (k : nat) (d : R) :
  (Rabs d <= 0.45)%R -> Int_part (INR k + d + 1 / 2) = Z.of_nat k.
Proof.
  intros Hd. apply Rabs_bound in Hd. symmetry. apply Int_part_spec.
  rewrite <- INR_IZR_INZ. lra.
Qed.

Lemma Int_part_below (k : nat) (x : R) :
  (INR k <= x < INR k + 1)%R -> Int_part x = Z.of_nat k.
Proof.
  intros Hx. symmetry. apply Int_part_spec. rewrite <- INR_IZR_INZ. lra.
Qed.




(** ** Coordinates *)

Section Coordinates.
Context {G : RandomState} {HG : UnitInterval G}.

(** The marker of a row of the band of rank [k]. *)
Lemma canonical_marker (df : DataFrame) (is_rejected : bool)
    (event : Event) (w : World) (i : nat) (r : Row) (k : nat) :
  df !! i = Some r ->
  create_employee_band_order !! k = Some (standard_band r) ->
  exists (p : PlotRow) (dx dy : R),
    df_plot (create_bubble_chart df is_rejected event w) !! i = Some p
    /\ x_jitter (layout_row p) = dx
    /\ y_jitter (layout_row p) = dy
    /\ x_numeric p = Some k
    /\ marker p = (Some (INR k + dx)%R, dy)
    /\ (Rabs dx <= 0.45)%R
    /\ (Rabs dy <= 2.5)%R.
Proof.
  intros Hi Hk.
  destruct (chart_band_rows df (standard_band r) k Hk) as [g' Hg'].
  destruct (Hg' i r is_rejected event w Hi eq_refl) as (j & Hj & Hp).
  destruct (band_jitter_bounds (band_size (standard_band r) df) g' j)
    as [Hx Hy].
  { apply list_elem_of_lookup. eauto. }
  eexists _, j.1, j.2. split_and!; [exact Hp|done..].
Qed.

(** In a frame of one row of the first band followed by two rows of the
    second, the last row is plotted between 0.55 and 1, left of its band
    rank 1, and the first row at 0. *)
Lemma second_of_two_left_of_rank (is_rejected : bool) (event : Event)
    (w : World) :
  exists (p0 p2 : PlotRow) (x2 : R),
    df_plot (create_bubble_chart [acme; birch; cedar] is_rejected event w)
      !! 0%nat = Some p0
    /\ df_plot (create_bubble_chart [acme; birch; cedar] is_rejected event w)
         !! 2%nat = Some p2
    /\ x_numeric p0 = Some 0%nat /\ x_position p0 = Some 0%R
    /\ x_numeric p2 = Some 1%nat /\ x_position p2 = Some x2
    /\ (0.55 <= x2 < 1)%R.
Proof.
  destruct (chart_band_rows [acme; birch; cedar] band_1_5 0 eq_refl)
    as [g0 Hg0].
  destruct (chart_band_rows [acme; birch; cedar] band_6_19 1 eq_refl)
    as [g1 Hg1].
  destruct (Hg0 0%nat acme is_rejected event w eq_refl eq_refl)
    as (j0 & Hj0 & Hp0).
  destruct (Hg1 2%nat cedar is_rejected event w eq_refl eq_refl)
    as (j2 & Hj2 & Hp2).
  change (band_size band_1_5 [acme; birch; cedar]) with 1%nat in Hj0.
  change (band_rank band_1_5 [acme; birch; cedar] 0) with 0%nat in Hj0.
  change (band_size band_6_19 [acme; birch; cedar]) with 2%nat in Hj2.
  change (band_rank band_6_19 [acme; birch; cedar] 2) with 1%nat in Hj2.
  apply band_jitter_single in Hj0. subst j0.
  apply band_jitter_second_of_two in Hj2.
  eexists _, _, _. split_and!; [exact Hp0|exact Hp2|done| |done|done| |].
  - simpl. f_equal. lra.
  - simpl. lra.
  - simpl. lra.
Qed.
End Coordinates.

(** C5.  A row of the band of rank [k] is plotted at the x coordinate [k]
    plus its horizontal offset and at the y coordinate of its vertical offset
    alone; the horizontal offset has magnitude at most 0.45, so the integer
    nearest to the x coordinate is [k], and rows of different bands of the
    band order never share the integer nearest to their x coordinates. *)
Theorem coordinate_structure {G : RandomState} {HG : UnitInterval G}
    (df : DataFrame) (is_rejected : bool) (event : Event) (w : World)
    (i : nat) (r : Row) (k : nat) :
  df !! i = Some r ->
  create_employee_band_order !! k = Some (standard_band r) ->
  exists (p : PlotRow) (dx dy : R),
    df_plot (create_bubble_chart df is_rejected event w) !! i = Some p
    /\ x_jitter (layout_row p) = dx
    /\ y_jitter (layout_row p) = dy
    /\ x_numeric p = Some k
    /\ marker p = (Some (INR k + dx)%R, dy)
    /\ (Rabs dx <= 0.45)%R
    /\ Int_part (INR k + dx + 1 / 2) = Z.of_nat k
    /\ forall (i' : nat) (r' : Row) (k' : nat),
         df !! i' = Some r' ->
         create_employee_band_order !! k' = Some (standard_band r') ->
         k' <> k ->
         exists (p' : PlotRow) (x' : R),
           df_plot (create_bubble_chart df is_rejected event w) !! i' = Some p'
           /\ x_position p' = Some x'
           /\ Int_part (x' + 1 / 2) <> Int_part (INR k + dx + 1 / 2).
Proof.
  intros Hi Hk.
  destruct (canonical_marker df is_rejected event w i r k Hi Hk)
    as (p & dx & dy & Hp & Hdx & Hdy & Hnum & Hm & Hbx & _).
  exists p, dx, dy. split_and!; try done.
  - by apply Int_part_nearest.
  - intros i' r' k' Hi' Hk' Hne.
    destruct (canonical_marker df is_rejected event w i' r' k' Hi' Hk')
      as (p' & dx' & dy' & Hp' & _ & _ & _ & Hm' & Hbx' & _).
    exists p', (INR k' + dx')%R. split_and!; [done|by injection Hm'|].
    rewrite !Int_part_nearest by done. lia.
Qed.

Lemma coordinate_structure_witness :
  exists (p : PlotRow) (dx : R),
    df_plot (create_bubble_chart [acme; birch; cedar] true NoSelection
               no_session) !! 2%nat = Some p
    /\ marker p = (Some (INR 1 + dx)%R, y_jitter (layout_row p))
    /\ Int_part (INR 1 + dx + 1 / 2) = 1%Z.
Proof.
  destruct (coordinate_structure (G := halves) (HG := halves_unit_interval)
              [acme; birch; cedar] true NoSelection no_session 2 cedar 1)
    as (p & dx & dy & Hp & _ & Hdy & _ & Hm & _ & Hint & _).
  - reflexivity.
  - reflexivity.
  - exists p, dx. rewrite Hdy. by split_and!.
Defined.

(** The integer part of an x coordinate is not always the band rank, and
    rows of different bands can share it: of one row in the first band and
    two in the second, the last is plotted at an x coordinate between 0.55
    and 1, of integer part 0 like that of the first row. *)
Lemma integer_part_is_not_rank :
  exists (p0 p2 : PlotRow) (x0 x2 : R),
    df_plot (create_bubble_chart [acme; birch; cedar] true NoSelection
               no_session) !! 0%nat = Some p0
    /\ df_plot (create_bubble_chart [acme; birch; cedar] true NoSelection
                  no_session) !! 2%nat = Some p2
    /\ x_numeric p0 = Some 0%nat /\ x_position p0 = Some x0
    /\ x_numeric p2 = Some 1%nat /\ x_position p2 = Some x2
    /\ Int_part x2 = 0%Z
    /\ Int_part x0 = Int_part x2.
Proof.
  destruct (second_of_two_left_of_rank (G := halves)
              (HG := halves_unit_interval) true NoSelection no_session)
    as (p0 & p2 & x2 & H0 & H2 & Hn0 & Hx0 & Hn2 & Hx2 & Hr).
  exists p0, p2, 0%R, x2.
  assert (E2 : Int_part x2 = 0%Z).
  { apply (Int_part_below 0). simpl. lra. }
  assert (E0 : Int_part 0 = 0%Z).
  { apply (Int_part_below 0). simpl. lra. }
  split_and!; try done. by rewrite E0, E2.
Qed.

(** * Further properties of the program *)

(** ** White space *)

Lemma lstrip_no_lead (s : pystr) (c : N) (t : pystr) :
  lstrip s = c :: t -> is_space c = false.
Proof.
  induction s as [|a s IH]; simpl; [done|].
  destruct (is_space a) eqn:E; [done|]. by intros [= <- _].
Qed.

Lemma lstrip_suffix (s : pystr) : exists ws : pystr, s = ws ++ lstrip s.
Proof.
  induction s as [|a s [ws IH]]; simpl.
  - by exists [].
  - destruct (is_space a).
    + exists (a :: ws). simpl. by rewrite <- IH.
    + by exists [].
Qed.

Lemma lstrip_id (s : pystr) :
  (forall c t, s = c :: t -> is_space c = false) -> lstrip s = s.
Proof.
  intros H. destruct s as [|a s]; [done|]. simpl.
  by rewrite (H a s eq_refl).
Qed.

Lemma rstrip_prefix (s : pystr) : exists ws : pystr, s = rstrip s ++ ws.
Proof.
  unfold rstrip. destruct (lstrip_suffix (rev s)) as [ws H].
  exists (rev ws). rewrite <- rev_app_distr, <- H. by rewrite rev_involutive.
Qed.

Lemma rstrip_no_trail (s : pystr) (c : N) (t : pystr) :
  rstrip s = t ++ [c] -> is_space c = false.
Proof.
  unfold rstrip. intros H. apply (lstrip_no_lead (rev s) c (rev t)).
  rewrite <- (rev_involutive (lstrip (rev s))), H, rev_app_distr. done.
Qed.

Lemma rstrip_id (s : pystr) :
  (forall c t, s = t ++ [c] -> is_space c = false) -> rstrip s = s.
Proof.
  intros H. unfold rstrip. rewrite lstrip_id; [apply rev_involutive|].
  intros c t E. apply (H c (rev t)).
  rewrite <- (rev_involutive s), E. done.
Qed.

Lemma strip_trimmed (s : pystr) : trimmed (strip s).
Proof.
  unfold strip. split.
  - intros c t E. destruct (rstrip_prefix (lstrip s)) as [ws H].
    rewrite E in H. simpl in H. by apply (lstrip_no_lead s c (t ++ ws)).
  - intros c t E. by apply (rstrip_no_trail (lstrip s) c t).
Qed.

Lemma strip_of_trimmed (s : pystr) : trimmed s -> strip s = s.
Proof.
  intros [H1 H2]. unfold strip. rewrite (lstrip_id s H1). by apply rstrip_id.
Qed.

Lemma strip_idempotent (s : pystr) : strip (strip s) = strip s.
Proof. apply strip_of_trimmed, strip_trimmed. Qed.

(** ** [load_company_data] *)

Lemma columns_set_column (name : pystr) (c : Column) (df : CsvFrame) :
  columns (set_column name c df) = columns df.
Proof.
  unfold columns. induction df as [|[n c0] df IH]; simpl; [done|].
  case_bool_decide; simpl; [done|]. by rewrite IH.
Qed.

Lemma get_column_is_Some (name : pystr) (df : CsvFrame) :
  is_Some (get_column name df) <-> name ∈ columns df.
Proof.
  unfold columns. induction df as [|[n c0] df IH]; simpl.
  - split; [by intros [? ?]|by intros ?%elem_of_nil].
  - rewrite elem_of_cons. case_bool_decide as E; simpl.
    + split; [by left|eauto].
    + rewrite IH. split; [by right|]. by intros [-> | ?].
Qed.

Lemma get_set_column_eq (name : pystr) (c : Column) (df : CsvFrame) :
  name ∈ columns df -> get_column name (set_column name c df) = Some c.
Proof.
  unfold columns. induction df as [|[n c0] df IH]; simpl.
  - by intros ?%elem_of_nil.
  - rewrite elem_of_cons. intros H. case_bool_decide as E; simpl.
    + by rewrite bool_decide_eq_true_2.
    + rewrite bool_decide_eq_false_2 by done. apply IH.
      by destruct H as [-> | H].
Qed.

Lemma get_set_column_ne (name other : pystr) (c : Column) (df : CsvFrame) :
  other <> name ->
  get_column other (set_column name c df) = get_column other df.
Proof.
  intros Hne. induction df as [|[n c0] df IH]; simpl; [done|].
  case_bool_decide as E; simpl.
  - subst n. by rewrite !bool_decide_eq_false_2 by done.
  - by rewrite IH.
Qed.

Lemma strip_column_Some (name : pystr) (df df' : CsvFrame) :
  strip_column name df = Some df' <->
  exists cells,
    get_column name df = Some (Texts cells)
    /\ df' = set_column name (Texts (map (fmap strip) cells)) df.
Proof.
  unfold strip_column. destruct (get_column name df) as [[cells|cells]|];
    simpl; split.
  - intros [= <-]. eauto.
  - by intros (cells' & [= <-] & ->).
  - done.
  - by intros (cells' & [=] & _).
  - done.
  - by intros (cells' & [=] & _).
Qed.

(** The three assignments of lines 42-44 in one: they succeed exactly on a
    frame whose three columns are of strings, and leave the frame with these
    three columns stripped. *)
Lemma strip_columns_Some (df df' : CsvFrame) :
  (df1 ← strip_column (lit "Estimated_Employee_Band") df;
   df2 ← strip_column (lit "Entity_Type") df1;
   strip_column (lit "Headquarters_Location") df2) = Some df'
  <->
  exists band type location,
    get_column (lit "Estimated_Employee_Band") df = Some (Texts band)
    /\ get_column (lit "Entity_Type") df = Some (Texts type)
    /\ get_column (lit "Headquarters_Location") df = Some (Texts location)
    /\ df' = set_column (lit "Headquarters_Location")
               (Texts (map (fmap strip) location))
               (set_column (lit "Entity_Type") (Texts (map (fmap strip) type))
                  (set_column (lit "Estimated_Employee_Band")
                     (Texts (map (fmap strip) band)) df)).
Proof.
  split.
  - intros H.
    destruct (strip_column (lit "Estimated_Employee_Band") df) as [df1|] eqn:E1;
      [|done].
    cbn -[strip_column lit] in H.
    destruct (strip_column (lit "Entity_Type") df1) as [df2|] eqn:E2; [|done].
    cbn -[strip_column lit] in H.
    apply strip_column_Some in E1 as (band & Hb & ->).
    apply strip_column_Some in E2 as (type & Ht & ->).
    apply strip_column_Some in H as (location & Hl & ->).
    rewrite get_set_column_ne in Ht by discriminate.
    rewrite !get_set_column_ne in Hl by discriminate.
    by exists band, type, location.
  - intros (band & type & location & Hb & Ht & Hl & ->).
    set (df1 := set_column (lit "Estimated_Employee_Band")
                  (Texts (map (fmap strip) band)) df).
    set (df2 := set_column (lit "Entity_Type")
                  (Texts (map (fmap strip) type)) df1).
    assert (E1 : strip_column (lit "Estimated_Employee_Band") df = Some df1).
    { apply strip_column_Some. by exists band. }
    assert (E2 : strip_column (lit "Entity_Type") df1 = Some df2).
    { apply strip_column_Some. exists type. split; [|done].
      subst df1. by rewrite get_set_column_ne. }
    rewrite E1. cbn -[strip_column lit]. rewrite E2.
    cbn -[strip_column lit]. apply strip_column_Some.
    exists location. split; [|done].
    subst df1 df2. by rewrite !get_set_column_ne.
Qed.

Lemma missing_columns_nil (df : CsvFrame) :
  truthy (List.filter (fun col => negb (bool_decide (col ∈ columns df)))
            required_columns) = false
  <-> forall c, c ∈ required_columns -> c ∈ columns df.
Proof.
  set (missing := List.filter _ _).
  assert (Hm : forall c, c ∈ missing <-> c ∈ required_columns /\ c ∉ columns df).
  { intros c. subst missing. rewrite elem_of_filter, negb_true_iff.
    by rewrite bool_decide_eq_false. }
  split.
  - intros Ht c Hc. destruct (decide (c ∈ columns df)) as [|Hn]; [done|].
    destruct missing as [|m ms]; [|done].
    exfalso. apply (elem_of_nil c), Hm. by split.
  - intros Hall. destruct missing as [|m ms] eqn:E; [done|]. exfalso.
    destruct (proj1 (Hm m)) as [Hr Hn]; [by left|]. by apply Hn, Hall.
Qed.

(** X1.  [load_company_data] returns a frame exactly when the file was read,
    the frame read has the six required columns, and the three columns that
    are stripped are columns of strings; in every other case it returns
    nothing. *)
Theorem load_company_data_succeeds_iff (read : ReadCsv) :
  (exists df', load_company_data read = inr df')
  <->
  exists df,
    read = Parsed df
    /\ (forall c, c ∈ required_columns -> c ∈ columns df)
    /\ (forall c, c ∈ stripped_columns ->
                  exists cells, get_column c df = Some (Texts cells)).
Proof.
  split.
  - intros [df' H]. destruct read as [| | |df]; try discriminate H.
    exists df. split; [done|]. unfold load_company_data in H. cbv zeta in H.
    destruct (truthy _) eqn:Em; [done|].
    pose proof (proj1 (missing_columns_nil df) Em) as Hreq.
    split; [done|].
    match type of H with
    | match ?e with _ => _ end = _ => destruct e as [df''|] eqn:Es; [|done]
    end.
    apply (proj1 (strip_columns_Some df df'')) in Es
      as (band & type & location & Hb & Ht & Hl & _).
    intros c Hc. unfold stripped_columns in Hc.
    rewrite !elem_of_cons, elem_of_nil in Hc.
    destruct Hc as [-> | [-> | [-> | []]]]; eauto.
  - intros (df & -> & Hreq & Hstr). unfold load_company_data. cbv zeta.
    rewrite (proj2 (missing_columns_nil df) Hreq).
    destruct (Hstr (lit "Estimated_Employee_Band")) as [band Hb].
    { unfold stripped_columns. rewrite !elem_of_cons. tauto. }
    destruct (Hstr (lit "Entity_Type")) as [type Ht].
    { unfold stripped_columns. rewrite !elem_of_cons. tauto. }
    destruct (Hstr (lit "Headquarters_Location")) as [location Hl].
    { unfold stripped_columns. rewrite !elem_of_cons. tauto. }
    assert (Es : exists df', (df1 ← strip_column (lit "Estimated_Employee_Band") df;
                              df2 ← strip_column (lit "Entity_Type") df1;
                              strip_column (lit "Headquarters_Location") df2)
                             = Some df').
    { eexists. apply strip_columns_Some. by exists band, type, location. }
    destruct Es as [df' Es]. rewrite Es. eauto.
Qed.

(** X2.  When the frame read lacks a required column, [load_company_data]
    reports the missing columns: exactly the required columns that the frame
    does not have, in the order of the list of required columns. *)
Theorem load_company_data_missing_columns (df : CsvFrame) (c : pystr) :
  c ∈ required_columns -> c ∉ columns df ->
  exists missing,
    load_company_data (Parsed df) = inl (MissingColumns missing)
    /\ missing `sublist_of` required_columns
    /\ forall c', c' ∈ missing <-> c' ∈ required_columns /\ c' ∉ columns df.
Proof.
  intros Hc Hn. unfold load_company_data. cbv zeta.
  set (missing := List.filter _ required_columns).
  assert (Hm : forall c', c' ∈ missing
                          <-> c' ∈ required_columns /\ c' ∉ columns df).
  { intros c'. subst missing. rewrite elem_of_filter, negb_true_iff.
    by rewrite bool_decide_eq_false. }
  exists missing. split_and!; [|apply filter_sublist|done].
  destruct missing as [|m ms] eqn:E; [|done].
  exfalso. apply (elem_of_nil c), Hm. by split.
Qed.

Lemma load_company_data_missing_columns_witness :
  exists missing,
    load_company_data (Parsed csv_without_location)
    = inl (MissingColumns missing)
    /\ missing `sublist_of` required_columns
    /\ forall c', c' ∈ missing
                  <-> c' ∈ required_columns /\ c' ∉ columns csv_without_location.
Proof.
  apply (load_company_data_missing_columns csv_without_location
           (lit "Headquarters_Location")).
  - apply (bool_decide_unpack _). vm_compute. exact I.
  - apply (bool_decide_unpack _). vm_compute. exact I.
Defined.

Lemma set_column_id (name : pystr) (c : Column) (df : CsvFrame) :
  get_column name df = Some c -> set_column name c df = df.
Proof.
  induction df as [|[n c0] df IH]; simpl; [done|].
  case_bool_decide as E.
  - by intros [= <-].
  - intros H. by rewrite IH.
Qed.

Lemma strip_cells_trimmed (cells : list (option pystr)) :
  trimmed_column (Texts (map (fmap strip) cells)).
Proof.
  simpl. change (map ?f ?l) with (f <$> l). apply Forall_fmap, Forall_forall.
  intros [s|] _ s' [= <-]. apply strip_trimmed.
Qed.

Lemma strip_cells_idempotent (cells : list (option pystr)) :
  map (fmap strip) (map (fmap strip) cells) = map (fmap strip) cells.
Proof.
  rewrite List.map_map. apply List.map_ext. intros [s|]; simpl; [|done].
  by rewrite strip_idempotent.
Qed.

(** The frame that lines 42-44 leave, column by column. *)
Lemma stripped_frame_columns (df : CsvFrame)
    (band type location : list (option pystr)) :
  get_column (lit "Estimated_Employee_Band") df = Some (Texts band) ->
  get_column (lit "Entity_Type") df = Some (Texts type) ->
  get_column (lit "Headquarters_Location") df = Some (Texts location) ->
  let df' := set_column (lit "Headquarters_Location")
               (Texts (map (fmap strip) location))
               (set_column (lit "Entity_Type") (Texts (map (fmap strip) type))
                  (set_column (lit "Estimated_Employee_Band")
                     (Texts (map (fmap strip) band)) df)) in
  columns df' = columns df
  /\ get_column (lit "Estimated_Employee_Band") df'
     = Some (Texts (map (fmap strip) band))
  /\ get_column (lit "Entity_Type") df' = Some (Texts (map (fmap strip) type))
  /\ get_column (lit "Headquarters_Location") df'
     = Some (Texts (map (fmap strip) location))
  /\ forall name, name ∉ stripped_columns ->
                  get_column name df' = get_column name df.
Proof.
  intros Hb Ht Hl df'. subst df'.
  assert (Cb : lit "Estimated_Employee_Band" ∈ columns df).
  { apply get_column_is_Some. eauto. }
  assert (Ct : lit "Entity_Type" ∈ columns df).
  { apply get_column_is_Some. eauto. }
  assert (Cl : lit "Headquarters_Location" ∈ columns df).
  { apply get_column_is_Some. eauto. }
  split_and!.
  - by rewrite !columns_set_column.
  - rewrite !get_set_column_ne by discriminate. by apply get_set_column_eq.
  - rewrite get_set_column_ne by discriminate.
    apply get_set_column_eq. by rewrite columns_set_column.
  - apply get_set_column_eq. by rewrite !columns_set_column.
  - intros name Hn. unfold stripped_columns in Hn.
    rewrite !elem_of_cons, elem_of_nil in Hn.
    rewrite !get_set_column_ne; [done|..]; intros ->; tauto.
Qed.

(** X3.  The frame that [load_company_data] returns has the columns of the
    frame read, in their order; the three stripped columns hold, cell by
    cell, the stripped strings of the frame read (missing values stay
    missing), so no string in them starts or ends with white space; every
    other column is as it was read. *)
Theorem load_company_data_strips (read : ReadCsv) (df' : CsvFrame) :
  load_company_data read = inr df' ->
  exists df,
    read = Parsed df
    /\ columns df' = columns df
    /\ (forall name, name ∉ stripped_columns ->
                     get_column name df' = get_column name df)
    /\ (forall name, name ∈ stripped_columns ->
          exists cells,
            get_column name df = Some (Texts cells)
            /\ get_column name df' = Some (Texts (map (fmap strip) cells))
            /\ column_length (Texts (map (fmap strip) cells)) = length cells
            /\ trimmed_column (Texts (map (fmap strip) cells))).
Proof.
  intros H. destruct read as [| | |df]; try discriminate H.
  exists df. split; [done|]. unfold load_company_data in H. cbv zeta in H.
  destruct (truthy _); [done|].
  match type of H with
  | match ?e with _ => _ end = _ => destruct e as [df''|] eqn:Es; [|done]
  end.
  injection H as ->.
  apply (proj1 (strip_columns_Some df df')) in Es
    as (band & type & location & Hb & Ht & Hl & ->).
  destruct (stripped_frame_columns df band type location Hb Ht Hl)
    as (Hc & Gb & Gt & Gl & Go).
  split_and!; [done|done|].
  intros name Hn. unfold stripped_columns in Hn.
  rewrite !elem_of_cons, elem_of_nil in Hn.
  destruct Hn as [-> | [-> | [-> | []]]];
    eexists; (split_and!; [eassumption|eassumption|apply length_map|
                           apply strip_cells_trimmed]).
Qed.

Lemma load_company_data_strips_witness :
  exists df,
    Parsed csv_example = Parsed df
    /\ columns csv_loaded = columns df
    /\ (forall name, name ∉ stripped_columns ->
                     get_column name csv_loaded = get_column name df).
Proof.
  destruct (load_company_data_strips (Parsed csv_example) csv_loaded)
    as (df & H1 & H2 & H3 & _).
  - vm_compute. reflexivity.
  - by exists df.
Defined.

(** X4.  Loading is idempotent: a frame that [load_company_data] returned is
    returned unchanged when it is read and loaded again. *)
Theorem load_company_data_idempotent (read : ReadCsv) (df' : CsvFrame) :
  load_company_data read = inr df' ->
  load_company_data (Parsed df') = inr df'.
Proof.
  intros H. destruct read as [| | |df]; try discriminate H.
  unfold load_company_data in H |- *. cbv zeta in H |- *.
  destruct (truthy _) eqn:Em; [done|].
  match type of H with
  | match ?e with _ => _ end = _ => destruct e as [df''|] eqn:Es; [|done]
  end.
  injection H as ->.
  apply (proj1 (strip_columns_Some df df')) in Es
    as (band & type & location & Hb & Ht & Hl & Hdf').
  destruct (stripped_frame_columns df band type location Hb Ht Hl)
    as (Hc & Gb & Gt & Gl & _).
  rewrite <- Hdf' in Hc, Gb, Gt, Gl. rewrite Hc, Em.
  assert (Es : (df1 ← strip_column (lit "Estimated_Employee_Band") df';
                df2 ← strip_column (lit "Entity_Type") df1;
                strip_column (lit "Headquarters_Location") df2) = Some df').
  { apply strip_columns_Some.
    exists (map (fmap strip) band), (map (fmap strip) type),
      (map (fmap strip) location).
    split_and!; [done|done|done|].
    rewrite !strip_cells_idempotent.
    rewrite (set_column_id _ _ df' Gb), (set_column_id _ _ df' Gt).
    by rewrite (set_column_id _ _ df' Gl). }
  by rewrite Es.
Qed.

Lemma load_company_data_idempotent_witness :
  load_company_data (Parsed csv_loaded) = inr csv_loaded.
Proof.
  apply (load_company_data_idempotent (Parsed csv_example)).
  vm_compute. reflexivity.
Defined.

(** ** The classifier and the filters *)

Lemma first_matching_band_elem (band_order : list pystr) (u b : pystr) :
  first_matching_band band_order u = Some (Some b) -> b ∈ band_order.
Proof.
  induction band_order as [|band rest IH]; simpl; [done|].
  destruct (split band !! 0%nat) as [token|]; simpl; [|done].
  destruct (contains token u).
  - intros [= <-]. by left.
  - intros H. right. by apply IH.
Qed.

(** X5.  The classifier is idempotent: the band it gives a label is
    classified as itself.  In particular a label that is, up to surrounding
    white space, one of the three bands of the band order is given that
    band. *)
Theorem classification_idempotent (u : pystr) :
  standard_of create_employee_band_order
    (standard_of create_employee_band_order u)
  = standard_of create_employee_band_order u
  /\ forall r : Row,
       strip (Estimated_Employee_Band r) ∈ create_employee_band_order ->
       standard_band r = strip (Estimated_Employee_Band r).
Proof.
  assert (Hfix : forall b, b ∈ create_employee_band_order ->
                           standard_of create_employee_band_order b = b).
  { intros b Hb. unfold create_employee_band_order in Hb.
    rewrite !elem_of_cons, elem_of_nil in Hb.
    destruct Hb as [-> | [-> | [-> | []]]]; vm_compute; reflexivity. }
  split.
  - destruct (first_matching_band create_employee_band_order u)
      as [[b|]|] eqn:E.
    + assert (Hs : standard_of create_employee_band_order u = b).
      { unfold standard_of. by rewrite E. }
      rewrite Hs. apply Hfix. by apply (first_matching_band_elem _ u).
    + assert (Hs : standard_of create_employee_band_order u = u).
      { unfold standard_of. by rewrite E. }
      by rewrite !Hs.
    + assert (Hs : standard_of create_employee_band_order u = u).
      { unfold standard_of. by rewrite E. }
      by rewrite !Hs.
  - intros r Hr. unfold standard_band. by apply Hfix.
Qed.

Lemma filter_filter {A} (f g : A -> bool) (l : list A) :
  List.filter f (List.filter g l) = List.filter (fun x => g x && f x) l.
Proof.
  induction l as [|a l IH]; simpl; [done|].
  destruct (g a); simpl; [|done]. destruct (f a); by rewrite IH.
Qed.

Lemma filter_true {A} (f : A -> bool) (l : list A) :
  (forall x, f x = true) -> List.filter f l = l.
Proof.
  intros H. induction l as [|a l IH]; simpl; [done|]. by rewrite H, IH.
Qed.

Lemma keep_if_filter (selection : list pystr) (column : Row -> option pystr)
    (df : DataFrame) :
  keep_if selection column df
  = List.filter
      (fun r => negb (truthy selection) || isin (column r) selection) df.
Proof.
  unfold keep_if. destruct (truthy selection); simpl; [done|].
  by rewrite filter_true.
Qed.

(** The rows that [apply_filters] returns, in closed form. *)
Lemma filtered_rows_passes (locations employee_bands anzsic_codes : list pystr)
    (rows : DataFrame) :
  filtered_rows locations employee_bands anzsic_codes rows
  = Some (List.filter (passes locations employee_bands anzsic_codes)
            (map (banded create_employee_band_order) rows)).
Proof.
  unfold filtered_rows.
  rewrite (assign_band_columns_eq _ _ tokenised_create_employee_band_order).
  simpl. f_equal. rewrite !keep_if_filter, !filter_filter.
  apply List.filter_ext. intros r. unfold passes. by rewrite andb_assoc.
Qed.

Lemma selection_passes (sel : list pystr) (v : pystr) :
  negb (truthy sel) || isin (Some v) sel = true <-> sel = [] \/ v ∈ sel.
Proof.
  destruct sel as [|x sel]; simpl.
  - split; [by left|done].
  - rewrite bool_decide_eq_true. split; [by right|]. by intros [? | ?].
Qed.

Lemma passes_spec (locations employee_bands anzsic_codes : list pystr)
    (r0 : Row) :
  passes locations employee_bands anzsic_codes
    (banded create_employee_band_order r0) = true
  <-> (locations = [] \/ Headquarters_Location r0 ∈ locations)
      /\ (employee_bands = [] \/ standard_band r0 ∈ employee_bands)
      /\ (anzsic_codes = [] \/ Primary_ANZSIC_Code r0 ∈ anzsic_codes).
Proof.
  unfold passes. rewrite !andb_true_iff.
  change (Headquarters_Location (banded create_employee_band_order r0))
    with (Headquarters_Location r0).
  change (Primary_ANZSIC_Code (banded create_employee_band_order r0))
    with (Primary_ANZSIC_Code r0).
  change (Employee_Band_Standard (banded create_employee_band_order r0))
    with (Some (standard_band r0)).
  rewrite !selection_passes. tauto.
Qed.

(** X6.  [apply_filters] returns, in their order, exactly the rows of its
    argument (with their band columns) that pass every selection that is not
    empty: the location is one of [locations], the band that the classifier
    gives is one of [employee_bands], the industry code is one of
    [anzsic_codes]. *)
Theorem apply_filters_selects (df : nat)
    (locations employee_bands anzsic_codes : list pystr) (σ : Store)
    (rows : DataFrame) :
  σ !! df = Some rows ->
  exists (l : nat) (σ' : Store) (out : DataFrame),
    apply_filters df locations employee_bands anzsic_codes σ = Some (l, σ')
    /\ σ' !! l = Some out
    /\ out = List.filter (passes locations employee_bands anzsic_codes)
               (map (banded create_employee_band_order) rows)
    /\ forall r : Row,
         r ∈ out <->
         exists r0,
           r0 ∈ rows /\ r = banded create_employee_band_order r0
           /\ (locations = [] \/ Headquarters_Location r0 ∈ locations)
           /\ (employee_bands = [] \/ standard_band r0 ∈ employee_bands)
           /\ (anzsic_codes = [] \/ Primary_ANZSIC_Code r0 ∈ anzsic_codes).
Proof.
  intros Hdf.
  destruct (apply_filters_rows_spec df locations employee_bands anzsic_codes
              σ rows Hdf) as (l & σ' & out & Ha & Hout & Hl & _).
  rewrite filtered_rows_passes in Hout. injection Hout as <-.
  eexists l, σ', _. split_and!; [done|done|done|].
  intros r. rewrite elem_of_filter.
  change (map ?f ?l) with (f <$> l). rewrite list_elem_of_fmap. split.
  - intros [(r0 & -> & Hr0) Hp]. apply passes_spec in Hp. exists r0. tauto.
  - intros (r0 & Hr0 & -> & Hp). split; [eauto|]. by apply passes_spec.
Qed.

Lemma apply_filters_selects_witness :
  exists (l : nat) (σ' : Store),
    apply_filters 0 [] [band_6_19] [] {[0%nat := [acme; birch; dune; cedar]]}
    = Some (l, σ')
    /\ σ' !! l = Some (map (banded create_employee_band_order) [birch; cedar]).
Proof.
  destruct (apply_filters_selects 0 [] [band_6_19] []
              {[0%nat := [acme; birch; dune; cedar]]} [acme; birch; dune; cedar])
    as (l & σ' & out & Ha & Hl & -> & _).
  { apply lookup_singleton_eq. }
  exists l, σ'. split; [done|]. rewrite Hl. vm_compute. reflexivity.
Defined.

Lemma banded_banded (band_order : list pystr) (r : Row) :
  banded band_order (banded band_order r) = banded band_order r.
Proof. reflexivity. Qed.

Lemma map_banded_filter (f : Row -> bool) (rows : DataFrame) :
  map (banded create_employee_band_order)
    (List.filter f (map (banded create_employee_band_order) rows))
  = List.filter f (map (banded create_employee_band_order) rows).
Proof.
  induction rows as [|r rows IH]; simpl; [done|].
  destruct (f _); simpl; by rewrite IH.
Qed.

(** X7.  Filtering a frame that [apply_filters] returned gives the rows that
    pass both sets of selections, so the filters compose by conjunction; and
    filtering again with the same selections changes nothing. *)
Theorem apply_filters_twice (df : nat)
    (locations1 bands1 codes1 locations2 bands2 codes2 : list pystr)
    (σ : Store) (rows : DataFrame) :
  σ !! df = Some rows ->
  exists (l1 : nat) (σ1 : Store) (l2 : nat) (σ2 : Store),
    apply_filters df locations1 bands1 codes1 σ = Some (l1, σ1)
    /\ apply_filters l1 locations2 bands2 codes2 σ1 = Some (l2, σ2)
    /\ σ2 !! l2
       = Some (List.filter
                 (fun r => passes locations1 bands1 codes1 r
                           && passes locations2 bands2 codes2 r)
                 (map (banded create_employee_band_order) rows))
    /\ (locations2 = locations1 -> bands2 = bands1 -> codes2 = codes1 ->
        σ2 !! l2 = σ1 !! l1).
Proof.
  intros Hdf.
  destruct (apply_filters_rows_spec df locations1 bands1 codes1 σ rows Hdf)
    as (l1 & σ1 & out1 & Ha1 & Hout1 & Hl1 & _).
  rewrite filtered_rows_passes in Hout1. injection Hout1 as <-.
  destruct (apply_filters_rows_spec l1 locations2 bands2 codes2 σ1 _ Hl1)
    as (l2 & σ2 & out2 & Ha2 & Hout2 & Hl2 & _).
  rewrite filtered_rows_passes, map_banded_filter, filter_filter in Hout2.
  injection Hout2 as <-.
  exists l1, σ1, l2, σ2. split_and!; [done|done|done|].
  intros -> -> ->. rewrite Hl1, Hl2. f_equal.
  apply List.filter_ext. intros r. by destruct (passes _ _ _ r).
Qed.

Lemma apply_filters_twice_witness :
  exists (l1 : nat) (σ1 : Store) (l2 : nat) (σ2 : Store),
    apply_filters 0 [lit "Auckland"] [] [] {[0%nat := [acme; birch; dune]]}
    = Some (l1, σ1)
    /\ apply_filters l1 [] [band_6_19] [] σ1 = Some (l2, σ2)
    /\ σ2 !! l2 = Some [banded create_employee_band_order birch].
Proof.
  destruct (apply_filters_twice 0 [lit "Auckland"] [] [] [] [band_6_19] []
              {[0%nat := [acme; birch; dune]]} [acme; birch; dune])
    as (l1 & σ1 & l2 & σ2 & H1 & H2 & H3 & _).
  { apply lookup_singleton_eq. }
  exists l1, σ1, l2, σ2. split_and!; [done|done|].
  rewrite H3. vm_compute. reflexivity.
Defined.

(** ** The partition *)

(** X8.  The two counts that [main] shows add up to the number of filtered
    rows, and two rows of one legal name are always in the same chart. *)
Theorem partition_counts (filtered_df : DataFrame) (s : Session) :
  (length (shortlist_df filtered_df s)
   + length (all_companies_df filtered_df s) = length filtered_df)%nat
  /\ forall r1 r2 : Row,
       r1 ∈ filtered_df -> r2 ∈ filtered_df ->
       Entity_Legal_Name r1 = Entity_Legal_Name r2 ->
       (r1 ∈ shortlist_df filtered_df s <-> r2 ∈ shortlist_df filtered_df s)
       /\ (r1 ∈ all_companies_df filtered_df s
           <-> r2 ∈ all_companies_df filtered_df s).
Proof.
  split.
  - rewrite <- length_app. apply Permutation_length.
    apply filter_negb_Permutation.
  - intros r1 r2 H1 H2 Hname. unfold shortlist_df, all_companies_df.
    rewrite !elem_of_filter. unfold in_shortlist. rewrite Hname. tauto.
Qed.

(** ** The click handler *)

Lemma iloc_None {A} (l : list A) (i : Z) :
  iloc l i = None
  <-> (i < - Z.of_nat (length l) \/ Z.of_nat (length l) <= i)%Z.
Proof.
  unfold iloc. destruct (0 <=? i)%Z eqn:E0.
  - apply Z.leb_le in E0. rewrite lookup_ge_None. lia.
  - apply Z.leb_gt in E0. destruct (_ <=? i)%Z eqn:E1.
    + apply Z.leb_le in E1. rewrite lookup_ge_None. lia.
    + apply Z.leb_gt in E1. split; [lia|done].
Qed.

Lemma iloc_elem_of {A} (l : list A) (i : Z) (x : A) :
  iloc l i = Some x -> x ∈ l.
Proof.
  unfold iloc. intros H. apply list_elem_of_lookup.
  destruct (0 <=? i)%Z; [eauto|]. destruct (_ <=? i)%Z; [eauto|done].
Qed.

Section Handler.
Context {G : RandomState}.

(** The session that a click on a row of the chart leaves. *)
Lemma click_session (df : DataFrame) (is_rejected : bool) (idx : Z)
    (rest : list Z) (w : World) (E : pystr) :
  Entity_Legal_Name <$> iloc df idx = Some E ->
  outcome (create_bubble_chart df is_rejected (Selection (idx :: rest)) w)
  = Rerun
  /\ session (world (create_bubble_chart df is_rejected
                       (Selection (idx :: rest)) w))
     = Some (if is_rejected then init_session (session w) ∪ {[E]}
             else init_session (session w) ∖ {[E]}).
Proof.
  intros H. destruct (click_resolves df idx E H) as (Hne & p & Hp & Hname).
  rewrite create_bubble_chart_plot by done. cbv zeta.
  cbn [outcome world session]. unfold handle_click. rewrite Hp, Hname.
  destruct is_rejected; [done|].
  case_bool_decide as Hin; [done|]. simpl. by rewrite remove_absent.
Qed.

(** A chart call without a click on a row leaves the session as it is. *)
Lemma no_click_session (df : DataFrame) (is_rejected : bool) (event : Event)
    (w : World) :
  (forall idx rest, event = Selection (idx :: rest) -> iloc df idx = None) ->
  session (world (create_bubble_chart df is_rejected event w)) = session w.
Proof.
  intros Hev. destruct df as [|r0 df]; [done|].
  rewrite create_bubble_chart_plot by done. cbv zeta. cbn [world session].
  unfold handle_click. destruct event as [|[|idx rest]]; [done|done|].
  assert (Hn : iloc (layout create_employee_band_order
                       (map (banded create_employee_band_order) (r0 :: df))).1
                 idx = None).
  { apply iloc_None. rewrite plotted_length.
    by apply iloc_None, (Hev idx rest). }
  by rewrite Hn.
Qed.
End Handler.

(** X9.  On a chart that is drawn, a click is resolved exactly when its point
    index [idx] lies in [-n, n), [n] being the number of rows: then a rerun
    is requested, a negative index counting rows from the end; for every
    other index the row lookup raises. *)
Theorem click_raises_iff {G : RandomState} (df : DataFrame)
    (is_rejected : bool) (idx : Z) (rest : list Z) (w : World) :
  df <> [] ->
  let n := Z.of_nat (length df) in
  let clicked :=
    create_bubble_chart df is_rejected (Selection (idx :: rest)) w in
  (outcome clicked = Raised <-> (idx < - n \/ n <= idx)%Z)
  /\ (outcome clicked = Rerun <-> (- n <= idx < n)%Z)
  /\ forall r : Row,
       (- n <= idx < 0)%Z -> df !! Z.to_nat (n + idx) = Some r ->
       session (world clicked)
       = Some (if is_rejected
               then init_session (session w) ∪ {[Entity_Legal_Name r]}
               else init_session (session w) ∖ {[Entity_Legal_Name r]}).
Proof.
  intros Hne n clicked. subst clicked.
  destruct (iloc df idx) as [r|] eqn:Ei.
  - assert (Hin : (- n <= idx < n)%Z).
    { destruct (decide (- n <= idx < n)%Z) as [|Hout]; [done|].
      assert (iloc df idx = None) by (apply iloc_None; lia). congruence. }
    destruct (click_session df is_rejected idx rest w (Entity_Legal_Name r))
      as [Ho Hs]; [by rewrite Ei|].
    rewrite Ho. split_and!; [split; [done|lia]|done|].
    intros r' Hneg Hr'. rewrite Hs.
    assert (Er : iloc df idx = Some r').
    { unfold iloc. destruct (0 <=? idx)%Z eqn:E0; [apply Z.leb_le in E0; lia|].
      destruct (- Z.of_nat (length df) <=? idx)%Z eqn:E1; [done|].
      apply Z.leb_gt in E1. lia. }
    rewrite Ei in Er. by injection Er as ->.
  - pose proof (proj1 (iloc_None df idx) Ei) as Hout.
    assert (Ho : outcome (create_bubble_chart df is_rejected
                            (Selection (idx :: rest)) w) = Raised).
    { rewrite create_bubble_chart_plot by done. cbv zeta. cbn [outcome].
      unfold handle_click.
      assert (Hn : iloc (layout create_employee_band_order
                           (map (banded create_employee_band_order) df)).1
                     idx = None).
      { apply iloc_None. by rewrite plotted_length. }
      by rewrite Hn. }
    rewrite Ho. split_and!; [done|split; [done|subst n; lia]|].
    intros r' Hneg Hr'. subst n. lia.
Qed.

Lemma click_raises_iff_witness :
  outcome (create_bubble_chart [acme; birch] true (Selection [(-1)%Z])
             no_session) = Rerun
  <-> (- Z.of_nat (length [acme; birch]) <= -1 < Z.of_nat (length [acme; birch]))%Z.
Proof.
  apply (click_raises_iff (G := halves) [acme; birch] true (-1) []
           no_session).
  discriminate.
Defined.

(** X10.  A call of [create_bubble_chart] changes the shortlist status of no
    company other than the one whose bubble was clicked; the chart of all
    companies never removes a company from the selection set and the
    shortlist chart never adds one. *)
Theorem click_changes_one_company {G : RandomState} (df : DataFrame)
    (is_rejected : bool) (event : Event) (w : World) :
  let before := init_session (session w) in
  let after :=
    init_session
      (session (world (create_bubble_chart df is_rejected event w))) in
  (is_rejected = true -> before ⊆ after)
  /\ (is_rejected = false -> after ⊆ before)
  /\ forall name : pystr,
       (forall idx rest, event = Selection (idx :: rest) ->
                         Entity_Legal_Name <$> iloc df idx <> Some name) ->
       (name ∈ after <-> name ∈ before).
Proof.
  intros before after. subst before after.
  assert (Hquiet :
    (forall idx rest, event = Selection (idx :: rest) -> iloc df idx = None) ->
    (is_rejected = true ->
     init_session (session w)
     ⊆ init_session
         (session (world (create_bubble_chart df is_rejected event w))))
    /\ (is_rejected = false ->
        init_session
          (session (world (create_bubble_chart df is_rejected event w)))
        ⊆ init_session (session w))
    /\ forall name : pystr,
         (forall idx rest, event = Selection (idx :: rest) ->
                           Entity_Legal_Name <$> iloc df idx <> Some name) ->
         (name ∈ init_session
                   (session (world (create_bubble_chart df is_rejected
                                      event w)))
          <-> name ∈ init_session (session w))).
  { intros Hno. rewrite no_click_session by done. by split_and!. }
  destruct event as [|[|idx rest]];
    [by apply Hquiet|by apply Hquiet|].
  destruct (iloc df idx) as [r|] eqn:Hr.
  - clear Hquiet.
    destruct (click_session df is_rejected idx rest w (Entity_Legal_Name r))
      as [_ Hs]; [by rewrite Hr|].
    rewrite Hs. simpl. split_and!.
    + intros ->. apply union_subseteq_l.
    + intros ->. intros x. rewrite elem_of_difference. tauto.
    + intros name Hname.
      assert (Hne : name <> Entity_Legal_Name r).
      { intros ->. apply (Hname idx rest eq_refl). by rewrite Hr. }
      destruct is_rejected.
      * rewrite elem_of_union, elem_of_singleton. tauto.
      * rewrite elem_of_difference, elem_of_singleton. tauto.
  - apply Hquiet. by intros idx' rest' [= <- <-].
Qed.

(** X11.  Adding and removing is a round trip: when a bubble of the chart of
    all companies is clicked and then the bubble of the same company in the
    shortlist chart of the next partition, the selection set is again what it
    was. *)
Theorem add_then_remove {G : RandomState} (filtered_df : DataFrame)
    (w : World) (idx1 idx2 : Z) (rest1 rest2 : list Z) (E : pystr) :
  let shortlisted := init_session (session w) in
  let added :=
    world (create_bubble_chart (all_companies_df filtered_df (session w))
             true (Selection (idx1 :: rest1)) w) in
  Entity_Legal_Name <$> iloc (all_companies_df filtered_df (session w)) idx1
  = Some E ->
  Entity_Legal_Name <$> iloc (shortlist_df filtered_df (session added)) idx2
  = Some E ->
  session added = Some (shortlisted ∪ {[E]})
  /\ session (world (create_bubble_chart
                       (shortlist_df filtered_df (session added)) false
                       (Selection (idx2 :: rest2)) added))
     = Some shortlisted.
Proof.
  intros shortlisted added H1 H2. subst added.
  destruct (click_session _ true idx1 rest1 w E H1) as [_ Hs1].
  destruct (click_session _ false idx2 rest2
              (world (create_bubble_chart
                        (all_companies_df filtered_df (session w)) true
                        (Selection (idx1 :: rest1)) w)) E H2) as [_ Hs2].
  split; [done|]. rewrite Hs2, Hs1. simpl. fold shortlisted. f_equal.
  assert (Hnot : E ∉ shortlisted).
  { destruct (iloc (all_companies_df filtered_df (session w)) idx1)
      as [r|] eqn:Ei; [|done].
    simpl in H1. injection H1 as <-. apply iloc_elem_of in Ei.
    unfold all_companies_df in Ei. apply elem_of_filter in Ei as [_ Hn].
    unfold in_shortlist in Hn.
    by apply negb_true_iff, bool_decide_eq_false in Hn. }
  apply set_eq. intros x.
  rewrite elem_of_difference, elem_of_union, elem_of_singleton.
  split; [tauto|]. intros Hx. split; [by left|]. by intros ->.
Qed.

Lemma add_then_remove_witness :
  session (world (create_bubble_chart [acme; birch] true (Selection [1%Z])
                    no_session))
  = Some (∅ ∪ {[lit "Birch"]})
  /\ session
       (world (create_bubble_chart [birch] false (Selection [0%Z])
                 (world (create_bubble_chart [acme; birch] true
                           (Selection [1%Z]) no_session))))
     = Some ∅.
Proof.
  assert (H1 : session (world (create_bubble_chart (G := halves) [acme; birch]
                                 true (Selection [1%Z]) no_session))
               = Some (∅ ∪ {[lit "Birch"]})).
  { by destruct (click_session (G := halves) [acme; birch] true 1 []
                   no_session (lit "Birch") eq_refl). }
  pose proof (add_then_remove (G := halves) [acme; birch] no_session 1 0 [] []
                (lit "Birch") eq_refl) as H.
  cbv zeta in H.
  change (all_companies_df [acme; birch] (session no_session))
    with [acme; birch] in H.
  rewrite H1 in H.
  assert (Hs : shortlist_df [acme; birch] (Some (∅ ∪ {[lit "Birch"]}))
               = [birch]).
  { unfold shortlist_df. simpl. unfold in_shortlist.
    rewrite bool_decide_eq_false_2, bool_decide_eq_true_2; [done| |].
    - apply elem_of_union. right. by apply elem_of_singleton.
    - rewrite elem_of_union, elem_of_singleton, elem_of_empty.
      intros [[] | Hx]. discriminate Hx. }
  rewrite Hs in H. rewrite H1. by apply H.
Defined.

(** ** Runs of [main] *)

Section Runs.
Context {G : RandomState}.

(** A run in which no button is pressed: the filtered rows are split and
    the charts are drawn; the frame of the companies stays in the store. *)
Lemma main_charts (df : nat) (inputs : Inputs) (σ : Store) (w : World)
    (rows : DataFrame) :
  σ !! df = Some rows ->
  clear_filters inputs = false -> clear_shortlist inputs = false ->
  let out := List.filter
               (passes (selected_locations inputs)
                  (selected_employee_bands inputs)
                  (selected_anzsic_codes inputs))
               (map (banded create_employee_band_order) rows) in
  let charts := draw_charts out (shortlist_event inputs)
                  (all_companies_event inputs) w in
  let last := match charts.2 with
              | Some pool_chart => pool_chart
              | None => charts.1
              end in
  exists σ' : Store,
    σ' !! df = Some rows
    /\ main df inputs σ w
       = Some {| run_store := σ'; run_charts := Some charts;
                 run_outcome := outcome last; run_world := world last |}.
Proof.
  intros Hdf Hcf Hcs out charts last. subst last charts out.
  destruct (apply_filters_rows_spec df (selected_locations inputs)
              (selected_employee_bands inputs) (selected_anzsic_codes inputs)
              σ rows Hdf) as (l & σ' & out & Ha & Hout & Hl & Hkeep).
  rewrite filtered_rows_passes in Hout. injection Hout as <-.
  exists σ'. split.
  - rewrite Hkeep by eauto. done.
  - unfold main. rewrite Hcf, Hcs, Ha.
    cbn -[draw_charts passes banded]. rewrite Hl.
    cbn -[draw_charts passes banded]. reflexivity.
Qed.

Lemma chart_no_selection (df : DataFrame) (is_rejected : bool) (w : World) :
  outcome (create_bubble_chart df is_rejected NoSelection w) = Returned
  /\ session (world (create_bubble_chart df is_rejected NoSelection w))
     = session w.
Proof.
  destruct df as [|r df]; [done|].
  by rewrite create_bubble_chart_plot.
Qed.

(** The rows behind the bubbles of a chart are the rows of the frame it was
    called with, each with its band columns. *)
Lemma chart_rows (df : DataFrame) (is_rejected : bool) (event : Event)
    (w : World) :
  (fun p => row (layout_row p))
    <$> df_plot (create_bubble_chart df is_rejected event w)
  = map (banded create_employee_band_order) df.
Proof.
  rewrite create_bubble_chart_df_plot. destruct df as [|r df]; [done|].
  apply layout_rows.
Qed.

(** The rows of a part of a filtered frame carry their band columns
    already. *)
Lemma chart_rows_filtered (f p : Row -> bool) (rows : DataFrame)
    (is_rejected : bool) (event : Event) (w : World) :
  (fun q => row (layout_row q))
    <$> df_plot (create_bubble_chart
                   (List.filter f
                      (List.filter p
                         (map (banded create_employee_band_order) rows)))
                   is_rejected event w)
  = List.filter f
      (List.filter p (map (banded create_employee_band_order) rows)).
Proof.
  rewrite chart_rows, filter_filter. apply map_banded_filter.
Qed.

(** Every bubble of a chart whose rows have their bands among [bands], bands
    of the band order, has a place on the x axis. *)
Lemma chart_positioned (bands : list pystr) (df : DataFrame)
    (is_rejected : bool) (event : Event) (w : World) :
  (forall b, b ∈ bands -> b ∈ create_employee_band_order) ->
  (forall r, r ∈ df -> standard_band r ∈ bands) ->
  Forall (positioned bands)
    (df_plot (create_bubble_chart df is_rejected event w)).
Proof.
  intros Hbo Hdf. rewrite create_bubble_chart_df_plot.
  destruct df as [|r0 df]; [constructor|].
  set (frame := r0 :: df) in *. apply Forall_lookup. intros i p Hp.
  assert (Hi : (i < length frame)%nat).
  { rewrite <- (plotted_length frame). apply lookup_lt_is_Some. eauto. }
  apply lookup_lt_is_Some in Hi as [r Hr].
  assert (Hb : map (banded create_employee_band_order) frame !! i
               = Some (banded create_employee_band_order r)).
  { change (map ?f ?l) with (f <$> l). by rewrite list_lookup_fmap, Hr. }
  destruct (layout_lookup create_employee_band_order _ i _ Hb)
    as (l & _ & Hrow & Hl).
  rewrite Hp in Hl. injection Hl as ->.
  assert (Hin : standard_band r ∈ bands).
  { apply Hdf, list_elem_of_lookup. eauto. }
  destruct (proj1 (list_elem_of_lookup _ _) (Hbo _ Hin)) as [k Hk].
  exists k, (standard_band r). unfold position. simpl. rewrite Hrow. simpl.
  fold (standard_band r).
  rewrite (proj2 (band_to_numeric_lookup (standard_band r) k) Hk).
  by split_and!.
Qed.
End Runs.

(** X12.  The button that clears the shortlist ends the run with a rerun and
    an empty selection set, before any chart is drawn; in the run that
    follows, the shortlist chart is empty and the chart of all companies
    holds every filtered company. *)
Theorem clear_shortlist_run {G : RandomState} (df : nat) (inputs : Inputs)
    (σ : Store) (w : World) (rows : DataFrame) :
  σ !! df = Some rows ->
  clear_filters inputs = false -> clear_shortlist inputs = true ->
  exists run1 : Run,
    main df inputs σ w = Some run1
    /\ run_charts run1 = None
    /\ run_outcome run1 = Rerun
    /\ session (run_world run1) = Some ∅
    /\ forall locations employee_bands anzsic_codes : list pystr,
         exists (run2 : Run) (c1 c2 : Chart),
           main df (quiet_inputs locations employee_bands anzsic_codes)
                (run_store run1) (run_world run1) = Some run2
           /\ run_charts run2 = Some (c1, Some c2)
           /\ df_plot c1 = []
           /\ (fun p => row (layout_row p)) <$> df_plot c2
              = List.filter (passes locations employee_bands anzsic_codes)
                  (map (banded create_employee_band_order) rows).
Proof.
  intros Hdf Hcf Hcs. unfold main. rewrite Hcf, Hcs.
  eexists. split_and!; [done|done|done|done|].
  intros locations employee_bands anzsic_codes. cbn [run_store run_world].
  set (w1 := {| generator := generator w; session := Some ∅ |}).
  destruct (main_charts df (quiet_inputs locations employee_bands anzsic_codes)
              σ w1 rows Hdf eq_refl eq_refl) as (σ' & _ & Hm).
  cbv zeta in Hm. cbn [quiet_inputs selected_locations selected_employee_bands
    selected_anzsic_codes shortlist_event all_companies_event] in Hm.
  set (out := List.filter (passes locations employee_bands anzsic_codes)
                (map (banded create_employee_band_order) rows)) in *.
  assert (Hshort : shortlist_df out (Some (init_session (session w1))) = []).
  { unfold shortlist_df. simpl. clear. induction out as [|r out IH]; [done|].
    simpl. unfold in_shortlist at 1.
    rewrite bool_decide_eq_false_2; [done|]. apply not_elem_of_empty. }
  assert (Hpool : all_companies_df out (Some (init_session (session w1)))
                  = out).
  { unfold all_companies_df. simpl. apply filter_true. intros r.
    unfold in_shortlist. rewrite bool_decide_eq_false_2; [done|].
    apply not_elem_of_empty. }
  unfold draw_charts in Hm. cbn [session generator] in Hm.
  rewrite Hshort, Hpool in Hm. cbn -[passes banded out] in Hm.
  eexists _, _, _. split_and!; [exact Hm|reflexivity|reflexivity|].
  rewrite chart_rows. subst out. apply map_banded_filter.
Qed.

Lemma clear_shortlist_run_witness :
  exists run1 : Run,
    main 0 {| selected_locations := []; selected_employee_bands := [];
              selected_anzsic_codes := []; clear_filters := false;
              clear_shortlist := true; shortlist_event := NoSelection;
              all_companies_event := NoSelection |}
         {[0%nat := [acme; birch]]} no_session = Some run1
    /\ run_charts run1 = None
    /\ run_outcome run1 = Rerun
    /\ session (run_world run1) = Some ∅.
Proof.
  destruct (clear_shortlist_run (G := halves) 0
              {| selected_locations := []; selected_employee_bands := [];
                 selected_anzsic_codes := []; clear_filters := false;
                 clear_shortlist := true; shortlist_event := NoSelection;
                 all_companies_event := NoSelection |}
              {[0%nat := [acme; birch]]} no_session [acme; birch])
    as (run1 & H1 & H2 & H3 & H4 & _).
  - apply lookup_singleton_eq.
  - reflexivity.
  - reflexivity.
  - by exists run1.
Defined.

(** X13.  A click on a bubble of the chart of all companies moves the
    company: the run ends with a rerun and the company's name in the
    selection set, and in the run that follows, under the same filters, the
    company's row is behind a bubble of the shortlist chart and behind none
    of the chart of all companies. *)
Theorem click_moves_company {G : RandomState} (df : nat)
    (locations employee_bands anzsic_codes : list pystr) (idx : Z)
    (σ : Store) (w : World) (rows : DataFrame) (r : Row) :
  σ !! df = Some rows ->
  iloc (all_companies_df
          (List.filter (passes locations employee_bands anzsic_codes)
             (map (banded create_employee_band_order) rows))
          (session w)) idx = Some r ->
  exists (run1 run2 : Run) (c1 c2 : Chart),
    main df (pool_click locations employee_bands anzsic_codes idx) σ w
    = Some run1
    /\ run_outcome run1 = Rerun
    /\ session (run_world run1)
       = Some (init_session (session w) ∪ {[Entity_Legal_Name r]})
    /\ main df (quiet_inputs locations employee_bands anzsic_codes)
            (run_store run1) (run_world run1) = Some run2
    /\ run_charts run2 = Some (c1, Some c2)
    /\ r ∈ (fun p => row (layout_row p)) <$> df_plot c1
    /\ r ∉ (fun p => row (layout_row p)) <$> df_plot c2.
Proof.
  intros Hdf Hr.
  destruct (main_charts df
              (pool_click locations employee_bands anzsic_codes idx)
              σ w rows Hdf eq_refl eq_refl) as (σ1 & Hdf1 & Hm1).
  cbv zeta in Hm1. cbn [pool_click selected_locations selected_employee_bands
    selected_anzsic_codes shortlist_event all_companies_event] in Hm1.
  set (out := List.filter (passes locations employee_bands anzsic_codes)
                (map (banded create_employee_band_order) rows)) in *.
  unfold draw_charts in Hm1. cbn [session generator] in Hm1.
  set (shortlisted := init_session (session w)) in *.
  set (w0 := {| generator := generator w; session := Some shortlisted |})
    in Hm1.
  destruct (chart_no_selection (shortlist_df out (Some shortlisted)) false w0)
    as [Ho1 Hs1].
  rewrite Ho1 in Hm1. cbn [fst snd] in Hm1.
  set (c1' := create_bubble_chart (shortlist_df out (Some shortlisted)) false
                NoSelection w0) in *.
  assert (Hpool : all_companies_df out (Some shortlisted)
                  = all_companies_df out (session w)).
  { reflexivity. }
  destruct (click_session (all_companies_df out (Some shortlisted)) true idx
              [] (world c1') (Entity_Legal_Name r)) as [Ho2 Hs2].
  { rewrite Hpool, Hr. done. }
  rewrite Hs1 in Hs2. simpl in Hs2.
  (* the second run *)
  set (run1 := {| run_store := σ1; run_charts := _; run_outcome := _;
                  run_world := _ |}) in Hm1.
  destruct (main_charts df
              (quiet_inputs locations employee_bands anzsic_codes)
              (run_store run1) (run_world run1) rows Hdf1 eq_refl eq_refl)
    as (σ2 & _ & Hm2).
  cbv zeta in Hm2. cbn [quiet_inputs selected_locations
    selected_employee_bands selected_anzsic_codes shortlist_event
    all_companies_event] in Hm2.
  fold out in Hm2. unfold draw_charts in Hm2.
  cbn [run1 run_world session] in Hm2. rewrite Hs2 in Hm2.
  cbn [init_session] in Hm2.
  set (after := shortlisted ∪ {[Entity_Legal_Name r]}) in *.
  set (w2 := {| generator := _; session := Some after |}) in Hm2.
  destruct (chart_no_selection (shortlist_df out (Some after)) false w2)
    as [Ho3 _].
  rewrite Ho3 in Hm2. cbn [fst snd] in Hm2.
  eexists run1, _, _, _.
  split_and!; [exact Hm1|exact Ho2|exact Hs2|exact Hm2|reflexivity| |].
  - unfold shortlist_df, out. rewrite chart_rows_filtered.
    apply iloc_elem_of in Hr. unfold all_companies_df in Hr.
    apply elem_of_filter in Hr as [Hr _].
    apply elem_of_filter. split; [exact Hr|].
    unfold in_shortlist. apply bool_decide_eq_true.
    apply elem_of_union. right. by apply elem_of_singleton.
  - unfold all_companies_df, out. rewrite chart_rows_filtered.
    rewrite elem_of_filter. intros [_ Hn].
    apply negb_true_iff in Hn. unfold in_shortlist in Hn.
    apply bool_decide_eq_false in Hn. apply Hn.
    apply elem_of_union. right. by apply elem_of_singleton.
Qed.

Lemma click_moves_company_witness :
  exists (run1 : Run),
    main 0 (pool_click [] [] [] 1) {[0%nat := [acme; birch]]} no_session
    = Some run1
    /\ run_outcome run1 = Rerun
    /\ session (run_world run1)
       = Some (init_session (session no_session)
               ∪ {[Entity_Legal_Name (banded create_employee_band_order birch)]}).
Proof.
  destruct (click_moves_company (G := halves) 0 [] [] [] 1
              {[0%nat := [acme; birch]]} no_session [acme; birch]
              (banded create_employee_band_order birch))
    as (run1 & run2 & c1 & c2 & H1 & H2 & H3 & _).
  - apply lookup_singleton_eq.
  - reflexivity.
  - by exists run1.
Defined.

(** X14.  When the selection of employee bands is not empty and holds bands
    of the band order only (what the multiselect of [main] offers), every
    bubble of both charts has its band among the selected ones, a band rank
    and an x position: no row with a missing position is plotted. *)
Theorem band_selection_positions {G : RandomState} (df : nat)
    (inputs : Inputs) (σ : Store) (w : World) (rows : DataFrame) :
  σ !! df = Some rows ->
  clear_filters inputs = false -> clear_shortlist inputs = false ->
  selected_employee_bands inputs <> [] ->
  (forall b, b ∈ selected_employee_bands inputs ->
             b ∈ create_employee_band_order) ->
  exists (run : Run) (c1 : Chart) (c2 : option Chart),
    main df inputs σ w = Some run
    /\ run_charts run = Some (c1, c2)
    /\ Forall (positioned (selected_employee_bands inputs)) (df_plot c1)
    /\ forall pool_chart : Chart,
         c2 = Some pool_chart ->
         Forall (positioned (selected_employee_bands inputs))
           (df_plot pool_chart).
Proof.
  intros Hdf Hcf Hcs Hne Hbo.
  destruct (main_charts df inputs σ w rows Hdf Hcf Hcs) as (σ' & _ & Hm).
  cbv zeta in Hm.
  set (out := List.filter _ (map (banded create_employee_band_order) rows))
    in *.
  assert (Hout : forall r, r ∈ out ->
                           standard_band r ∈ selected_employee_bands inputs).
  { intros r Hr. subst out. apply elem_of_filter in Hr as [Hr Hp].
    change (map ?f ?l) with (f <$> l) in Hr.
    apply list_elem_of_fmap in Hr as (r0 & -> & _).
    apply passes_spec in Hp as (_ & [Hb | Hb] & _); [done|exact Hb]. }
  destruct (draw_charts out (shortlist_event inputs)
              (all_companies_event inputs) w) as [c1 c2] eqn:Hd.
  eexists _, c1, c2. split_and!; [exact Hm|reflexivity| |].
  - unfold draw_charts in Hd.
    destruct (outcome _) in Hd; injection Hd as <- _;
      (apply chart_positioned; [done|]); intros r Hr; apply Hout;
      unfold shortlist_df in Hr; by apply elem_of_filter in Hr as [Hr _].
  - intros pool_chart ->. unfold draw_charts in Hd.
    destruct (outcome _) in Hd; [|done..]. injection Hd as _ <-.
    apply chart_positioned; [done|]. intros r Hr. apply Hout.
    unfold all_companies_df in Hr. by apply elem_of_filter in Hr as [Hr _].
Qed.

Lemma band_selection_positions_witness :
  exists (run : Run) (c1 : Chart) (c2 : option Chart),
    main 0 (quiet_inputs [] [band_6_19] []) {[0%nat := [acme; birch; dune]]}
         no_session = Some run
    /\ run_charts run = Some (c1, c2)
    /\ Forall (positioned [band_6_19]) (df_plot c1).
Proof.
  destruct (band_selection_positions (G := halves) 0
              (quiet_inputs [] [band_6_19] []) {[0%nat := [acme; birch; dune]]}
              no_session [acme; birch; dune])
    as (run & c1 & c2 & H1 & H2 & H3 & _).
  - apply lookup_singleton_eq.
  - reflexivity.
  - reflexivity.
  - discriminate.
  - intros b Hb. apply list_elem_of_singleton in Hb as ->.
    apply (bool_decide_unpack _). vm_compute. exact I.
  - by exists run, c1, c2.
Defined.

(** ** The plotted frame, further *)

(** X15.  Point index [i] of a chart is row [i] of the frame the chart was
    called with: the plotted frame has as many rows, and its row [i] carries
    the source columns of row [i], its trimmed label and the band that the
    classifier gives it. *)
Theorem plotted_rows_in_order {G : RandomState} (df : DataFrame)
    (is_rejected : bool) (event : Event) (w : World) :
  length (df_plot (create_bubble_chart df is_rejected event w)) = length df
  /\ forall (i : nat) (r : Row),
       df !! i = Some r ->
       exists p : PlotRow,
         df_plot (create_bubble_chart df is_rejected event w) !! i = Some p
         /\ source_columns (row (layout_row p)) = source_columns r
         /\ Employee_Band_Clean (row (layout_row p))
            = Some (strip (Estimated_Employee_Band r))
         /\ Employee_Band_Standard (row (layout_row p))
            = Some (standard_band r).
Proof.
  pose proof (chart_rows df is_rejected event w) as Hrows. split.
  - rewrite <- (length_fmap (fun p => row (layout_row p))), Hrows.
    apply length_map.
  - intros i r Hi.
    assert (Hb : ((fun p => row (layout_row p))
                    <$> df_plot (create_bubble_chart df is_rejected event w))
                 !! i = Some (banded create_employee_band_order r)).
    { rewrite Hrows. change (map ?f ?l) with (f <$> l).
      by rewrite list_lookup_fmap, Hi. }
    rewrite list_lookup_fmap in Hb.
    destruct (df_plot _ !! i) as [p|]; [|done].
    simpl in Hb. injection Hb as Hb. exists p. by rewrite Hb.
Qed.

Section Visible.
Context {G : RandomState} {HG : UnitInterval G}.

(** Every plotted row has its jitter in the box, and either no position or
    the position of a band rank plus its horizontal jitter. *)
Lemma plotted_in_box (df : DataFrame) (is_rejected : bool) (event : Event)
    (w : World) :
  Forall
    (fun p : PlotRow =>
       (Rabs (x_jitter (layout_row p)) <= 0.45)%R
       /\ (Rabs (y_jitter (layout_row p)) <= 2.5)%R
       /\ forall x, x_position p = Some x ->
            exists k : nat,
              (k < length create_employee_band_order)%nat
              /\ x = (INR k + x_jitter (layout_row p))%R)
    (df_plot (create_bubble_chart df is_rejected event w)).
Proof.
  rewrite create_bubble_chart_df_plot. destruct df as [|r0 df]; [constructor|].
  rewrite layout_plotted.
  change (map ?f ?l) with (f <$> l). apply Forall_fmap.
  eapply Forall_impl;
    [apply (jitter_bands_Forall
              (fun l => (Rabs (x_jitter l) <= 0.45)%R
                        /\ (Rabs (y_jitter l) <= 2.5)%R))|].
  - intros n g' j l _ Hj _. simpl. by apply (band_jitter_bounds n g').
  - unfold init_layout. change (map ?f ?l) with (f <$> l).
    apply Forall_fmap, Forall_forall. intros r _. simpl.
    rewrite Rabs_R0. lra.
  - intros l [Hx Hy]. simpl. split_and!; [done|done|].
    intros x Hpos.
    destruct (Employee_Band_Standard (row l)) as [band|]; [|done].
    simpl in Hpos.
    destruct (band_to_numeric create_employee_band_order !! band)
      as [k|] eqn:Ek; [|done].
    simpl in Hpos. injection Hpos as <-. exists k. split; [|done].
    apply band_to_numeric_lookup in Ek.
    exact (lookup_lt_Some create_employee_band_order k band Ek).
Qed.
End Visible.

(** X16.  Every bubble is inside the plot area: its y coordinate lies
    strictly within the range of the y axis, and its x coordinate, when it
    has one, strictly within the range of the x axis; the ticks of the x
    axis are the band ranks 0, 1, 2. *)
Theorem bubbles_in_plot_area {G : RandomState} {HG : UnitInterval G}
    (df : DataFrame) (is_rejected : bool) (event : Event) (w : World) :
  tickvals create_employee_band_order = Some [0; 1; 2]%nat
  /\ Forall
       (fun p : PlotRow =>
          (yaxis_range.1 < y_jitter (layout_row p) < yaxis_range.2)%R
          /\ forall x, x_position p = Some x ->
               ((xaxis_range create_employee_band_order).1 < x
                < (xaxis_range create_employee_band_order).2)%R)
       (df_plot (create_bubble_chart df is_rejected event w)).
Proof.
  split; [vm_compute; reflexivity|].
  eapply Forall_impl; [apply plotted_in_box|].
  intros p (Hx & Hy & Hpos). apply Rabs_bound in Hx. apply Rabs_bound in Hy.
  split.
  - unfold yaxis_range. simpl. lra.
  - intros x Hxp. destruct (Hpos x Hxp) as (k & Hk & ->).
    unfold xaxis_range. simpl fst. simpl snd.
    assert (H0 : (0 <= INR k)%R) by apply pos_INR.
    assert (H2 : (INR k <= 2)%R).
    { change 2%R with (INR 2). apply le_INR. simpl in Hk. lia. }
    change (length create_employee_band_order) with 3%nat.
    replace (INR 3) with 3%R by (simpl; lra). lra.
Qed.

Lemma bubbles_in_plot_area_witness :
  Forall
    (fun p : PlotRow =>
       (yaxis_range.1 < y_jitter (layout_row p) < yaxis_range.2)%R)
    (df_plot (create_bubble_chart [acme; birch; cedar] true NoSelection
                no_session)).
Proof.
  eapply Forall_impl.
  - apply (bubbles_in_plot_area (G := halves) (HG := halves_unit_interval)
             [acme; birch; cedar] true NoSelection no_session).
  - by intros p [Hy _].
Defined.

(** X17.  A company that is alone in its band, a band of the band order, is
    plotted without jitter: its bubble is at the band rank on the x axis and
    at 0 on the y axis. *)
Theorem lone_row_centred {G : RandomState} {HG : UnitInterval G}
    (df : DataFrame) (is_rejected : bool) (event : Event) (w : World)
    (i : nat) (r : Row) (k : nat) :
  df !! i = Some r ->
  create_employee_band_order !! k = Some (standard_band r) ->
  band_size (standard_band r) df = 1%nat ->
  exists (p : PlotRow) (x : R),
    df_plot (create_bubble_chart df is_rejected event w) !! i = Some p
    /\ marker p = (Some x, 0%R)
    /\ x = INR k.
Proof.
  intros Hi Hk Hone.
  destruct (chart_band_rows df (standard_band r) k Hk) as [g' Hg'].
  destruct (Hg' i r is_rejected event w Hi eq_refl) as (j & Hj & Hp).
  pose proof (band_rank_lt df i r Hi) as Hlt.
  rewrite Hone in Hj, Hlt.
  assert (Hr0 : band_rank (standard_band r) df i = 0%nat) by lia.
  rewrite Hr0 in Hj. apply band_jitter_single in Hj. subst j.
  eexists _, _. split_and!; [exact Hp|reflexivity|].
  simpl. lra.
Qed.

Lemma lone_row_centred_witness :
  exists (p : PlotRow) (x : R),
    df_plot (create_bubble_chart [acme; birch; cedar] true NoSelection
               no_session) !! 0%nat = Some p
    /\ marker p = (Some x, 0%R)
    /\ x = INR 0.
Proof.
  apply (lone_row_centred (G := halves) (HG := halves_unit_interval)
           [acme; birch; cedar] true NoSelection no_session 0 acme 0).
  - reflexivity.
  - reflexivity.
  - vm_compute. reflexivity.
Defined.

Section SamePlace.
Context {G : RandomState}.

Lemma same_place_filter (band : pystr) (df df' : list LayoutRow) :
  Forall2 same_place df df' ->
  length (List.filter (band_mask band) df)
  = length (List.filter (band_mask band) df').
Proof.
  induction 1 as [|l l' df df' (Hb & _ & _) _ IH]; simpl; [done|].
  assert (Hm : band_mask band l = band_mask band l').
  { unfold band_mask. by rewrite Hb. }
  rewrite Hm. destruct (band_mask band l'); simpl; by rewrite IH.
Qed.

Lemma same_place_assign (band : pystr) (jitter : list (R * R))
    (df df' : list LayoutRow) :
  Forall2 same_place df df' ->
  Forall2 same_place (assign_jitter band jitter df)
    (assign_jitter band jitter df').
Proof.
  intros H. revert jitter.
  induction H as [|l l' df df' Hl _ IH]; intros jitter; simpl;
    [constructor|].
  pose proof Hl as (Hb & Hx & Hy).
  assert (Hm : band_mask band l = band_mask band l').
  { unfold band_mask. by rewrite Hb. }
  rewrite Hm.
  destruct (band_mask band l'); [destruct jitter as [|j jitter]|];
    constructor; try done; try apply IH.
Qed.

(** The loop gives two frames of the same bands the same jitter, and leaves
    the generator in the same state. *)
Lemma same_place_jitter_bands (band_order : list pystr)
    (df df' : list LayoutRow) (g : rng) :
  Forall2 same_place df df' ->
  Forall2 same_place (jitter_bands band_order df g).1
    (jitter_bands band_order df' g).1
  /\ (jitter_bands band_order df g).2 = (jitter_bands band_order df' g).2.
Proof.
  revert df df' g.
  induction band_order as [|band bs IH]; intros df df' g H; simpl; [done|].
  rewrite <- (same_place_filter band df df' H).
  destruct (_ =? 0)%nat; [by apply IH|].
  destruct (band_jitter _ g) as [jitter g']. apply IH.
  by apply same_place_assign.
Qed.
End SamePlace.

(** X18.  The places of the bubbles depend on the bands of the rows alone:
    two frames that the classifier gives the same bands, row by row, are
    plotted with the same markers, whatever the companies are. *)
Theorem layout_depends_on_bands {G : RandomState} (df df' : DataFrame)
    (r1 r2 : bool) (e1 e2 : Event) (w1 w2 : World) :
  map standard_band df = map standard_band df' ->
  map marker (df_plot (create_bubble_chart df r1 e1 w1))
  = map marker (df_plot (create_bubble_chart df' r2 e2 w2)).
Proof.
  intros Hbands. rewrite !create_bubble_chart_df_plot.
  destruct df as [|r df], df' as [|r' df']; try done.
  rewrite !layout_plotted.
  set (frame := r :: df) in *. set (frame' := r' :: df') in *.
  clearbody frame frame'.
  assert (Hstart : Forall2 same_place
                     (init_layout (map (banded create_employee_band_order) frame))
                     (init_layout (map (banded create_employee_band_order) frame'))).
  { unfold init_layout.
    generalize (band_count (map (banded create_employee_band_order) frame)).
    generalize (band_count (map (banded create_employee_band_order) frame')).
    intros c' c. revert frame' Hbands.
    induction frame as [|a frame IH]; intros [|a' frame'] Hb;
      try discriminate Hb; simpl; constructor.
    - injection Hb as Ha _. split_and!; [|done|done]. simpl.
      fold (standard_band a) (standard_band a'). by rewrite Ha.
    - apply IH. by injection Hb as _ Hb. }
  destruct (same_place_jitter_bands create_employee_band_order _ _ (seed 42)
              Hstart) as [Hloop _].
  induction Hloop as [|l l' ls ls' (Hb & Hx & Hy) _ IH]; simpl; [done|].
  f_equal; [|exact IH].
  unfold marker, position. simpl. by rewrite Hb, Hx, Hy.
Qed.

Lemma layout_depends_on_bands_witness :
  map marker (df_plot (create_bubble_chart [acme; birch] true NoSelection
                         no_session))
  = map marker (df_plot (create_bubble_chart [fern; gorse] false NoSelection
                           no_session)).
Proof.
  apply (layout_depends_on_bands (G := halves)).
  vm_compute. reflexivity.
Defined.

(** ** The hover columns *)

Lemma lazy_until_close_spec (d post : pystr) :
  41%N ∉ d -> 10%N ∉ d -> lazy_until_close (d ++ 41%N :: post) = Some d.
Proof.
  induction d as [|c d IH]; simpl; [done|].
  rewrite !not_elem_of_cons. intros [Hc Hd] [Hn Hd'].
  rewrite (proj2 (N.eqb_neq c 41)) by done.
  rewrite (proj2 (N.eqb_neq c 10)) by done.
  by rewrite IH.
Qed.

Lemma lazy_until_close_None (s : pystr) :
  41%N ∉ s -> lazy_until_close s = None.
Proof.
  induction s as [|c s IH]; simpl; [done|].
  rewrite not_elem_of_cons. intros [Hc Hs].
  rewrite (proj2 (N.eqb_neq c 41)) by done.
  destruct (c =? 10)%N; [done|]. by rewrite IH.
Qed.

Lemma extract_parenthetical_skip (pre s : pystr) :
  40%N ∉ pre -> extract_parenthetical (pre ++ s) = extract_parenthetical s.
Proof.
  induction pre as [|c pre IH]; simpl; [done|].
  rewrite not_elem_of_cons. intros [Hc Hpre].
  rewrite (proj2 (N.eqb_neq c 40)) by done. by apply IH.
Qed.

Lemma extract_parenthetical_None (s : pystr) :
  40%N ∉ s \/ 41%N ∉ s -> extract_parenthetical s = None.
Proof.
  intros [H | H].
  - rewrite <- (app_nil_r s). by rewrite extract_parenthetical_skip.
  - induction s as [|c s IH]; simpl; [done|].
    apply not_elem_of_cons in H as [Hc Hs].
    rewrite (lazy_until_close_None s Hs), (IH Hs). by destruct (c =? 40)%N.
Qed.

(** X19.  The industry description of a code is the text of its first
    parenthetical: the text between the first opening parenthesis and the
    closing parenthesis that follows it first, when no new line stands
    between them. *)
Theorem industry_description_extracts (pre d post : pystr) :
  40%N ∉ pre -> 41%N ∉ d -> 10%N ∉ d ->
  Industry_Description (pre ++ [40%N] ++ d ++ [41%N] ++ post) = d.
Proof.
  intros Hpre Hd Hn. unfold Industry_Description.
  rewrite extract_parenthetical_skip by done. simpl.
  by rewrite lazy_until_close_spec.
Qed.

Lemma industry_description_extracts_witness :
  Industry_Description (lit "K6411 " ++ [40%N] ++ lit "Financial Services"
                          ++ [41%N] ++ [])
  = lit "Financial Services".
Proof.
  apply industry_description_extracts;
    apply (bool_decide_unpack _); vm_compute; exact I.
Defined.

(** X20.  A code without an opening or without a closing parenthesis is its
    own industry description. *)
Theorem industry_description_fallback (code : pystr) :
  40%N ∉ code \/ 41%N ∉ code -> Industry_Description code = code.
Proof.
  intros H. unfold Industry_Description.
  by rewrite extract_parenthetical_None.
Qed.

Lemma industry_description_fallback_witness :
  Industry_Description (lit "M6962") = lit "M6962".
Proof.
  apply industry_description_fallback. left.
  apply (bool_decide_unpack _). vm_compute. exact I.
Defined.

Section EntityTypeClean.
Context (unicode_decimal : N -> bool).

Lemma is_decimal_bracket (c : N) :
  is_decimal unicode_decimal c = true -> c <> 91%N /\ c <> 93%N.
Proof.
  unfold is_decimal. intros H. split; intros ->; vm_compute in H; done.
Qed.

Lemma digits_close_spec (seen : bool) (ds rest : pystr) :
  Forall (fun c => is_decimal unicode_decimal c = true) ds ->
  (seen = true \/ ds <> []) ->
  digits_close unicode_decimal seen (ds ++ 93%N :: rest) = Some rest.
Proof.
  intros Hds. revert seen. induction Hds as [|c ds Hc _ IH]; intros seen Hs.
  - destruct Hs as [-> | Hs]; [|done]. reflexivity.
  - cbn [app digits_close]. rewrite Hc. apply IH. by left.
Qed.

Lemma bracket_tag_spec (ws ds rest : pystr) :
  Forall (fun c => is_space c = true) ws ->
  Forall (fun c => is_decimal unicode_decimal c = true) ds -> ds <> [] ->
  bracket_tag unicode_decimal (ws ++ 91%N :: ds ++ 93%N :: rest) = Some rest.
Proof.
  intros Hws Hds Hne. induction Hws as [|c ws Hc _ IH]; simpl.
  - apply digits_close_spec; [done|by right].
  - by rewrite Hc.
Qed.

(** At a text that holds no opening bracket up to its last code point, not a
    white space, the pattern does not match. *)
Lemma bracket_tag_None (base s : pystr) :
  base <> [] -> 91%N ∉ base ->
  (forall c t, base = t ++ [c] -> is_space c = false) ->
  bracket_tag unicode_decimal (base ++ s) = None.
Proof.
  induction base as [|c b IH]; [done|]. intros _ Hb Hlast.
  apply not_elem_of_cons in Hb as [Hc Hb]. simpl.
  destruct (is_space c) eqn:Es.
  - apply IH; [|done|].
    + intros ->. by rewrite (Hlast c [] eq_refl) in Es.
    + intros c' t ->. by apply (Hlast c' (c :: t)).
  - by rewrite (proj2 (N.eqb_neq c 91)).
Qed.

Lemma remove_tags_skip_all (s : pystr) (skip : nat) :
  (length s <= skip)%nat -> remove_tags unicode_decimal skip s = [].
Proof.
  revert skip. induction s as [|c s IH]; intros skip H; [done|].
  simpl in *. destruct skip as [|skip]; [lia|]. apply IH. lia.
Qed.

Lemma remove_tags_sublist (skip : nat) (s : pystr) :
  remove_tags unicode_decimal skip s `sublist_of` s.
Proof.
  revert skip. induction s as [|c s IH]; intros skip; [done|].
  cbn [remove_tags]. destruct skip as [|skip]; [|apply sublist_cons, IH].
  destruct (bracket_tag unicode_decimal (c :: s)).
  - apply sublist_cons, IH.
  - apply sublist_skip, IH.
Qed.

Lemma bracket_tag_no_bracket (s : pystr) :
  91%N ∉ s -> bracket_tag unicode_decimal s = None.
Proof.
  induction s as [|c s IH]; simpl; [done|].
  rewrite not_elem_of_cons. intros [Hc Hs].
  destruct (is_space c); [by apply IH|].
  by rewrite (proj2 (N.eqb_neq c 91)).
Qed.

(** X21.  A type that ends with a numbered tag, white space and then digits
    in square brackets as in [" [1]"], is cleaned to the text before the
    tag, when that text holds no opening bracket and does not end with white
    space. *)
Theorem entity_type_clean_suffix (base ws ds : pystr) :
  91%N ∉ base ->
  (forall c t, base = t ++ [c] -> is_space c = false) ->
  Forall (fun c => is_space c = true) ws ->
  Forall (fun c => is_decimal unicode_decimal c = true) ds -> ds <> [] ->
  Entity_Type_Clean unicode_decimal (base ++ ws ++ [91%N] ++ ds ++ [93%N])
  = base.
Proof.
  intros Hb Hlast Hws Hds Hne. unfold Entity_Type_Clean.
  induction base as [|c b IH].
  - simpl app at 1.
    pose proof (bracket_tag_spec ws ds [] Hws Hds Hne) as Ht.
    simpl in Ht |- *.
    destruct (ws ++ 91%N :: ds ++ [93%N]) as [|c t] eqn:E.
    { by destruct ws. }
    simpl. simpl in Ht. rewrite Ht. simpl.
    apply remove_tags_skip_all. lia.
  - apply not_elem_of_cons in Hb as [Hc Hb].
    pose proof (bracket_tag_None (c :: b) (ws ++ [91%N] ++ ds ++ [93%N])) as Hn.
    simpl in Hn |- *. rewrite Hn.
    + f_equal. apply IH; [done|]. intros c' t ->. by apply (Hlast c' (c :: t)).
    + done.
    + by apply not_elem_of_cons.
    + exact Hlast.
Qed.

(** X22.  Cleaning a type only deletes code points, and a type without an
    opening bracket is left as it is. *)
Theorem entity_type_clean_deletes (s : pystr) :
  Entity_Type_Clean unicode_decimal s `sublist_of` s
  /\ (91%N ∉ s -> Entity_Type_Clean unicode_decimal s = s).
Proof.
  split; [apply remove_tags_sublist|].
  unfold Entity_Type_Clean. induction s as [|c s IH]; [done|].
  intros Hs. cbn [remove_tags].
  rewrite (bracket_tag_no_bracket (c :: s) Hs).
  apply not_elem_of_cons in Hs as [_ Hs]. by rewrite IH.
Qed.
End EntityTypeClean.

Lemma entity_type_clean_suffix_witness :
  Entity_Type_Clean (fun _ => false)
    (lit "NZ Limited Company" ++ lit " " ++ [91%N] ++ lit "12" ++ [93%N])
  = lit "NZ Limited Company".
Proof.
  apply entity_type_clean_suffix.
  - apply (bool_decide_unpack _). vm_compute. exact I.
  - intros c t E. apply (f_equal (@rev N)) in E.
    rewrite rev_app_distr in E. simpl in E. by injection E as <- _.
  - repeat constructor.
  - repeat constructor.
  - discriminate.
Defined.
